(** * vulkan_sprite_renderer: resource and frame-lifecycle layer

    A shallow embedding of the parts of [src/vkx/vkx_core.c],
    [src/vkx/vkx_swap_chain.c], [src/vkx/vkx_sync.c] and [src/main.c] that
    decide how GPU memory types, swapchain parameters, image layout
    transitions and per-frame synchronisation are chosen.

    Conventions.
    - C integers are [Z]; [uint32_t] arithmetic is wrapped with [wrap32].
    - Vulkan handles are [Z], [VK_NULL_HANDLE] is [0].
    - Vulkan enumerators carry the numeric values of the Vulkan headers.
    - The process-wide globals live in one [World] record that is threaded
      through every call; [exit(1)] is the [Exit] outcome; a fence wait
      that can never return is the [Blocked] outcome.
    - What the driver answers is read from a [Driver] record (set-up time)
      and a [FrameAnswers] record (one frame); every driver call made is
      appended to the world's call log. *)

From Stdlib Require Import ZArith List String Bool Lia.
Import ListNotations.
Local Open Scope string_scope.
Local Open Scope list_scope.
Local Open Scope Z_scope.

(** ** Machine integers *)

Definition wrap32 (x : Z) : Z := x mod 2 ^ 32.

Definition UINT32_MAX : Z := 4294967295.

(** ** Vulkan header constants used by the sources *)

Module Vk.
Definition VK_NULL_HANDLE : Z := 0.

(* VkResult *)
Definition VK_SUCCESS : Z := 0.
Definition VK_SUBOPTIMAL_KHR : Z := 1000001003.
Definition VK_ERROR_OUT_OF_DATE_KHR : Z := -1000001004.
Definition VK_ERROR_DEVICE_LOST : Z := -4.

(* VkFormat *)
Definition VK_FORMAT_R8G8B8A8_UNORM : Z := 37.
Definition VK_FORMAT_B8G8R8A8_SRGB : Z := 50.
Definition VK_FORMAT_D32_SFLOAT : Z := 126.
Definition VK_FORMAT_D24_UNORM_S8_UINT : Z := 129.
Definition VK_FORMAT_D32_SFLOAT_S8_UINT : Z := 130.

(* VkColorSpaceKHR *)
Definition VK_COLOR_SPACE_SRGB_NONLINEAR_KHR : Z := 0.

(* VkPresentModeKHR *)
Definition VK_PRESENT_MODE_IMMEDIATE_KHR : Z := 0.
Definition VK_PRESENT_MODE_MAILBOX_KHR : Z := 1.
Definition VK_PRESENT_MODE_FIFO_KHR : Z := 2.

(* VkSharingMode *)
Definition VK_SHARING_MODE_EXCLUSIVE : Z := 0.
Definition VK_SHARING_MODE_CONCURRENT : Z := 1.

(* VkImageTiling *)
Definition VK_IMAGE_TILING_OPTIMAL : Z := 0.
Definition VK_IMAGE_TILING_LINEAR : Z := 1.

(* VkImageLayout *)
Definition VK_IMAGE_LAYOUT_UNDEFINED : Z := 0.
Definition VK_IMAGE_LAYOUT_GENERAL : Z := 1.
Definition VK_IMAGE_LAYOUT_COLOR_ATTACHMENT_OPTIMAL : Z := 2.
Definition VK_IMAGE_LAYOUT_DEPTH_STENCIL_ATTACHMENT_OPTIMAL : Z := 3.
Definition VK_IMAGE_LAYOUT_SHADER_READ_ONLY_OPTIMAL : Z := 5.
Definition VK_IMAGE_LAYOUT_TRANSFER_SRC_OPTIMAL : Z := 6.
Definition VK_IMAGE_LAYOUT_TRANSFER_DST_OPTIMAL : Z := 7.
Definition VK_IMAGE_LAYOUT_PRESENT_SRC_KHR : Z := 1000001002.

(* VkImageAspectFlagBits *)
Definition VK_IMAGE_ASPECT_COLOR_BIT : Z := 1.
Definition VK_IMAGE_ASPECT_DEPTH_BIT : Z := 2.
Definition VK_IMAGE_ASPECT_STENCIL_BIT : Z := 4.

(* VkPipelineStageFlagBits *)
Definition VK_PIPELINE_STAGE_TOP_OF_PIPE_BIT : Z := 1.
Definition VK_PIPELINE_STAGE_FRAGMENT_SHADER_BIT : Z := 128.
Definition VK_PIPELINE_STAGE_EARLY_FRAGMENT_TESTS_BIT : Z := 256.
Definition VK_PIPELINE_STAGE_COLOR_ATTACHMENT_OUTPUT_BIT : Z := 1024.
Definition VK_PIPELINE_STAGE_TRANSFER_BIT : Z := 4096.
Definition VK_PIPELINE_STAGE_BOTTOM_OF_PIPE_BIT : Z := 8192.

(* VkAccessFlagBits *)
Definition VK_ACCESS_SHADER_READ_BIT : Z := 32.
Definition VK_ACCESS_COLOR_ATTACHMENT_WRITE_BIT : Z := 256.
Definition VK_ACCESS_DEPTH_STENCIL_ATTACHMENT_READ_BIT : Z := 512.
Definition VK_ACCESS_DEPTH_STENCIL_ATTACHMENT_WRITE_BIT : Z := 1024.
Definition VK_ACCESS_TRANSFER_WRITE_BIT : Z := 4096.
Definition VK_ACCESS_MEMORY_READ_BIT : Z := 32768.

(* VkImageUsageFlagBits, VkMemoryPropertyFlagBits, VkFormatFeatureFlagBits *)
Definition VK_IMAGE_USAGE_COLOR_ATTACHMENT_BIT : Z := 16.
Definition VK_IMAGE_USAGE_DEPTH_STENCIL_ATTACHMENT_BIT : Z := 32.
Definition VK_MEMORY_PROPERTY_DEVICE_LOCAL_BIT : Z := 1.
Definition VK_MEMORY_PROPERTY_HOST_VISIBLE_BIT : Z := 2.
Definition VK_MEMORY_PROPERTY_HOST_COHERENT_BIT : Z := 4.
Definition VK_FORMAT_FEATURE_DEPTH_STENCIL_ATTACHMENT_BIT : Z := 512.
End Vk.
Import Vk.

(** ** Data model (include/vkx/vkx_core.h and the Vulkan structs it uses) *)

Record VkxBuffer := mkVkxBuffer {
  buffer : Z;
  buffer_memory : Z
}.

Record VkxImage := mkVkxImage {
  image : Z;
  image_memory : Z;
  view : Z
}.

Record VkExtent2D := mkExtent {
  width : Z;
  height : Z
}.

Record VkSurfaceFormatKHR := mkSurfaceFormat {
  format : Z;
  colorSpace : Z
}.

Record VkSurfaceCapabilitiesKHR := mkCapabilities {
  minImageCount : Z;
  maxImageCount : Z;
  currentExtent : VkExtent2D;
  minImageExtent : VkExtent2D;
  maxImageExtent : VkExtent2D;
  currentTransform : Z
}.

Record VkxSwapChainSupportDetails := mkSupport {
  capabilities : VkSurfaceCapabilitiesKHR;
  formats : list VkSurfaceFormatKHR;
  present_modes : list Z
}.

Definition formats_count (d : VkxSwapChainSupportDetails) : Z :=
  Z.of_nat (List.length (formats d)).

Definition present_modes_count (d : VkxSwapChainSupportDetails) : Z :=
  Z.of_nat (List.length (present_modes d)).

Record VkxQueueFamilyIndices := mkQueueFamilies {
  graphics_family : Z;
  present_family : Z;
  has_graphics_family : bool;
  has_present_family : bool
}.

Record VkMemoryType := mkMemoryType {
  propertyFlags : Z;
  heapIndex : Z
}.

Record VkPhysicalDeviceMemoryProperties := mkMemoryProperties {
  memoryTypeCount : Z;
  memoryTypes : list VkMemoryType
}.

Record VkFormatProperties := mkFormatProperties {
  linearTilingFeatures : Z;
  optimalTilingFeatures : Z
}.

Record VkSwapchainCreateInfoKHR := mkSwapchainCreateInfo {
  ci_minImageCount : Z;
  ci_imageFormat : Z;
  ci_imageColorSpace : Z;
  ci_imageExtent : VkExtent2D;
  ci_imageSharingMode : Z;
  ci_queueFamilyIndexCount : Z;
  ci_preTransform : Z;
  ci_presentMode : Z
}.

Record VkImageMemoryBarrier2 := mkBarrier2 {
  oldLayout : Z;
  newLayout : Z;
  barrier_image : Z;
  aspectMask : Z;
  srcStageMask : Z;
  srcAccessMask : Z;
  dstStageMask : Z;
  dstAccessMask : Z
}.

Record VkxSwapChain := mkVkxSwapChain {
  swap_chain : Z;
  images : list Z;
  image_views : list Z;
  image_format : Z;
  extent : VkExtent2D;
  depth_image : VkxImage;
  has_depth_image : bool
}.

(** [images_count] is the length of the [images] array. *)
Definition images_count (sc : VkxSwapChain) : Z := Z.of_nat (List.length (images sc)).

(** A fence is signaled, unsignaled with no work queued on it, or
    unsignaled with a submission that will signal it. *)
Inductive Fence := FenceSignaled | FenceUnsignaled | FencePending.

(** ** Driver calls that the sources make, as logged *)

(** The log holds the calls that create, destroy, record, submit, wait or
    present. Calls that only ask the driver or the window system
    ([vkGetPhysicalDevice...], [vkGetImageMemoryRequirements],
    [vkGetSwapchainImagesKHR], [vkx_query_swap_chain_support],
    [vkx_find_queue_families], [SDL_GetWindowSize]) are not logged: their
    answers are the fields of [Driver] below. *)

Inductive Call :=
| vkDestroyBuffer (b : Z)
| vkFreeMemory (m : Z)
| vkDestroyImageView (v : Z)
| vkDestroyImage (i : Z)
| vkDestroySwapchainKHR (s : Z)
| vkDeviceWaitIdle
| vkQueueWaitIdle
| vkCreateSwapchainKHR (info : VkSwapchainCreateInfoKHR)
| vkCreateImage (w h fmt tiling usage : Z)
| vkAllocateMemory (memory_type_index : Z)
| vkBindImageMemory (img mem : Z)
| vkCreateImageView (img fmt aspect : Z)
| vkAllocateCommandBuffers
| vkFreeCommandBuffers (cb : Z)
| vkResetCommandBuffer (cb : Z)
| vkBeginCommandBuffer (cb : Z)
| vkEndCommandBuffer (cb : Z)
| vkCmdPipelineBarrier (cb img old_layout new_layout : Z)
| vkCmdPipelineBarrier2 (cb : Z) (b : VkImageMemoryBarrier2)
| vkCmdDrawScene (cb : Z)
| vkCmdDrawScreen (cb view : Z)
| vkQueueSubmit (cb : Z) (fence : option Z)
| vkWaitForFences (slot : Z)
| vkAcquireNextImageKHR (slot : Z)
| vkResetFences (slot : Z)
| memcpyUniforms (slot : Z)
| vkQueuePresentKHR (image_index : Z).

(** ** Set-up time answers of the driver and the window system *)

(** What the Vulkan driver and SDL answer while a swapchain is built. A
    call that returns a [VkResult] and a handle answers with the pair; the
    same question gets the same answer throughout one run of the model. *)
Record Driver := mkDriver {
  (* vkx_query_swap_chain_support *)
  drv_swap_chain_support : VkxSwapChainSupportDetails;
  (* SDL_GetWindowSize: width, height *)
  drv_window_size : Z * Z;
  (* vkx_find_queue_families *)
  drv_queue_families : VkxQueueFamilyIndices;
  (* vkCreateSwapchainKHR: result, swapchain handle *)
  drv_vkCreateSwapchainKHR : VkSwapchainCreateInfoKHR -> Z * Z;
  (* vkGetSwapchainImagesKHR on a swapchain handle *)
  drv_vkGetSwapchainImagesKHR : Z -> list Z;
  drv_vkResetCommandBuffer : Z;
  drv_vkBeginCommandBuffer : Z;
  drv_vkEndCommandBuffer : Z;
  drv_vkQueueSubmit : Z;
  (* vkCreateImageView on image, format, aspect: result, view handle *)
  drv_vkCreateImageView : Z -> Z -> Z -> Z * Z;
  (* vkGetPhysicalDeviceMemoryProperties *)
  drv_mem_properties : VkPhysicalDeviceMemoryProperties;
  (* vkGetPhysicalDeviceFormatProperties on a format *)
  drv_format_properties : Z -> VkFormatProperties;
  (* vkCreateImage on width, height, format: result, image handle *)
  drv_vkCreateImage : Z -> Z -> Z -> Z * Z;
  (* memoryTypeBits of vkGetImageMemoryRequirements on an image *)
  drv_image_memoryTypeBits : Z -> Z;
  (* vkAllocateMemory on a memory type index: result, memory handle *)
  drv_vkAllocateMemory : Z -> Z * Z;
  (* vkx_instance.command_buffers *)
  drv_command_buffers : list Z;
  (* offscreen_images[i].image of main.c *)
  drv_offscreen_images : list Z;
  (* the buffer vkAllocateCommandBuffers hands to a one-shot command *)
  drv_single_time_command_buffer : Z
}.

(** ** Global state and the outcome of a call *)

Record World := mkWorld {
  vkx_swap_chain : VkxSwapChain;
  in_flight_fences : list Fence;
  current_frame : Z;
  framebuffer_resized : bool;
  suboptimal_swapchain_count : Z;
  calls : list Call
}.

Inductive outcome (A : Type) :=
| Done (a : A)
| Exit (msg : string)
| Blocked.
Arguments Done {A} a.
Arguments Exit {A} msg.
Arguments Blocked {A}.

Definition M (A : Type) : Type := World -> outcome (A * World).

Definition ret {A} (a : A) : M A := fun w => Done (a, w).

Definition bind {A B} (c : M A) (k : A -> M B) : M B :=
  fun w => match c w with
           | Done (a, w') => k a w'
           | Exit msg => Exit msg
           | Blocked => Blocked
           end.

Definition exit {A} (msg : string) : M A := fun _ => Exit msg.

Notation "x <- c ;; k" := (bind c (fun x => k))
  (at level 61, c at next level, right associativity).
Notation "c ;;; k" := (bind c (fun _ => k))
  (at level 61, right associativity).

Definition call (c : Call) : M unit :=
  fun w => Done (tt, mkWorld (vkx_swap_chain w) (in_flight_fences w)
                        (current_frame w) (framebuffer_resized w)
                        (suboptimal_swapchain_count w) (calls w ++ [c])).

Definition get_swap_chain : M VkxSwapChain := fun w => Done (vkx_swap_chain w, w).

Definition set_swap_chain (sc : VkxSwapChain) : M unit :=
  fun w => Done (tt, mkWorld sc (in_flight_fences w) (current_frame w)
                        (framebuffer_resized w) (suboptimal_swapchain_count w)
                        (calls w)).

Definition when (b : bool) (c : M unit) : M unit := if b then c else ret tt.

Fixpoint for_each {A} (l : list A) (body : A -> M unit) : M unit :=
  match l with
  | [] => ret tt
  | x :: rest => body x ;;; for_each rest body
  end.

Fixpoint map_m {A B} (l : list A) (body : A -> M B) : M (list B) :=
  match l with
  | [] => ret []
  | x :: rest => y <- body x ;; ys <- map_m rest body ;; ret (y :: ys)
  end.

Definition modify_swap_chain (f : VkxSwapChain -> VkxSwapChain) : M unit :=
  sc <- get_swap_chain ;; set_swap_chain (f sc).

(** Field assignments on the [vkx_swap_chain] global. *)
Definition set_extent (e : VkExtent2D) (sc : VkxSwapChain) : VkxSwapChain :=
  mkVkxSwapChain (swap_chain sc) (images sc) (image_views sc) (image_format sc)
                 e (depth_image sc) (has_depth_image sc).

Definition set_handle_and_images (h : Z) (imgs : list Z) (sc : VkxSwapChain) : VkxSwapChain :=
  mkVkxSwapChain h imgs (image_views sc) (image_format sc)
                 (extent sc) (depth_image sc) (has_depth_image sc).

Definition set_image_views (vs : list Z) (sc : VkxSwapChain) : VkxSwapChain :=
  mkVkxSwapChain (swap_chain sc) (images sc) vs (image_format sc)
                 (extent sc) (depth_image sc) (has_depth_image sc).

Definition set_image_format (f : Z) (sc : VkxSwapChain) : VkxSwapChain :=
  mkVkxSwapChain (swap_chain sc) (images sc) (image_views sc) f
                 (extent sc) (depth_image sc) (has_depth_image sc).

Definition set_depth_image (d : VkxImage) (sc : VkxSwapChain) : VkxSwapChain :=
  mkVkxSwapChain (swap_chain sc) (images sc) (image_views sc) (image_format sc)
                 (extent sc) d (has_depth_image sc).

Definition set_has_depth_image (b : bool) (sc : VkxSwapChain) : VkxSwapChain :=
  mkVkxSwapChain (swap_chain sc) (images sc) (image_views sc) (image_format sc)
                 (extent sc) (depth_image sc) b.

Definition clear_images (sc : VkxSwapChain) : VkxSwapChain :=
  mkVkxSwapChain (swap_chain sc) [] [] (image_format sc)
                 (extent sc) (depth_image sc) (has_depth_image sc).

(** Array read [a[i]]; the sources only read inside the array. *)
Definition at_index (a : list Z) (i : Z) : Z := nth (Z.to_nat i) a 0.

(** The values [0, 1, ..., n-1] that a [for (i = 0; i < n; i++)] visits. *)
Definition index_range (n : Z) : list Z := map Z.of_nat (seq 0 (Z.to_nat n)).

(** ** vkx_core.c *)

Definition memory_type_at (mp : VkPhysicalDeviceMemoryProperties) (i : Z) : VkMemoryType :=
  nth (Z.to_nat i) (memoryTypes mp) (mkMemoryType 0 0).

(** The test of the loop body of [vkx_find_memory_type]:
    [(type_filter & (1 << i)) && (propertyFlags & properties) == properties]. *)
Definition memory_type_matches (mp : VkPhysicalDeviceMemoryProperties)
           (type_filter properties i : Z) : bool :=
  negb (Z.land type_filter (wrap32 (Z.shiftl 1 i)) =? 0)
  && (Z.land (propertyFlags (memory_type_at mp i)) properties =? properties).

Definition vkx_has_stencil_component (fmt : Z) : bool :=
  (fmt =? VK_FORMAT_D32_SFLOAT_S8_UINT) || (fmt =? VK_FORMAT_D24_UNORM_S8_UINT).

(** The [if]/[else if] chain of [vkx_transition_image_layout]: the
    (srcStage, srcAccess, dstStage, dstAccess) masks of a supported
    transition, [None] on the final [else]. *)
Definition transition_masks (old_layout new_layout : Z) : option (Z * Z * Z * Z) :=
  if (old_layout =? VK_IMAGE_LAYOUT_UNDEFINED)
     && (new_layout =? VK_IMAGE_LAYOUT_TRANSFER_DST_OPTIMAL) then
    Some (VK_PIPELINE_STAGE_TOP_OF_PIPE_BIT, 0,
          VK_PIPELINE_STAGE_TRANSFER_BIT, VK_ACCESS_TRANSFER_WRITE_BIT)
  else if (old_layout =? VK_IMAGE_LAYOUT_UNDEFINED)
          && (new_layout =? VK_IMAGE_LAYOUT_SHADER_READ_ONLY_OPTIMAL) then
    Some (VK_PIPELINE_STAGE_TOP_OF_PIPE_BIT, 0,
          VK_PIPELINE_STAGE_TRANSFER_BIT, VK_ACCESS_TRANSFER_WRITE_BIT)
  else if (old_layout =? VK_IMAGE_LAYOUT_UNDEFINED)
          && (new_layout =? VK_IMAGE_LAYOUT_DEPTH_STENCIL_ATTACHMENT_OPTIMAL) then
    Some (VK_PIPELINE_STAGE_TOP_OF_PIPE_BIT, 0,
          VK_PIPELINE_STAGE_EARLY_FRAGMENT_TESTS_BIT,
          Z.lor VK_ACCESS_DEPTH_STENCIL_ATTACHMENT_READ_BIT
                VK_ACCESS_DEPTH_STENCIL_ATTACHMENT_WRITE_BIT)
  else if (old_layout =? VK_IMAGE_LAYOUT_TRANSFER_DST_OPTIMAL)
          && (new_layout =? VK_IMAGE_LAYOUT_SHADER_READ_ONLY_OPTIMAL) then
    Some (VK_PIPELINE_STAGE_TRANSFER_BIT, VK_ACCESS_TRANSFER_WRITE_BIT,
          VK_PIPELINE_STAGE_FRAGMENT_SHADER_BIT, VK_ACCESS_SHADER_READ_BIT)
  else if (old_layout =? VK_IMAGE_LAYOUT_PRESENT_SRC_KHR)
          && (new_layout =? VK_IMAGE_LAYOUT_COLOR_ATTACHMENT_OPTIMAL) then
    Some (VK_PIPELINE_STAGE_TOP_OF_PIPE_BIT, 0,
          VK_PIPELINE_STAGE_COLOR_ATTACHMENT_OUTPUT_BIT,
          VK_ACCESS_COLOR_ATTACHMENT_WRITE_BIT)
  else if (old_layout =? VK_IMAGE_LAYOUT_COLOR_ATTACHMENT_OPTIMAL)
          && (new_layout =? VK_IMAGE_LAYOUT_PRESENT_SRC_KHR) then
    Some (VK_PIPELINE_STAGE_COLOR_ATTACHMENT_OUTPUT_BIT,
          VK_ACCESS_COLOR_ATTACHMENT_WRITE_BIT,
          VK_PIPELINE_STAGE_BOTTOM_OF_PIPE_BIT, VK_ACCESS_MEMORY_READ_BIT)
  else if (old_layout =? VK_IMAGE_LAYOUT_COLOR_ATTACHMENT_OPTIMAL)
          && (new_layout =? VK_IMAGE_LAYOUT_SHADER_READ_ONLY_OPTIMAL) then
    Some (VK_PIPELINE_STAGE_TOP_OF_PIPE_BIT, 0,
          VK_PIPELINE_STAGE_COLOR_ATTACHMENT_OUTPUT_BIT, VK_ACCESS_MEMORY_READ_BIT)
  else if (old_layout =? VK_IMAGE_LAYOUT_SHADER_READ_ONLY_OPTIMAL)
          && (new_layout =? VK_IMAGE_LAYOUT_COLOR_ATTACHMENT_OPTIMAL) then
    Some (VK_PIPELINE_STAGE_FRAGMENT_SHADER_BIT, VK_ACCESS_MEMORY_READ_BIT,
          VK_PIPELINE_STAGE_COLOR_ATTACHMENT_OUTPUT_BIT,
          VK_ACCESS_COLOR_ATTACHMENT_WRITE_BIT)
  else None.

(** The aspect mask chosen at the top of [vkx_transition_image_layout]. *)
Definition transition_aspect (fmt new_layout : Z) : Z :=
  if new_layout =? VK_IMAGE_LAYOUT_DEPTH_STENCIL_ATTACHMENT_OPTIMAL then
    if vkx_has_stencil_component fmt
    then Z.lor VK_IMAGE_ASPECT_DEPTH_BIT VK_IMAGE_ASPECT_STENCIL_BIT
    else VK_IMAGE_ASPECT_DEPTH_BIT
  else VK_IMAGE_ASPECT_COLOR_BIT.

Definition vkx_transition_image_layout
           (command_buffer img fmt old_layout new_layout : Z) : M unit :=
  match transition_masks old_layout new_layout with
  | Some (src_stage, src_access, dst_stage, dst_access) =>
      call (vkCmdPipelineBarrier2 command_buffer
              (mkBarrier2 old_layout new_layout img
                          (transition_aspect fmt new_layout)
                          src_stage src_access dst_stage dst_access))
  | None => exit "Unsupported layout transition"
  end.

(** [vkx_cleanup_buffer] and [vkx_cleanup_image] take a pointer; the
    struct after the call is the returned value. *)
Definition vkx_cleanup_buffer (b : VkxBuffer) : M VkxBuffer :=
  call (vkDestroyBuffer (buffer b)) ;;;
  call (vkFreeMemory (buffer_memory b)) ;;;
  ret (mkVkxBuffer VK_NULL_HANDLE VK_NULL_HANDLE).

Definition vkx_cleanup_image (i : VkxImage) : M VkxImage :=
  when (negb (view i =? VK_NULL_HANDLE)) (call (vkDestroyImageView (view i))) ;;;
  call (vkDestroyImage (image i)) ;;;
  call (vkFreeMemory (image_memory i)) ;;;
  ret (mkVkxImage VK_NULL_HANDLE VK_NULL_HANDLE VK_NULL_HANDLE).

Section WithDriver.
Variable drv : Driver.

Definition vkx_find_memory_type (type_filter properties : Z) : M Z :=
  let mem_properties := drv_mem_properties drv in
  match find (memory_type_matches mem_properties type_filter properties)
             (index_range (memoryTypeCount mem_properties)) with
  | Some i => ret i
  | None => exit "failed to find suitable memory type!"
  end.

Definition vkx_create_image_view (img fmt aspect_flags : Z) : M Z :=
  call (vkCreateImageView img fmt aspect_flags) ;;;
  let '(result, image_view) := drv_vkCreateImageView drv img fmt aspect_flags in
  if negb (result =? VK_SUCCESS) then exit "failed to create image view!"
  else ret image_view.

Definition vkx_create_image (w h fmt tiling usage properties : Z) : M VkxImage :=
  call (vkCreateImage w h fmt tiling usage) ;;;
  let '(result, img) := drv_vkCreateImage drv w h fmt in
  if negb (result =? VK_SUCCESS) then exit "Failed to create image!"
  else
    index <- vkx_find_memory_type (drv_image_memoryTypeBits drv img) properties ;;
    call (vkAllocateMemory index) ;;;
    (* a failed allocation is only reported, the function carries on *)
    let '(_, mem) := drv_vkAllocateMemory drv index in
    call (vkBindImageMemory img mem) ;;;
    ret (mkVkxImage img mem VK_NULL_HANDLE).

Definition vkx_begin_single_time_commands : M Z :=
  call vkAllocateCommandBuffers ;;;
  let command_buffer := drv_single_time_command_buffer drv in
  call (vkBeginCommandBuffer command_buffer) ;;;
  ret command_buffer.

Definition vkx_end_single_time_commands (command_buffer : Z) : M unit :=
  call (vkEndCommandBuffer command_buffer) ;;;
  if negb (drv_vkEndCommandBuffer drv =? VK_SUCCESS)
  then exit "failed to record command buffer!"
  else
    call (vkQueueSubmit command_buffer None) ;;;
    call vkQueueWaitIdle ;;;
    call (vkFreeCommandBuffers command_buffer).

Definition format_supported (tiling features candidate : Z) : bool :=
  let props := drv_format_properties drv candidate in
  ((tiling =? VK_IMAGE_TILING_LINEAR)
   && (Z.land (linearTilingFeatures props) features =? features))
  || ((tiling =? VK_IMAGE_TILING_OPTIMAL)
      && (Z.land (optimalTilingFeatures props) features =? features)).

Definition vkx_find_supported_format (candidates : list Z) (tiling features : Z) : M Z :=
  match find (format_supported tiling features) candidates with
  | Some f => ret f
  | None => exit "Failed to find supported format"
  end.

Definition vkx_find_depth_format : M Z :=
  vkx_find_supported_format
    [VK_FORMAT_D32_SFLOAT; VK_FORMAT_D32_SFLOAT_S8_UINT; VK_FORMAT_D24_UNORM_S8_UINT]
    VK_IMAGE_TILING_OPTIMAL VK_FORMAT_FEATURE_DEPTH_STENCIL_ATTACHMENT_BIT.

Definition vkx_transition_image_layout_tmp_buffer
           (img fmt old_layout new_layout : Z) : M unit :=
  command_buffer <- vkx_begin_single_time_commands ;;
  vkx_transition_image_layout command_buffer img fmt old_layout new_layout ;;;
  vkx_end_single_time_commands command_buffer.
End WithDriver.

(** ** vkx_swap_chain.c *)

(** The component-wise clamp of [vkx_choose_swap_extent]. *)
Definition clamp_extent (actual lo hi : Z) : Z :=
  if actual <? lo then lo
  else if actual >? hi then hi
  else actual.

(** [window_size] is what [SDL_GetWindowSize] stores in its two [int]s;
    the initialiser of [actualExtent] converts them to [uint32_t]. *)
Definition vkx_choose_swap_extent (window_size : Z * Z)
           (caps : VkSurfaceCapabilitiesKHR) : VkExtent2D :=
  if negb (width (currentExtent caps) =? 4294967295) then currentExtent caps
  else
    let '(w, h) := window_size in
    mkExtent
      (clamp_extent (wrap32 w) (width (minImageExtent caps)) (width (maxImageExtent caps)))
      (clamp_extent (wrap32 h) (height (minImageExtent caps)) (height (maxImageExtent caps))).

Definition is_preferred_format (f : VkSurfaceFormatKHR) : bool :=
  (format f =? VK_FORMAT_B8G8R8A8_SRGB)
  && (colorSpace f =? VK_COLOR_SPACE_SRGB_NONLINEAR_KHR).

(** Lines 61-67: start from [formats[0]], take the first preferred entry. *)
Definition choose_surface_format (fs : list VkSurfaceFormatKHR) : VkSurfaceFormatKHR :=
  let surface_format := nth 0 fs (mkSurfaceFormat 0 0) in
  match find is_preferred_format fs with
  | Some f => f
  | None => surface_format
  end.

(** Lines 71-77: start from FIFO, take the first MAILBOX entry. *)
Definition choose_present_mode (modes : list Z) : Z :=
  let present_mode := VK_PRESENT_MODE_FIFO_KHR in
  match find (fun m => m =? VK_PRESENT_MODE_MAILBOX_KHR) modes with
  | Some m => m
  | None => present_mode
  end.

(** Lines 82-85, in [uint32_t]. *)
Definition choose_image_count (caps : VkSurfaceCapabilitiesKHR) : Z :=
  let image_count := wrap32 (minImageCount caps + 1) in
  if (maxImageCount caps >? 0) && (image_count >? maxImageCount caps)
  then maxImageCount caps
  else image_count.

Definition swap_chain_create_info (support : VkxSwapChainSupportDetails)
           (indices : VkxQueueFamilyIndices) (ext : VkExtent2D) : VkSwapchainCreateInfoKHR :=
  let surface_format := choose_surface_format (formats support) in
  let concurrent := negb (graphics_family indices =? present_family indices) in
  mkSwapchainCreateInfo
    (choose_image_count (capabilities support))
    (format surface_format)
    (colorSpace surface_format)
    ext
    (if concurrent then VK_SHARING_MODE_CONCURRENT else VK_SHARING_MODE_EXCLUSIVE)
    (if concurrent then 2 else 0)
    (currentTransform (capabilities support))
    (choose_present_mode (present_modes support)).

Section SwapChain.
Variable drv : Driver.

Definition check (result : Z) (msg : string) : M unit :=
  if negb (result =? VK_SUCCESS) then exit msg else ret tt.

Definition create_depth_resources : M unit :=
  depth_format <- vkx_find_depth_format drv ;;
  sc <- get_swap_chain ;;
  img <- vkx_create_image drv (width (extent sc)) (height (extent sc)) depth_format
           VK_IMAGE_TILING_OPTIMAL VK_IMAGE_USAGE_DEPTH_STENCIL_ATTACHMENT_BIT
           VK_MEMORY_PROPERTY_DEVICE_LOCAL_BIT ;;
  modify_swap_chain (set_depth_image img) ;;;
  v <- vkx_create_image_view drv (image img) depth_format VK_IMAGE_ASPECT_DEPTH_BIT ;;
  modify_swap_chain (set_depth_image (mkVkxImage (image img) (image_memory img) v)) ;;;
  vkx_transition_image_layout_tmp_buffer drv (image img) depth_format
    VK_IMAGE_LAYOUT_UNDEFINED VK_IMAGE_LAYOUT_DEPTH_STENCIL_ATTACHMENT_OPTIMAL.

Definition vkx_create_swap_chain (create_depth_image : bool) : M unit :=
  let swap_chain_support := drv_swap_chain_support drv in
  if formats_count swap_chain_support =? 0 then
    exit "Swap chain support not available (no formats)"
  else if present_modes_count swap_chain_support =? 0 then
    exit "Swap chain support not available (no present modes)"
  else
    let surface_format := choose_surface_format (formats swap_chain_support) in
    let ext := vkx_choose_swap_extent (drv_window_size drv)
                                      (capabilities swap_chain_support) in
    modify_swap_chain (set_extent ext) ;;;
    let create_info :=
      swap_chain_create_info swap_chain_support (drv_queue_families drv) ext in
    call (vkCreateSwapchainKHR create_info) ;;;
    let '(result, handle) := drv_vkCreateSwapchainKHR drv create_info in
    check result "failed to create swap chain!" ;;;
    let imgs := drv_vkGetSwapchainImagesKHR drv handle in
    modify_swap_chain (set_handle_and_images handle imgs) ;;;
    let command_buffer := at_index (drv_command_buffers drv) 0 in
    call (vkResetCommandBuffer command_buffer) ;;;
    check (drv_vkResetCommandBuffer drv) "failed to reset command buffer!" ;;;
    call (vkBeginCommandBuffer command_buffer) ;;;
    check (drv_vkBeginCommandBuffer drv) "failed to begin recording command buffer!" ;;;
    for_each imgs (fun img =>
      call (vkCmdPipelineBarrier command_buffer img
              VK_IMAGE_LAYOUT_UNDEFINED VK_IMAGE_LAYOUT_PRESENT_SRC_KHR)) ;;;
    call (vkEndCommandBuffer command_buffer) ;;;
    check (drv_vkEndCommandBuffer drv) "failed to record command buffer!" ;;;
    call (vkQueueSubmit command_buffer None) ;;;
    check (drv_vkQueueSubmit drv) "failed to submit command buffer!" ;;;
    views <- map_m imgs (fun img =>
               vkx_create_image_view drv img (format surface_format)
                                     VK_IMAGE_ASPECT_COLOR_BIT) ;;
    modify_swap_chain (set_image_views views) ;;;
    call vkQueueWaitIdle ;;;
    modify_swap_chain (set_image_format (format surface_format)) ;;;
    modify_swap_chain (set_has_depth_image create_depth_image) ;;;
    when create_depth_image create_depth_resources.

Definition vkx_cleanup_swap_chain : M unit :=
  sc <- get_swap_chain ;;
  when (has_depth_image sc)
       (d <- vkx_cleanup_image (depth_image sc) ;;
        modify_swap_chain (set_depth_image d)) ;;;
  for_each (firstn (Z.to_nat (images_count sc)) (image_views sc))
           (fun v => call (vkDestroyImageView v)) ;;;
  modify_swap_chain clear_images ;;;
  call (vkDestroySwapchainKHR (swap_chain sc)).

Definition vkx_recreate_swap_chain : M unit :=
  call vkDeviceWaitIdle ;;;
  vkx_cleanup_swap_chain ;;;
  sc <- get_swap_chain ;;
  vkx_create_swap_chain (has_depth_image sc).
End SwapChain.

(** ** main.c *)

Definition VKX_FRAMES_IN_FLIGHT : Z := 2.
Definition SUBOPTIMAL_SWAPCHAIN_THRESHOLD : Z := 10.

(** What the driver answers during one call of [draw_frame]. *)
Record FrameAnswers := mkFrameAnswers {
  ans_acquire : Z;
  ans_image_index : Z;
  ans_begin : Z;
  ans_end : Z;
  ans_submit : Z;
  ans_present : Z
}.

Fixpoint update_nth {A} (n : nat) (x : A) (l : list A) : list A :=
  match l, n with
  | [], _ => []
  | _ :: rest, O => x :: rest
  | y :: rest, S n' => y :: update_nth n' x rest
  end.

Definition fence_at (w : World) (slot : Z) : Fence :=
  nth (Z.to_nat slot) (in_flight_fences w) FenceUnsignaled.

(** Assignments to the globals of [main.c]. *)
Definition with_fences (fs : list Fence) (w : World) : World :=
  mkWorld (vkx_swap_chain w) fs (current_frame w) (framebuffer_resized w)
          (suboptimal_swapchain_count w) (calls w).

Definition with_current_frame (n : Z) (w : World) : World :=
  mkWorld (vkx_swap_chain w) (in_flight_fences w) n (framebuffer_resized w)
          (suboptimal_swapchain_count w) (calls w).

Definition with_framebuffer_resized (b : bool) (w : World) : World :=
  mkWorld (vkx_swap_chain w) (in_flight_fences w) (current_frame w) b
          (suboptimal_swapchain_count w) (calls w).

Definition with_suboptimal_swapchain_count (n : Z) (w : World) : World :=
  mkWorld (vkx_swap_chain w) (in_flight_fences w) (current_frame w)
          (framebuffer_resized w) n (calls w).

Definition with_call (c : Call) (w : World) : World :=
  mkWorld (vkx_swap_chain w) (in_flight_fences w) (current_frame w)
          (framebuffer_resized w) (suboptimal_swapchain_count w) (calls w ++ [c]).

Definition set_fence (slot : Z) (f : Fence) : M unit :=
  fun w => Done (tt, with_fences (update_nth (Z.to_nat slot) f (in_flight_fences w)) w).

Definition get_current_frame : M Z := fun w => Done (current_frame w, w).
Definition get_framebuffer_resized : M bool := fun w => Done (framebuffer_resized w, w).
Definition get_suboptimal_swapchain_count : M Z :=
  fun w => Done (suboptimal_swapchain_count w, w).

Definition set_current_frame (n : Z) : M unit :=
  fun w => Done (tt, with_current_frame n w).

Definition set_framebuffer_resized (b : bool) : M unit :=
  fun w => Done (tt, with_framebuffer_resized b w).

Definition set_suboptimal_swapchain_count (n : Z) : M unit :=
  fun w => Done (tt, with_suboptimal_swapchain_count n w).

(** [vkWaitForFences] with an infinite timeout: returns once the fence is
    signaled, which never happens for a fence that was reset and has no
    submission queued on it. *)
Definition wait_for_fence (slot : Z) : M unit :=
  fun w => match fence_at w slot with
           | FenceUnsignaled => Blocked
           | _ => (call (vkWaitForFences slot) ;;; set_fence slot FenceSignaled) w
           end.

Definition reset_fence (slot : Z) : M unit :=
  call (vkResetFences slot) ;;; set_fence slot FenceUnsignaled.

Section Main.
Variable drv : Driver.
Variable ans : FrameAnswers.

Definition record_command_buffer (command_buffer image_index : Z) : M unit :=
  call (vkBeginCommandBuffer command_buffer) ;;;
  check (ans_begin ans) "failed to begin recording command buffer!" ;;;
  sc <- get_swap_chain ;;
  frame <- get_current_frame ;;
  let offscreen := at_index (drv_offscreen_images drv) frame in
  vkx_transition_image_layout command_buffer (at_index (images sc) image_index)
    (image_format sc)
    VK_IMAGE_LAYOUT_PRESENT_SRC_KHR VK_IMAGE_LAYOUT_COLOR_ATTACHMENT_OPTIMAL ;;;
  vkx_transition_image_layout command_buffer offscreen (image_format sc)
    VK_IMAGE_LAYOUT_SHADER_READ_ONLY_OPTIMAL VK_IMAGE_LAYOUT_COLOR_ATTACHMENT_OPTIMAL ;;;
  call (vkCmdDrawScene command_buffer) ;;;
  vkx_transition_image_layout command_buffer offscreen (image_format sc)
    VK_IMAGE_LAYOUT_COLOR_ATTACHMENT_OPTIMAL VK_IMAGE_LAYOUT_SHADER_READ_ONLY_OPTIMAL ;;;
  call (vkCmdDrawScreen command_buffer (at_index (image_views sc) image_index)) ;;;
  vkx_transition_image_layout command_buffer (at_index (images sc) image_index)
    (image_format sc)
    VK_IMAGE_LAYOUT_COLOR_ATTACHMENT_OPTIMAL VK_IMAGE_LAYOUT_PRESENT_SRC_KHR ;;;
  call (vkEndCommandBuffer command_buffer) ;;;
  check (ans_end ans) "failed to record command buffer!".

(** Lines 929-937 of [draw_frame]: the debounce counter update. *)
Definition count_suboptimal (result : Z) : M unit :=
  if result =? VK_SUBOPTIMAL_KHR then
    n <- get_suboptimal_swapchain_count ;;
    set_suboptimal_swapchain_count (wrap32 (n + 1))
  else
    set_suboptimal_swapchain_count 0.

(** Lines 939-957 of [draw_frame]: what to do with the present result. *)
Definition handle_present_result (result : Z) : M unit :=
  resized <- get_framebuffer_resized ;;
  n <- get_suboptimal_swapchain_count ;;
  if resized then
    set_framebuffer_resized false ;;;
    vkx_recreate_swap_chain drv
  else if n >=? SUBOPTIMAL_SWAPCHAIN_THRESHOLD then
    set_suboptimal_swapchain_count 0 ;;;
    vkx_recreate_swap_chain drv
  else if result =? VK_ERROR_OUT_OF_DATE_KHR then
    vkx_recreate_swap_chain drv
  else if negb (result =? VK_SUBOPTIMAL_KHR) && negb (result =? VK_SUCCESS) then
    exit "failed to present swap chain image!"
  else ret tt.

(** Lines 929-957 of [draw_frame]: everything between the present call
    and the frame counter update. *)
Definition after_present (result : Z) : M unit :=
  count_suboptimal result ;;;
  handle_present_result result.

(** Lines 851-959 of [draw_frame]: the frame once an image is acquired. *)
Definition render_and_present (frame image_index : Z) : M unit :=
  call (memcpyUniforms frame) ;;;
  reset_fence frame ;;;
  let command_buffer := at_index (drv_command_buffers drv) frame in
  call (vkResetCommandBuffer command_buffer) ;;;
  record_command_buffer command_buffer image_index ;;;
  call (vkQueueSubmit command_buffer (Some frame)) ;;;
  check (ans_submit ans) "failed to submit draw command buffer!" ;;;
  set_fence frame FencePending ;;;
  call (vkQueuePresentKHR image_index) ;;;
  after_present (ans_present ans) ;;;
  set_current_frame (wrap32 (frame + 1) mod VKX_FRAMES_IN_FLIGHT).

Definition draw_frame : M unit :=
  frame <- get_current_frame ;;
  wait_for_fence frame ;;;
  call (vkAcquireNextImageKHR frame) ;;;
  let result := ans_acquire ans in
  if result =? VK_ERROR_OUT_OF_DATE_KHR then
    vkx_recreate_swap_chain drv
  else if negb (result =? VK_SUCCESS) && negb (result =? VK_SUBOPTIMAL_KHR) then
    exit "Failed to acquire swap chain image"
  else
    render_and_present frame (ans_image_index ans).
End Main.

(** [vkx_init_sync_objects] creates every fence signaled. *)
Definition initial_fences : list Fence :=
  repeat FenceSignaled (Z.to_nat VKX_FRAMES_IN_FLIGHT).

(** ** A driver and a world to run the model on *)

Definition example_support : VkxSwapChainSupportDetails :=
  mkSupport
    (mkCapabilities 2 0 (mkExtent 800 600) (mkExtent 1 1) (mkExtent 4096 4096) 1)
    [mkSurfaceFormat VK_FORMAT_B8G8R8A8_SRGB VK_COLOR_SPACE_SRGB_NONLINEAR_KHR;
     mkSurfaceFormat VK_FORMAT_R8G8B8A8_UNORM VK_COLOR_SPACE_SRGB_NONLINEAR_KHR]
    [VK_PRESENT_MODE_FIFO_KHR; VK_PRESENT_MODE_MAILBOX_KHR].

Definition example_memory : VkPhysicalDeviceMemoryProperties :=
  mkMemoryProperties 3
    [mkMemoryType (Z.lor VK_MEMORY_PROPERTY_HOST_VISIBLE_BIT
                         VK_MEMORY_PROPERTY_HOST_COHERENT_BIT) 1;
     mkMemoryType VK_MEMORY_PROPERTY_DEVICE_LOCAL_BIT 0;
     mkMemoryType (Z.lor VK_MEMORY_PROPERTY_DEVICE_LOCAL_BIT
                         VK_MEMORY_PROPERTY_HOST_VISIBLE_BIT) 0].

Definition example_driver : Driver :=
  mkDriver
    example_support
    (800, 600)
    (mkQueueFamilies 0 0 true true)
    (fun _ => (VK_SUCCESS, 77))
    (fun _ => [101; 102; 103])
    VK_SUCCESS VK_SUCCESS VK_SUCCESS VK_SUCCESS
    (fun img _ _ => (VK_SUCCESS, img + 1000))
    example_memory
    (fun fmt => if fmt =? VK_FORMAT_D24_UNORM_S8_UINT
                then mkFormatProperties 0 VK_FORMAT_FEATURE_DEPTH_STENCIL_ATTACHMENT_BIT
                else mkFormatProperties 0 0)
    (fun _ _ _ => (VK_SUCCESS, 500))
    (fun _ => 6)
    (fun _ => (VK_SUCCESS, 600))
    [11; 12]
    [21; 22]
    13.

Definition example_swap_chain (depth : bool) : VkxSwapChain :=
  mkVkxSwapChain 76 [91; 92] [1091; 1092] VK_FORMAT_R8G8B8A8_UNORM
                 (mkExtent 640 480)
                 (if depth then mkVkxImage 400 401 402
                  else mkVkxImage VK_NULL_HANDLE VK_NULL_HANDLE VK_NULL_HANDLE)
                 depth.

Definition example_world (depth resized : bool) (count : Z) : World :=
  mkWorld (example_swap_chain depth) initial_fences 0 resized count [].

Definition example_answers (acquire present : Z) : FrameAnswers :=
  mkFrameAnswers acquire 1 VK_SUCCESS VK_SUCCESS VK_SUCCESS present.

(** ** How a call changed the world *)

(** The per-frame globals of [main.c] are untouched. *)
Definition frame_eq (w w' : World) : Prop :=
  in_flight_fences w' = in_flight_fences w
  /\ current_frame w' = current_frame w
  /\ framebuffer_resized w' = framebuffer_resized w
  /\ suboptimal_swapchain_count w' = suboptimal_swapchain_count w.

(** The calls logged between [w] and [w']. *)
Definition logged (w w' : World) (l : list Call) : Prop :=
  calls w' = calls w ++ l.

(** [c] leaves the per-frame globals alone and logs only calls in [P]. *)
Definition emits (P : Call -> Prop) {A} (c : M A) : Prop :=
  forall w a w', c w = Done (a, w') ->
    frame_eq w w' /\ exists l, logged w w' l /\ Forall P l.

(** [c] moreover leaves the [vkx_swap_chain] global alone. *)
Definition silent (P : Call -> Prop) {A} (c : M A) : Prop :=
  forall w a w', c w = Done (a, w') ->
    vkx_swap_chain w' = vkx_swap_chain w
    /\ frame_eq w w' /\ exists l, logged w w' l /\ Forall P l.

(** Calls that swapchain set-up and tear-down may make: anything but the
    device-idle wait and the calls that belong to the frame being drawn
    (its fence wait and reset, its acquire, its uniform upload, its draw
    commands, its fenced submission and its presentation). *)
Definition setup_call (c : Call) : Prop :=
  c <> vkDeviceWaitIdle /\
  match c with
  | vkResetFences _ | memcpyUniforms _ | vkCmdDrawScene _ | vkCmdDrawScreen _ _
  | vkQueueSubmit _ (Some _) | vkQueuePresentKHR _
  | vkWaitForFences _ | vkAcquireNextImageKHR _ => False
  | _ => True
  end.

(** Number of swapchain recreations in a log: [vkx_recreate_swap_chain]
    is the only caller of [vkDeviceWaitIdle] inside a frame. *)
Fixpoint recreations (l : list Call) : nat :=
  match l with
  | [] => 0
  | vkDeviceWaitIdle :: rest => S (recreations rest)
  | _ :: rest => recreations rest
  end.

(** [c] keeps a property of the [vkx_swap_chain] global that held before;
    [c] makes it hold whatever held before. *)
Definition maintains (Q : VkxSwapChain -> Prop) {A} (c : M A) : Prop :=
  forall w a w', c w = Done (a, w') -> Q (vkx_swap_chain w) -> Q (vkx_swap_chain w').

Definition establishes (Q : VkxSwapChain -> Prop) {A} (c : M A) : Prop :=
  forall w a w', c w = Done (a, w') -> Q (vkx_swap_chain w').

(** The calls [vkx_cleanup_swap_chain] makes on a swapchain, in order, and
    the swapchain record it leaves. *)
Definition cleanup_calls (sc : VkxSwapChain) : list Call :=
  (if has_depth_image sc then
     (if view (depth_image sc) =? VK_NULL_HANDLE then []
      else [vkDestroyImageView (view (depth_image sc))])
       ++ [vkDestroyImage (image (depth_image sc));
           vkFreeMemory (image_memory (depth_image sc))]
   else [])
    ++ map vkDestroyImageView (firstn (Z.to_nat (images_count sc)) (image_views sc))
    ++ [vkDestroySwapchainKHR (swap_chain sc)].

Definition cleaned (sc : VkxSwapChain) : VkxSwapChain :=
  clear_images
    (if has_depth_image sc
     then set_depth_image (mkVkxImage VK_NULL_HANDLE VK_NULL_HANDLE VK_NULL_HANDLE) sc
     else sc).

(** The state of the swapchain that the rest of the program observes. *)
Definition observable (sc : VkxSwapChain) : VkExtent2D * Z * Z :=
  (extent sc, image_format sc, images_count sc).

(** What recreation leaves observable, read off the driver's answers alone:
    the extent chosen from the surface capabilities and the window size, the
    format chosen from the supported formats, and the number of images the
    driver hands out for the swapchain it creates on that request. *)
Definition recreated_observable (drv : Driver) : VkExtent2D * Z * Z :=
  let support := drv_swap_chain_support drv in
  let ext := vkx_choose_swap_extent (drv_window_size drv) (capabilities support) in
  let info := swap_chain_create_info support (drv_queue_families drv) ext in
  (ext, format (choose_surface_format (formats support)),
   Z.of_nat (List.length (drv_vkGetSwapchainImagesKHR drv
                            (snd (drv_vkCreateSwapchainKHR drv info))))).

(** The world once [draw_frame] has waited for the slot's fence and asked
    for the next image. *)
Definition after_acquire (w : World) : World :=
  let frame := current_frame w in
  with_call (vkAcquireNextImageKHR frame)
    (with_fences (update_nth (Z.to_nat frame) FenceSignaled (in_flight_fences w))
       (with_call (vkWaitForFences frame) w)).

(** [c] leaves the frame counter, the resize flag and the debounce counter
    alone (it may touch fences and the swapchain) and only adds to the log. *)
Definition keeps_counters {A} (c : M A) : Prop :=
  forall w a w', c w = Done (a, w') ->
    current_frame w' = current_frame w
    /\ framebuffer_resized w' = framebuffer_resized w
    /\ suboptimal_swapchain_count w' = suboptimal_swapchain_count w
    /\ exists l, logged w w' l.

(** A driver that supports the surface and whose calls during swapchain
    set-up all succeed. *)
Definition cooperative (drv : Driver) : Prop :=
  formats (drv_swap_chain_support drv) <> []
  /\ present_modes (drv_swap_chain_support drv) <> []
  /\ (forall info, fst (drv_vkCreateSwapchainKHR drv info) = VK_SUCCESS)
  /\ drv_vkResetCommandBuffer drv = VK_SUCCESS
  /\ drv_vkBeginCommandBuffer drv = VK_SUCCESS
  /\ drv_vkEndCommandBuffer drv = VK_SUCCESS
  /\ drv_vkQueueSubmit drv = VK_SUCCESS
  /\ (forall img fmt aspect, fst (drv_vkCreateImageView drv img fmt aspect) = VK_SUCCESS).

(** [c] returns, from every world. *)
Definition returns {A} (c : M A) : Prop :=
  forall w, exists a w', c w = Done (a, w').

(** The eight transitions listed in the [if]/[else if] chain. *)
Definition supported_transitions : list (Z * Z) :=
  [(VK_IMAGE_LAYOUT_UNDEFINED, VK_IMAGE_LAYOUT_TRANSFER_DST_OPTIMAL);
   (VK_IMAGE_LAYOUT_UNDEFINED, VK_IMAGE_LAYOUT_SHADER_READ_ONLY_OPTIMAL);
   (VK_IMAGE_LAYOUT_UNDEFINED, VK_IMAGE_LAYOUT_DEPTH_STENCIL_ATTACHMENT_OPTIMAL);
   (VK_IMAGE_LAYOUT_TRANSFER_DST_OPTIMAL, VK_IMAGE_LAYOUT_SHADER_READ_ONLY_OPTIMAL);
   (VK_IMAGE_LAYOUT_PRESENT_SRC_KHR, VK_IMAGE_LAYOUT_COLOR_ATTACHMENT_OPTIMAL);
   (VK_IMAGE_LAYOUT_COLOR_ATTACHMENT_OPTIMAL, VK_IMAGE_LAYOUT_PRESENT_SRC_KHR);
   (VK_IMAGE_LAYOUT_COLOR_ATTACHMENT_OPTIMAL, VK_IMAGE_LAYOUT_SHADER_READ_ONLY_OPTIMAL);
   (VK_IMAGE_LAYOUT_SHADER_READ_ONLY_OPTIMAL, VK_IMAGE_LAYOUT_COLOR_ATTACHMENT_OPTIMAL)].

(** [flags] has every bit of [requested]. *)
Definition flags_superset (flags requested : Z) : Prop :=
  forall n, 0 <= n -> Z.testbit requested n = true -> Z.testbit flags n = true.

(** Memory type [i] of the device can back a resource with mask
    [type_filter] and properties [properties]. *)
Definition suitable_memory_type (mp : VkPhysicalDeviceMemoryProperties)
           (type_filter properties i : Z) : Prop :=
  0 <= i < memoryTypeCount mp
  /\ Z.testbit type_filter i = true
  /\ flags_superset (propertyFlags (memory_type_at mp i)) properties.

(** ** vkx_core.c: queue family search *)

Definition VK_QUEUE_GRAPHICS_BIT : Z := 1.

(** One entry of [vkGetPhysicalDeviceQueueFamilyProperties] together with
    the answer of [vkGetPhysicalDeviceSurfaceSupportKHR] for its index. *)
Record QueueFamily := mkQueueFamily {
  queueFlags : Z;
  present_support : bool
}.

Definition is_graphics_family (f : QueueFamily) : bool :=
  negb (Z.land (queueFlags f) VK_QUEUE_GRAPHICS_BIT =? 0).

(** The body of the loop of [vkx_find_queue_families] at index [i], before
    the test that breaks out of it. *)
Definition note_queue_family (i : Z) (f : QueueFamily)
           (indices : VkxQueueFamilyIndices) : VkxQueueFamilyIndices :=
  let indices :=
    if is_graphics_family f
    then mkQueueFamilies i (present_family indices) true (has_present_family indices)
    else indices in
  if present_support f
  then mkQueueFamilies (graphics_family indices) i (has_graphics_family indices) true
  else indices.

Fixpoint find_queue_families_from (i : Z) (families : list QueueFamily)
         (indices : VkxQueueFamilyIndices) : VkxQueueFamilyIndices :=
  match families with
  | [] => indices
  | f :: rest =>
      let indices := note_queue_family i f indices in
      if has_graphics_family indices && has_present_family indices
      then indices
      else find_queue_families_from (i + 1) rest indices
  end.

Definition vkx_find_queue_families (families : list QueueFamily) : VkxQueueFamilyIndices :=
  find_queue_families_from 0 families (mkQueueFamilies 0 0 false false).

(** ** vkx_init.c: physical device selection *)

(** What the driver reports about one physical device. *)
Record PhysicalDevice := mkPhysicalDevice {
  pd_handle : Z;
  pd_queue_families : list QueueFamily;
  pd_extensions : list string;
  pd_samplerAnisotropy : bool;
  pd_swap_chain_support : VkxSwapChainSupportDetails
}.

(** [VK_KHR_SWAPCHAIN_EXTENSION_NAME] and
    [VK_EXT_DESCRIPTOR_INDEXING_EXTENSION_NAME]. *)
Definition device_extensions : list string :=
  ["VK_KHR_swapchain"; "VK_EXT_descriptor_indexing"].

(** Lines 140-156: every required extension is among the available ones. *)
Definition required_extensions_supported (available : list string) : bool :=
  forallb (fun required => existsb (String.eqb required) available) device_extensions.

(** The body of the device loop of [vkx_pick_physical_device]: [true] when
    it reaches [physical_device = devices[i]; break]. *)
Definition device_suitable (d : PhysicalDevice) : bool :=
  let indices := vkx_find_queue_families (pd_queue_families d) in
  if negb (required_extensions_supported (pd_extensions d)) then false
  else if negb (pd_samplerAnisotropy d) then false
  else
    let swap_chain_adequate :=
      if has_present_family indices
      then (formats_count (pd_swap_chain_support d) >? 0)
           && (present_modes_count (pd_swap_chain_support d) >? 0)
      else false in
    has_graphics_family indices && has_present_family indices && swap_chain_adequate.

Definition vkx_pick_physical_device (devices : list PhysicalDevice) : outcome Z :=
  if Z.of_nat (List.length devices) =? 0 then
    Exit "failed to find GPUs with Vulkan support!"
  else
    Done (match find device_suitable devices with
          | Some d => pd_handle d
          | None => VK_NULL_HANDLE
          end).

(** Lines 274-279 of [vkx_init]: the selected device, or the fatal exit. *)
Definition select_physical_device (devices : list PhysicalDevice) : outcome Z :=
  match vkx_pick_physical_device devices with
  | Done physical_device =>
      if physical_device =? VK_NULL_HANDLE
      then Exit "failed to find a suitable GPU!"
      else Done physical_device
  | Exit msg => Exit msg
  | Blocked => Blocked
  end.

(** ** io.c *)

Definition INT_MAX : Z := 2147483647.

(** Outcome of [read_entire_binary_file]: the returned buffer ([None] for
    a null pointer) and [*size]; an [exit(1)]; a write outside the
    allocation; an increment of [bytes_read] past [INT_MAX]. *)
Inductive read_result :=
| ReadOk (buffer : option (list Z)) (size : Z)
| ReadExit (msg : string)
| ReadOutOfBounds
| ReadOverflow.

(** The [fgetc] loop and the final [realloc]. [written] is
    [buffer[0 .. bytes_read-1]], [allocated] the size of the block [buffer]
    points to (0 for a null pointer), [buffer_size] the variable of that
    name; [realloc_ok n] tells whether [realloc(buffer, n)] succeeds in
    the loop, [shrink_ok] whether the last one does. *)
Fixpoint read_loop (realloc_ok : Z -> bool) (shrink_ok : bool) (input : list Z)
         (written : list Z) (allocated buffer_size bytes_read : Z) : read_result :=
  match input with
  | [] => ReadOk (if shrink_ok then Some written else None) bytes_read
  | c :: rest =>
      let store allocated buffer_size :=
        if (0 <=? bytes_read) && (bytes_read <? allocated) then
          if bytes_read =? INT_MAX then ReadOverflow
          else read_loop realloc_ok shrink_ok rest (written ++ [c])
                         allocated buffer_size (bytes_read + 1)
        else ReadOutOfBounds in
      if bytes_read >=? buffer_size then
        let buffer_size := buffer_size + 1024 in
        if negb (realloc_ok buffer_size) then
          ReadExit "Failed to allocate memory for file"
        else store buffer_size buffer_size
      else store allocated buffer_size
  end.

(** [malloc_ok] tells whether the first [malloc] succeeds (its result is
    not tested); [file] is [None] when [fopen] fails, else the bytes of
    the file. *)
Definition read_entire_binary_file (malloc_ok : bool) (realloc_ok : Z -> bool)
           (shrink_ok : bool) (file : option (list Z)) : read_result :=
  let buffer_size := 1024 in
  let allocated := if malloc_ok then buffer_size else 0 in
  let bytes_read := 0 in
  match file with
  | None => ReadExit "Failed to open file"
  | Some input =>
      read_loop realloc_ok shrink_ok input [] allocated buffer_size bytes_read
  end.

(** ** main.c: monsters and tiles *)

Definition TEX_MONSTERS : Z := 1.
Definition _TEX_COUNT : Z := 5.
Definition NUM_MONSTERS : Z := 1000.

Definition TILESET_X_TILES : Z := 3.
Definition TILESET_Y_TILES : Z := 3.
Definition TILESET_TOTAL_TILES : Z := TILESET_X_TILES * TILESET_Y_TILES.
Definition EMPTY : Z := TILESET_TOTAL_TILES.
Definition X_TILES : Z := 32.
Definition Y_TILES : Z := 24.

(** The integer fields [create_monsters] gives vertex [idx = i * 6 + j] of
    monster [i]; [uv] and [uv2] are [uv_scale * sprite_x] and so on with
    [uv_scale = 1/4], exact in [float], kept here in quarters. *)
Record SpriteVertex := mkSpriteVertex {
  sv_idx : Z;
  sv_uv4 : Z * Z;
  sv_uv2_4 : Z * Z;
  sv_texture_index : Z;
  sv_sprite_index : Z
}.

Definition monster_texture (i : Z) : Z := TEX_MONSTERS + (i / 16) mod 4.

Definition sprite_vertex (i j : Z) : SpriteVertex :=
  let idx := i * 6 + j in
  let sprite_x := i mod 4 in
  let sprite_y := (i mod 16) / 4 in
  mkSpriteVertex idx (sprite_x, sprite_y) (sprite_x + 1, sprite_y + 1)
                 (monster_texture i) i.

(** [vertex_sprites] as the two nested loops of [create_monsters] fill it. *)
Definition create_monsters_sprites : list SpriteVertex :=
  flat_map (fun i => map (sprite_vertex i) (index_range 6)) (index_range NUM_MONSTERS).

(** The [assert]s of [create_monsters] on one vertex. *)
Definition sprite_asserts (vertex_sprites_count : Z) (v : SpriteVertex) : Prop :=
  sv_texture_index v < _TEX_COUNT
  /\ sv_texture_index v >= TEX_MONSTERS
  /\ sv_idx v < vertex_sprites_count
  /\ 0 <= fst (sv_uv4 v) <= 4 /\ 0 <= snd (sv_uv4 v) <= 4
  /\ 0 <= fst (sv_uv2_4 v) <= 4 /\ 0 <= snd (sv_uv2_4 v) <= 4.

Definition get_tile_index (x y : Z) : Z := x + y * X_TILES.

(** The value [create_tiles] stores for cell (x, y): edge cells get tile 0;
    [interior x y] is what the random branch produced for another cell,
    [EMPTY] or a tile number; the store narrows it to [uint8_t]. *)
Definition tile_value (interior : Z -> Z -> Z) (x y : Z) : Z :=
  if (x =? 0) || (x =? X_TILES - 1) || (y =? 0) || (y =? Y_TILES - 1) then 0
  else interior x y mod 256.

(** The first loop of [create_tiles], rows from the top down: the cells it
    visits, in order. *)
Definition cells_row_major : list (Z * Z) :=
  flat_map (fun y => map (fun x => (x, y)) (index_range X_TILES))
           (rev (index_range Y_TILES)).

(** The mesh loop of [create_tiles], column by column. *)
Definition cells_column_major : list (Z * Z) :=
  flat_map (fun x => map (fun y => (x, y)) (index_range Y_TILES))
           (index_range X_TILES).

(** The [tiles] array, as a map from index to value, and [num_tiles]. One
    step of the first loop stores the cell's value and counts it when it
    is not [EMPTY]. *)
Definition store_tile (interior : Z -> Z -> Z) (state : (Z -> Z) * Z)
           (cell : Z * Z) : (Z -> Z) * Z :=
  let '(tiles, num_tiles) := state in
  let '(x, y) := cell in
  let idx := get_tile_index x y in
  let tiles := fun k => if k =? idx then tile_value interior x y else tiles k in
  (tiles, if negb (tiles idx =? EMPTY) then num_tiles + 1 else num_tiles).

Definition generate_tiles (interior : Z -> Z -> Z) : (Z -> Z) * Z :=
  fold_left (store_tile interior) cells_row_major (fun _ => 0, 0).

(** A tile vertex: the position (small integers, exact in [float]) and the
    texture coordinate in units of 1/TILESET_X_TILES and 1/TILESET_Y_TILES
    (the source computes the [float] quotient). *)
Record TileVertex := mkTileVertex {
  tv_x : Z;
  tv_y : Z;
  tv_u3 : Z;
  tv_v3 : Z
}.

(** One step of the mesh loop on [vertices] and [vertex_indices]; indices
    are stored as [uint16_t]. *)
Definition add_tile (tiles : Z -> Z) (mesh : list TileVertex * list Z)
           (cell : Z * Z) : list TileVertex * list Z :=
  let '(vertices, vertex_indices) := mesh in
  let '(x, y) := cell in
  let idx := get_tile_index x y in
  if tiles idx =? EMPTY then mesh
  else
    let tileset_idx := tiles idx in
    let tileset_x := tileset_idx mod TILESET_X_TILES in
    let tileset_y := tileset_idx / TILESET_X_TILES in
    let vertices :=
      vertices ++ [mkTileVertex x y tileset_x (tileset_y + 1);
                   mkTileVertex (x + 1) y (tileset_x + 1) (tileset_y + 1);
                   mkTileVertex (x + 1) (y + 1) (tileset_x + 1) tileset_y;
                   mkTileVertex x (y + 1) tileset_x tileset_y] in
    let vertex_idx := Z.of_nat (List.length vertices) in
    let u16 v := v mod 65536 in
    (vertices,
     vertex_indices ++ [u16 (vertex_idx - 4); u16 (vertex_idx - 3); u16 (vertex_idx - 2);
                        u16 (vertex_idx - 2); u16 (vertex_idx - 1); u16 (vertex_idx - 4)]).

(** What [create_tiles] leaves: [vertices_count], [vertex_indices_count],
    [vertices] and [vertex_indices]. *)
Record TileMesh := mkTileMesh {
  vertices_count : Z;
  vertex_indices_count : Z;
  vertices : list TileVertex;
  vertex_indices : list Z
}.

Definition create_tiles (interior : Z -> Z -> Z) : TileMesh :=
  let '(tiles, num_tiles) := generate_tiles interior in
  let '(vs, ixs) := fold_left (add_tile tiles) cells_column_major ([], []) in
  mkTileMesh (num_tiles * 4) (num_tiles * 6) vs ixs.

(** ** Image layouts as the logged barriers leave them *)

(** The layout of image [img] after the barriers of a log, starting from
    [current]; [None] when a barrier names an old layout the image is not
    in. *)
Fixpoint track_layout (img : Z) (l : list Call) (current : Z) : option Z :=
  match l with
  | [] => Some current
  | vkCmdPipelineBarrier _ i old_layout new_layout :: rest =>
      if i =? img then
        if old_layout =? current then track_layout img rest new_layout else None
      else track_layout img rest current
  | vkCmdPipelineBarrier2 _ b :: rest =>
      if barrier_image b =? img then
        if oldLayout b =? current then track_layout img rest (newLayout b) else None
      else track_layout img rest current
  | _ :: rest => track_layout img rest current
  end.

(** ** Successive frames *)

(** Calls of [draw_frame] by successive iterations of the main loop in
    which no F11 key press sets [framebuffer_resized]. *)
Fixpoint draw_frames (drv : Driver) (answers : list FrameAnswers) : M unit :=
  match answers with
  | [] => ret tt
  | ans :: rest => draw_frame drv ans ;;; draw_frames drv rest
  end.

(** Between frames: two fences, none reset without a submission, the
    frame counter on one of the two slots. *)
Definition frame_ready (w : World) : Prop :=
  List.length (in_flight_fences w) = 2%nat
  /\ Forall (fun f => f <> FenceUnsignaled) (in_flight_fences w)
  /\ 0 <= current_frame w < VKX_FRAMES_IN_FLIGHT.

(** Driver answers with which a frame is drawn: the acquire and present
    results are success or suboptimal, the other calls succeed. *)
Definition frame_drawn (ans : FrameAnswers) : Prop :=
  (ans_acquire ans = VK_SUCCESS \/ ans_acquire ans = VK_SUBOPTIMAL_KHR)
  /\ ans_begin ans = VK_SUCCESS
  /\ ans_end ans = VK_SUCCESS
  /\ ans_submit ans = VK_SUCCESS
  /\ (ans_present ans = VK_SUCCESS \/ ans_present ans = VK_SUBOPTIMAL_KHR).

(** ** Statements about devices and queue families *)

(** Family [n] of the list can do graphics; can present to the surface. *)
Definition graphics_capable (families : list QueueFamily) (n : nat) : Prop :=
  exists f, nth_error families n = Some f /\ Z.testbit (queueFlags f) 0 = true.

Definition present_capable (families : list QueueFamily) (n : nat) : Prop :=
  exists f, nth_error families n = Some f /\ present_support f = true.

(** What [vkx_pick_physical_device] asks of a device. *)
Definition eligible (d : PhysicalDevice) : Prop :=
  (forall e, In e device_extensions -> In e (pd_extensions d))
  /\ pd_samplerAnisotropy d = true
  /\ (exists n, graphics_capable (pd_queue_families d) n)
  /\ (exists n, present_capable (pd_queue_families d) n)
  /\ formats (pd_swap_chain_support d) <> []
  /\ present_modes (pd_swap_chain_support d) <> [].

(** The features the driver reports for [candidate] under [tiling] include
    all of [features]. *)
Definition format_has_features (drv : Driver) (tiling features candidate : Z) : Prop :=
  (tiling = VK_IMAGE_TILING_LINEAR
   /\ flags_superset (linearTilingFeatures (drv_format_properties drv candidate)) features)
  \/ (tiling = VK_IMAGE_TILING_OPTIMAL
      /\ flags_superset (optimalTilingFeatures (drv_format_properties drv candidate))
                        features).

(** The driver lets [fmt] be a depth-stencil attachment of an optimally
    tiled image. *)
Definition depth_capable (drv : Driver) (fmt : Z) : Prop :=
  format_has_features drv VK_IMAGE_TILING_OPTIMAL
                      VK_FORMAT_FEATURE_DEPTH_STENCIL_ATTACHMENT_BIT fmt.

(** ** More ways to describe what a call did *)

(** [c] leaves the part [f] of the world as it was. *)
Definition preserves {T A} (f : World -> T) (c : M A) : Prop :=
  forall w a w', c w = Done (a, w') -> f w' = f w.

(** [c] only appends calls in [P] to the log. *)
Definition logs (P : Call -> Prop) {A} (c : M A) : Prop :=
  forall w a w', c w = Done (a, w') -> exists l, logged w w' l /\ Forall P l.

(** [c] never waits for ever. *)
Definition never_blocks {A} (c : M A) : Prop :=
  forall w, c w <> Blocked.

(** Calls other than the device-idle wait of a recreation. *)
Definition not_recreation (c : Call) : Prop := c <> vkDeviceWaitIdle.

(** The calls [record_command_buffer] logs for command buffer [cb], the
    swapchain image [img] with view [v] and format [fmt], and the
    offscreen image [offscreen]. *)
Definition recorded_calls (cb img v fmt offscreen : Z) : list Call :=
  [vkBeginCommandBuffer cb;
   vkCmdPipelineBarrier2 cb
     (mkBarrier2 VK_IMAGE_LAYOUT_PRESENT_SRC_KHR VK_IMAGE_LAYOUT_COLOR_ATTACHMENT_OPTIMAL
                 img VK_IMAGE_ASPECT_COLOR_BIT
                 VK_PIPELINE_STAGE_TOP_OF_PIPE_BIT 0
                 VK_PIPELINE_STAGE_COLOR_ATTACHMENT_OUTPUT_BIT
                 VK_ACCESS_COLOR_ATTACHMENT_WRITE_BIT);
   vkCmdPipelineBarrier2 cb
     (mkBarrier2 VK_IMAGE_LAYOUT_SHADER_READ_ONLY_OPTIMAL
                 VK_IMAGE_LAYOUT_COLOR_ATTACHMENT_OPTIMAL
                 offscreen VK_IMAGE_ASPECT_COLOR_BIT
                 VK_PIPELINE_STAGE_FRAGMENT_SHADER_BIT VK_ACCESS_MEMORY_READ_BIT
                 VK_PIPELINE_STAGE_COLOR_ATTACHMENT_OUTPUT_BIT
                 VK_ACCESS_COLOR_ATTACHMENT_WRITE_BIT);
   vkCmdDrawScene cb;
   vkCmdPipelineBarrier2 cb
     (mkBarrier2 VK_IMAGE_LAYOUT_COLOR_ATTACHMENT_OPTIMAL
                 VK_IMAGE_LAYOUT_SHADER_READ_ONLY_OPTIMAL
                 offscreen VK_IMAGE_ASPECT_COLOR_BIT
                 VK_PIPELINE_STAGE_TOP_OF_PIPE_BIT 0
                 VK_PIPELINE_STAGE_COLOR_ATTACHMENT_OUTPUT_BIT VK_ACCESS_MEMORY_READ_BIT);
   vkCmdDrawScreen cb v;
   vkCmdPipelineBarrier2 cb
     (mkBarrier2 VK_IMAGE_LAYOUT_COLOR_ATTACHMENT_OPTIMAL VK_IMAGE_LAYOUT_PRESENT_SRC_KHR
                 img VK_IMAGE_ASPECT_COLOR_BIT
                 VK_PIPELINE_STAGE_COLOR_ATTACHMENT_OUTPUT_BIT
                 VK_ACCESS_COLOR_ATTACHMENT_WRITE_BIT
                 VK_PIPELINE_STAGE_BOTTOM_OF_PIPE_BIT VK_ACCESS_MEMORY_READ_BIT);
   vkEndCommandBuffer cb].

(** The swapchain has no depth image (as [main.c] creates it). *)
Definition no_depth (w : World) : Prop :=
  has_depth_image (vkx_swap_chain w) = false.

(** From a world in [I], [c] returns and leaves a world in [I]. *)
Definition returns_keeping (I : World -> Prop) {A} (c : M A) : Prop :=
  forall w, I w -> exists a w', c w = Done (a, w') /\ I w'.

(** The image indices handed to [vkQueuePresentKHR] in a log, in order. *)
Fixpoint presented (l : list Call) : list Z :=
  match l with
  | [] => []
  | vkQueuePresentKHR image_index :: rest => image_index :: presented rest
  | _ :: rest => presented rest
  end.

(** The calls of a frame between the fence reset and the present call. *)
Definition frame_calls (drv : Driver) (w : World) (frame image_index : Z) : list Call :=
  let cb := at_index (drv_command_buffers drv) frame in
  [memcpyUniforms frame; vkResetFences frame; vkResetCommandBuffer cb]
  ++ recorded_calls cb (at_index (images (vkx_swap_chain w)) image_index)
                    (at_index (image_views (vkx_swap_chain w)) image_index)
                    (image_format (vkx_swap_chain w))
                    (at_index (drv_offscreen_images drv) (current_frame w))
  ++ [vkQueueSubmit cb (Some frame); vkQueuePresentKHR image_index].

(** ** The tile map as [create_tiles] sees it *)

(** Cell [cell] holds a tile in [tiles]. *)
Definition occupied (tiles : Z -> Z) (cell : Z * Z) : bool :=
  negb (tiles (get_tile_index (fst cell) (snd cell)) =? EMPTY).

Definition in_grid (cell : Z * Z) : Prop :=
  0 <= fst cell < X_TILES /\ 0 <= snd cell < Y_TILES.

(** The six indices of the two triangles of quad [k]: bottom left, bottom
    right, top right; top right, top left, bottom left. *)
Definition quad_indices (k : Z) : list Z :=
  [4 * k; 4 * k + 1; 4 * k + 2; 4 * k + 2; 4 * k + 3; 4 * k].

(** * Properties *)

(** ** Loops over an index range *)

Lemma find_seq_some (p : Z -> bool) (len start : nat) (i : Z) :
  find p (map Z.of_nat (seq start len)) = Some i ->
  Z.of_nat start <= i < Z.of_nat (start + len)
  /\ p i = true
  /\ forall j, Z.of_nat start <= j < i -> p j = false.
Proof.
  revert start. induction len as [|len IH]; intros start; simpl.
  - discriminate.
  - destruct (p (Z.of_nat start)) eqn:Hp.
    + intros [= <-]. repeat split; try lia; auto.
    + intros Hf. destruct (IH _ Hf) as (Hr & Hi & Hlow).
      repeat split; try lia; auto.
      intros j Hj. destruct (Z.eq_dec j (Z.of_nat start)) as [->|Hne]; auto.
      apply Hlow. lia.
Qed.

Lemma find_seq_none (p : Z -> bool) (len start : nat) :
  find p (map Z.of_nat (seq start len)) = None ->
  forall j, Z.of_nat start <= j < Z.of_nat (start + len) -> p j = false.
Proof.
  intros Hf j Hj. apply (find_none _ _ Hf).
  apply in_map_iff. exists (Z.to_nat j). split; [lia|].
  apply in_seq. lia.
Qed.

Lemma find_index_range_some (p : Z -> bool) (n i : Z) :
  find p (index_range n) = Some i ->
  0 <= i < n /\ p i = true /\ forall j, 0 <= j < i -> p j = false.
Proof.
  unfold index_range. intros Hf.
  destruct (find_seq_some _ _ _ _ Hf) as (Hr & Hi & Hlow).
  repeat split; try lia; auto.
Qed.

Lemma find_index_range_none (p : Z -> bool) (n : Z) :
  find p (index_range n) = None -> forall j, 0 <= j < n -> p j = false.
Proof.
  unfold index_range. intros Hf j Hj.
  apply (find_seq_none _ _ _ Hf). lia.
Qed.

(** ** Bit masks *)

Lemma wrap32_small (x : Z) : 0 <= x < 2 ^ 32 -> wrap32 x = x.
Proof. intros H. unfold wrap32. apply Z.mod_small. exact H. Qed.

Lemma shift_bit_32 (i : Z) : 0 <= i < 32 -> wrap32 (Z.shiftl 1 i) = 2 ^ i.
Proof.
  intros Hi. rewrite Z.shiftl_1_l. apply wrap32_small. split.
  - apply Z.pow_nonneg. lia.
  - apply Z.pow_lt_mono_r; lia.
Qed.

Lemma land_single_bit (a i : Z) :
  0 <= i -> (negb (Z.land a (2 ^ i) =? 0) = Z.testbit a i).
Proof.
  intros Hi. destruct (Z.testbit a i) eqn:Hb.
  - apply negb_true_iff, Z.eqb_neq. intros H0.
    assert (Hbit : Z.testbit (Z.land a (2 ^ i)) i = true).
    { rewrite Z.land_spec, Hb, Z.pow2_bits_eqb, Z.eqb_refl by lia. reflexivity. }
    rewrite H0, Z.bits_0 in Hbit. discriminate.
  - apply negb_false_iff, Z.eqb_eq. apply Z.bits_inj'. intros n Hn.
    rewrite Z.land_spec, Z.bits_0, Z.pow2_bits_eqb by lia.
    destruct (Z.eqb_spec i n) as [->|]; [rewrite Hb|]; auto using andb_false_r.
Qed.

Lemma land_superset (flags requested : Z) :
  (Z.land flags requested =? requested) = true <-> flags_superset flags requested.
Proof.
  rewrite Z.eqb_eq. unfold flags_superset. split.
  - intros H n Hn Hr. rewrite <- H, Z.land_spec in Hr.
    apply andb_true_iff in Hr. tauto.
  - intros H. apply Z.bits_inj'. intros n Hn. rewrite Z.land_spec.
    destruct (Z.testbit requested n) eqn:Hr; [|apply andb_false_r].
    rewrite (H n Hn Hr). reflexivity.
Qed.

Lemma memory_type_matches_iff (mp : VkPhysicalDeviceMemoryProperties)
      (type_filter properties i : Z) :
  memoryTypeCount mp <= 32 -> 0 <= i < memoryTypeCount mp ->
  memory_type_matches mp type_filter properties i = true
  <-> suitable_memory_type mp type_filter properties i.
Proof.
  intros Hn Hi. unfold memory_type_matches, suitable_memory_type.
  rewrite shift_bit_32, land_single_bit by lia.
  rewrite andb_true_iff, land_superset. tauto.
Qed.

(** C5. [vkx_find_memory_type] returns the lowest index whose bit is set in
    the mask and whose property flags include every requested flag, and
    leaves the world alone; when no index qualifies it takes the
    [failed to find suitable memory type!] exit. The device reports at
    most 32 memory types (the size of the [memoryTypes] array). *)
Theorem vkx_find_memory_type_lowest_match
        (drv : Driver) (type_filter properties : Z) (w : World) :
  memoryTypeCount (drv_mem_properties drv) <= 32 ->
  let suitable := suitable_memory_type (drv_mem_properties drv) type_filter properties in
  ((exists i, suitable i) ->
   exists m, vkx_find_memory_type drv type_filter properties w = Done (m, w)
             /\ suitable m /\ forall j, suitable j -> m <= j)
  /\ ((forall i, ~ suitable i) ->
      vkx_find_memory_type drv type_filter properties w
      = Exit "failed to find suitable memory type!").
Proof.
  intros Hn suitable. unfold vkx_find_memory_type. cbv zeta.
  set (mp := drv_mem_properties drv) in *.
  destruct (find (memory_type_matches mp type_filter properties)
                 (index_range (memoryTypeCount mp))) as [m|] eqn:Hf.
  - destruct (find_index_range_some _ _ _ Hf) as (Hm & Hp & Hlow).
    apply memory_type_matches_iff in Hp; auto.
    split.
    + intros _. exists m. split; [reflexivity|]. split; [exact Hp|].
      intros j Hj. destruct (Z_le_gt_dec m j) as [|Hlt]; auto.
      assert (Hj' := Hj). destruct Hj' as (Hjr & _).
      apply memory_type_matches_iff in Hj; auto.
      rewrite Hlow in Hj by lia. discriminate.
    + intros Hnone. destruct (Hnone m Hp).
  - split.
    + intros (i & Hi). assert (Hi' := Hi). destruct Hi' as (Hir & _).
      apply memory_type_matches_iff in Hi; auto.
      rewrite (find_index_range_none _ _ Hf) in Hi by lia. discriminate.
    + reflexivity.
Qed.

Lemma vkx_find_memory_type_lowest_match_witness :
  memoryTypeCount (drv_mem_properties example_driver) <= 32
  /\ exists m,
       vkx_find_memory_type example_driver 6 VK_MEMORY_PROPERTY_DEVICE_LOCAL_BIT
         (example_world false false 0)
       = Done (m, example_world false false 0)
       /\ suitable_memory_type example_memory 6 VK_MEMORY_PROPERTY_DEVICE_LOCAL_BIT m
       /\ forall j,
            suitable_memory_type example_memory 6 VK_MEMORY_PROPERTY_DEVICE_LOCAL_BIT j ->
            m <= j.
Proof.
  split; [vm_compute; discriminate|].
  apply (vkx_find_memory_type_lowest_match example_driver 6
           VK_MEMORY_PROPERTY_DEVICE_LOCAL_BIT (example_world false false 0)).
  - vm_compute; discriminate.
  - exists 1. split; [simpl; lia|].
    split; [reflexivity|]. intros n _ Hn. exact Hn.
Defined.

(** ** Cleanup of buffers and images *)

Lemma vkx_cleanup_buffer_run (b : VkxBuffer) (w : World) :
  exists w',
    vkx_cleanup_buffer b w = Done (mkVkxBuffer VK_NULL_HANDLE VK_NULL_HANDLE, w')
    /\ vkx_swap_chain w' = vkx_swap_chain w /\ frame_eq w w'
    /\ logged w w' [vkDestroyBuffer (buffer b); vkFreeMemory (buffer_memory b)].
Proof.
  eexists. split; [reflexivity|]. unfold frame_eq, logged. simpl.
  rewrite <- app_assoc. repeat split; reflexivity.
Qed.

Lemma vkx_cleanup_image_run (i : VkxImage) (w : World) :
  exists w',
    vkx_cleanup_image i w
    = Done (mkVkxImage VK_NULL_HANDLE VK_NULL_HANDLE VK_NULL_HANDLE, w')
    /\ vkx_swap_chain w' = vkx_swap_chain w /\ frame_eq w w'
    /\ logged w w'
         ((if view i =? VK_NULL_HANDLE then [] else [vkDestroyImageView (view i)])
            ++ [vkDestroyImage (image i); vkFreeMemory (image_memory i)]).
Proof.
  unfold vkx_cleanup_image, when, bind, call, ret.
  destruct (view i =? VK_NULL_HANDLE); simpl;
    (eexists; split; [reflexivity|]); unfold frame_eq, logged; simpl;
    rewrite <- ?app_assoc; repeat split; reflexivity.
Qed.

(** C9. [vkx_cleanup_buffer] destroys the buffer and frees its memory, in
    that order and nothing else, and both handles are null afterwards;
    [vkx_cleanup_image] destroys the view first when, and only when, it is
    not null, then the image and its memory, and all three handles are
    null afterwards. *)
Theorem cleanup_destroys_and_nulls (b : VkxBuffer) (i : VkxImage) (w : World) :
  (exists b' w',
      vkx_cleanup_buffer b w = Done (b', w')
      /\ buffer b' = VK_NULL_HANDLE /\ buffer_memory b' = VK_NULL_HANDLE
      /\ logged w w' [vkDestroyBuffer (buffer b); vkFreeMemory (buffer_memory b)])
  /\ (exists i' w',
         vkx_cleanup_image i w = Done (i', w')
         /\ image i' = VK_NULL_HANDLE /\ image_memory i' = VK_NULL_HANDLE
         /\ view i' = VK_NULL_HANDLE
         /\ logged w w'
              ((if view i =? VK_NULL_HANDLE then [] else [vkDestroyImageView (view i)])
                 ++ [vkDestroyImage (image i); vkFreeMemory (image_memory i)])).
Proof.
  split.
  - destruct (vkx_cleanup_buffer_run b w) as (w' & Hrun & _ & _ & Hl).
    eexists. exists w'. split; [exact Hrun|]. simpl. auto.
  - destruct (vkx_cleanup_image_run i w) as (w' & Hrun & _ & _ & Hl).
    eexists. exists w'. split; [exact Hrun|]. simpl. auto.
Qed.

(** ** Image layout transitions *)

Lemma transition_masks_some (old_layout new_layout : Z) :
  (exists m, transition_masks old_layout new_layout = Some m)
  <-> In (old_layout, new_layout) supported_transitions.
Proof.
  split.
  - intros (m & Hm). unfold transition_masks in Hm.
    repeat match type of Hm with
           | (if ?c then _ else _) = _ =>
               let Hc := fresh "Hc" in
               destruct c eqn:Hc;
               [ apply andb_true_iff in Hc; destruct Hc as (Ho & Hn);
                 apply Z.eqb_eq in Ho; apply Z.eqb_eq in Hn; subst;
                 simpl; tauto
               | clear Hc ]
           end.
    discriminate.
  - unfold supported_transitions. simpl.
    intros H; repeat destruct H as [H|H]; try contradiction;
      injection H as <- <-; eexists; reflexivity.
Qed.

Lemma transition_masks_none (old_layout new_layout : Z) :
  transition_masks old_layout new_layout = None
  <-> ~ In (old_layout, new_layout) supported_transitions.
Proof.
  rewrite <- transition_masks_some.
  destruct (transition_masks old_layout new_layout) as [m|]; split.
  - discriminate.
  - intros H. exfalso. apply H. eauto.
  - intros _ (m & Hm). discriminate.
  - reflexivity.
Qed.

(** C10. [vkx_transition_image_layout] records a barrier exactly for the
    eight listed (old, new) layout pairs and takes the
    [Unsupported layout transition] exit exactly for every other pair. *)
Theorem vkx_transition_image_layout_supported_iff
        (command_buffer img fmt old_layout new_layout : Z) (w : World) :
  ((exists b,
       vkx_transition_image_layout command_buffer img fmt old_layout new_layout w
       = Done (tt, with_call (vkCmdPipelineBarrier2 command_buffer b) w)
       /\ oldLayout b = old_layout /\ newLayout b = new_layout
       /\ barrier_image b = img)
   <-> In (old_layout, new_layout) supported_transitions)
  /\ (vkx_transition_image_layout command_buffer img fmt old_layout new_layout w
      = Exit "Unsupported layout transition"
      <-> ~ In (old_layout, new_layout) supported_transitions)
  /\ List.length supported_transitions = 8%nat
  /\ NoDup supported_transitions.
Proof.
  unfold vkx_transition_image_layout.
  split; [|split; [|split]].
  - rewrite <- transition_masks_some.
    destruct (transition_masks old_layout new_layout) as [[[[a b] c] d]|]; split.
    + eauto.
    + intros _. eexists. split; [reflexivity|]. simpl. auto.
    + intros (b & Hb & _). discriminate.
    + intros (m & Hm). discriminate.
  - rewrite <- transition_masks_none.
    destruct (transition_masks old_layout new_layout) as [[[[a b] c] d]|]; split;
      try discriminate; reflexivity.
  - reflexivity.
  - unfold supported_transitions.
    repeat (apply NoDup_cons;
            [simpl; intros H; repeat destruct H as [H|H];
             try discriminate; contradiction|]).
    apply NoDup_nil.
Qed.

(** ** Swapchain parameters *)

Lemma choose_image_count_spec (caps : VkSurfaceCapabilitiesKHR) :
  0 <= maxImageCount caps ->
  choose_image_count caps
  = if maxImageCount caps =? 0 then wrap32 (minImageCount caps + 1)
    else Z.min (wrap32 (minImageCount caps + 1)) (maxImageCount caps).
Proof.
  intros Hmax. unfold choose_image_count. cbv zeta.
  destruct (Z.eqb_spec (maxImageCount caps) 0) as [->|Hne].
  - reflexivity.
  - destruct (Z.gtb_spec (maxImageCount caps) 0); [|lia].
    destruct (Z.gtb_spec (wrap32 (minImageCount caps + 1)) (maxImageCount caps));
      simpl; lia.
Qed.

(** ** Reasoning about sequenced calls *)

Lemma bind_Done {A B} (c : M A) (k : A -> M B) (w : World) (b : B) (w' : World) :
  bind c k w = Done (b, w') ->
  exists a w1, c w = Done (a, w1) /\ k a w1 = Done (b, w').
Proof.
  unfold bind. destruct (c w) as [[a w1]| |]; try discriminate. eauto.
Qed.

Lemma frame_eq_refl (w : World) : frame_eq w w.
Proof. unfold frame_eq. auto. Qed.

Lemma frame_eq_trans (w1 w2 w3 : World) :
  frame_eq w1 w2 -> frame_eq w2 w3 -> frame_eq w1 w3.
Proof. unfold frame_eq. intuition congruence. Qed.

Lemma logged_refl (w : World) : logged w w [].
Proof. unfold logged. now rewrite app_nil_r. Qed.

Lemma logged_trans (w1 w2 w3 : World) (l1 l2 : list Call) :
  logged w1 w2 l1 -> logged w2 w3 l2 -> logged w1 w3 (l1 ++ l2).
Proof. unfold logged. intros H1 H2. now rewrite H2, H1, app_assoc. Qed.

Lemma logged_inj (w w' : World) (l1 l2 : list Call) :
  logged w w' l1 -> logged w w' l2 -> l1 = l2.
Proof. unfold logged. intros H1 H2. rewrite H1 in H2. eapply app_inv_head, H2. Qed.

Section Sequencing.
Variable P : Call -> Prop.

Lemma silent_emits {A} (c : M A) : silent P c -> emits P c.
Proof. intros H w a w' Hc. apply H in Hc. tauto. Qed.

Lemma silent_ret {A} (a : A) : silent P (ret a).
Proof.
  intros w a' w' [= <- <-]. split; [reflexivity|]. split; [apply frame_eq_refl|].
  exists []. split; [apply logged_refl|constructor].
Qed.

Lemma silent_exit {A} (msg : string) : silent P (@exit A msg).
Proof. intros w a w' [=]. Qed.

Lemma silent_call (c : Call) : P c -> silent P (call c).
Proof.
  intros Hc w a w' [= <- <-]. split; [reflexivity|].
  split; [repeat split; reflexivity|].
  exists [c]. split; [reflexivity|]. constructor; auto.
Qed.

Lemma silent_bind {A B} (c : M A) (k : A -> M B) :
  silent P c -> (forall a, silent P (k a)) -> silent P (bind c k).
Proof.
  intros Hc Hk w b w' Hb. apply bind_Done in Hb. destruct Hb as (a & w1 & H1 & H2).
  apply Hc in H1. apply Hk in H2.
  destruct H1 as (Hs1 & Hf1 & l1 & Hl1 & HP1).
  destruct H2 as (Hs2 & Hf2 & l2 & Hl2 & HP2).
  split; [congruence|]. split; [eapply frame_eq_trans; eauto|].
  exists (l1 ++ l2). split; [eapply logged_trans; eauto|].
  apply Forall_app. auto.
Qed.

Lemma emits_bind {A B} (c : M A) (k : A -> M B) :
  emits P c -> (forall a, emits P (k a)) -> emits P (bind c k).
Proof.
  intros Hc Hk w b w' Hb. apply bind_Done in Hb. destruct Hb as (a & w1 & H1 & H2).
  apply Hc in H1. apply Hk in H2.
  destruct H1 as (Hf1 & l1 & Hl1 & HP1).
  destruct H2 as (Hf2 & l2 & Hl2 & HP2).
  split; [eapply frame_eq_trans; eauto|].
  exists (l1 ++ l2). split; [eapply logged_trans; eauto|].
  apply Forall_app. auto.
Qed.

Lemma silent_when (b : bool) (c : M unit) : silent P c -> silent P (when b c).
Proof. destruct b; simpl; auto using silent_ret. Qed.

Lemma emits_when (b : bool) (c : M unit) : emits P c -> emits P (when b c).
Proof. destruct b; simpl; auto using silent_emits, silent_ret. Qed.

Lemma silent_check (result : Z) (msg : string) : silent P (check result msg).
Proof.
  unfold check. destruct (negb (result =? VK_SUCCESS));
    auto using silent_ret, silent_exit.
Qed.

Lemma silent_for_each {A} (l : list A) (body : A -> M unit) :
  (forall x, silent P (body x)) -> silent P (for_each l body).
Proof.
  intros Hb. induction l as [|x l IH]; simpl.
  - apply silent_ret.
  - apply silent_bind; auto.
Qed.

Lemma silent_map_m {A B} (l : list A) (body : A -> M B) :
  (forall x, silent P (body x)) -> silent P (map_m l body).
Proof.
  intros Hb. induction l as [|x l IH]; simpl.
  - apply silent_ret.
  - apply silent_bind; auto. intros y.
    apply silent_bind; auto. intros ys. apply silent_ret.
Qed.

Lemma silent_get_swap_chain : silent P get_swap_chain.
Proof.
  intros w a w' [= <- <-]. split; [reflexivity|]. split; [apply frame_eq_refl|].
  exists []. split; [apply logged_refl|constructor].
Qed.

Lemma silent_get_current_frame : silent P get_current_frame.
Proof.
  intros w a w' [= <- <-]. split; [reflexivity|]. split; [apply frame_eq_refl|].
  exists []. split; [apply logged_refl|constructor].
Qed.

Lemma emits_modify_swap_chain (f : VkxSwapChain -> VkxSwapChain) :
  emits P (modify_swap_chain f).
Proof.
  intros w a w' [= <- <-]. split; [repeat split; reflexivity|].
  exists []. split; [unfold logged; simpl; now rewrite app_nil_r|constructor].
Qed.
End Sequencing.

Section SwapChainProperty.
Variable Q : VkxSwapChain -> Prop.

Lemma maintains_silent {A} (P : Call -> Prop) (c : M A) : silent P c -> maintains Q c.
Proof. intros H w a w' Hc HQ. apply H in Hc. destruct Hc as (-> & _). exact HQ. Qed.

Lemma maintains_bind {A B} (c : M A) (k : A -> M B) :
  maintains Q c -> (forall a, maintains Q (k a)) -> maintains Q (bind c k).
Proof.
  intros Hc Hk w b w' Hb HQ. apply bind_Done in Hb.
  destruct Hb as (a & w1 & H1 & H2). eapply Hk; eauto.
Qed.

Lemma maintains_modify (f : VkxSwapChain -> VkxSwapChain) :
  (forall sc, Q sc -> Q (f sc)) -> maintains Q (modify_swap_chain f).
Proof. intros Hf w a w' [= <- <-] HQ. simpl. auto. Qed.

Lemma maintains_when (b : bool) (c : M unit) : maintains Q c -> maintains Q (when b c).
Proof. destruct b; simpl; auto. intros _ w a w' [= <- <-]. auto. Qed.

Lemma establishes_modify (f : VkxSwapChain -> VkxSwapChain) :
  (forall sc, Q (f sc)) -> establishes Q (modify_swap_chain f).
Proof. intros Hf w a w' [= <- <-]. simpl. auto. Qed.

Lemma establishes_then {A B} (c : M A) (k : A -> M B) :
  establishes Q c -> (forall a, maintains Q (k a)) -> establishes Q (bind c k).
Proof.
  intros Hc Hk w b w' Hb. apply bind_Done in Hb.
  destruct Hb as (a & w1 & H1 & H2). eapply Hk; eauto.
Qed.

Lemma establishes_later {A B} (c : M A) (k : A -> M B) :
  (forall a, establishes Q (k a)) -> establishes Q (bind c k).
Proof.
  intros Hk w b w' Hb. apply bind_Done in Hb.
  destruct Hb as (a & w1 & H1 & H2). eapply Hk; eauto.
Qed.

Lemma establishes_exit {A} (msg : string) : establishes Q (@exit A msg).
Proof. intros w a w' [=]. Qed.
End SwapChainProperty.

(** ** What the swapchain functions log and touch *)

Create HintDb quiet.

Ltac setup_ok := split; [discriminate | exact I].

Ltac quiet :=
  repeat first
    [ solve [auto with quiet]
    | apply silent_ret | apply silent_exit | apply silent_check
    | apply silent_get_swap_chain | apply silent_get_current_frame
    | apply silent_call; setup_ok
    | apply silent_bind; [|intros ?]
    | apply silent_when
    | apply silent_for_each; intros ?
    | apply silent_map_m; intros ?
    | match goal with
      | |- silent _ (if ?c then _ else _) => destruct c
      | |- silent _ (match ?x with _ => _ end) => destruct x
      end ].

Ltac loud :=
  repeat first
    [ solve [auto with quiet]
    | apply silent_emits; solve [quiet]
    | apply emits_modify_swap_chain
    | apply emits_bind; [|intros ?]
    | apply emits_when
    | match goal with
      | |- emits _ (if ?c then _ else _) => destruct c
      | |- emits _ (match ?x with _ => _ end) => destruct x
      end ].

Ltac keeps :=
  repeat first
    [ apply (maintains_silent _ setup_call); solve [quiet]
    | apply maintains_modify; intros ? ?; simpl; assumption
    | apply maintains_bind; [|intros ?]
    | apply maintains_when
    | match goal with
      | |- maintains _ (if ?c then _ else _) => destruct c
      | |- maintains _ (match ?x with _ => _ end) => destruct x
      end ].

Section Quiet.
Variable drv : Driver.

Lemma silent_vkx_find_memory_type (type_filter properties : Z) :
  silent setup_call (vkx_find_memory_type drv type_filter properties).
Proof. unfold vkx_find_memory_type. cbv zeta. quiet. Qed.
Hint Resolve silent_vkx_find_memory_type : quiet.

Lemma silent_vkx_create_image_view (img fmt aspect : Z) :
  silent setup_call (vkx_create_image_view drv img fmt aspect).
Proof. unfold vkx_create_image_view. quiet. Qed.
Hint Resolve silent_vkx_create_image_view : quiet.

Lemma silent_vkx_create_image (w h fmt tiling usage properties : Z) :
  silent setup_call (vkx_create_image drv w h fmt tiling usage properties).
Proof. unfold vkx_create_image. quiet. Qed.
Hint Resolve silent_vkx_create_image : quiet.

Lemma silent_vkx_transition_image_layout (cb img fmt old_layout new_layout : Z) :
  silent setup_call (vkx_transition_image_layout cb img fmt old_layout new_layout).
Proof. unfold vkx_transition_image_layout. quiet. Qed.
Hint Resolve silent_vkx_transition_image_layout : quiet.

Lemma silent_vkx_transition_image_layout_tmp_buffer (img fmt old_layout new_layout : Z) :
  silent setup_call
         (vkx_transition_image_layout_tmp_buffer drv img fmt old_layout new_layout).
Proof.
  unfold vkx_transition_image_layout_tmp_buffer, vkx_begin_single_time_commands,
    vkx_end_single_time_commands.
  quiet.
Qed.
Hint Resolve silent_vkx_transition_image_layout_tmp_buffer : quiet.

Lemma silent_vkx_find_depth_format : silent setup_call (vkx_find_depth_format drv).
Proof. unfold vkx_find_depth_format, vkx_find_supported_format. quiet. Qed.
Hint Resolve silent_vkx_find_depth_format : quiet.

Lemma silent_vkx_cleanup_image (i : VkxImage) : silent setup_call (vkx_cleanup_image i).
Proof. unfold vkx_cleanup_image. quiet. Qed.
Hint Resolve silent_vkx_cleanup_image : quiet.

Lemma emits_create_depth_resources : emits setup_call (create_depth_resources drv).
Proof. unfold create_depth_resources. loud. Qed.
Hint Resolve emits_create_depth_resources : quiet.

Lemma emits_vkx_create_swap_chain (create_depth_image : bool) :
  emits setup_call (vkx_create_swap_chain drv create_depth_image).
Proof. unfold vkx_create_swap_chain. cbv zeta. loud. Qed.

Lemma emits_vkx_cleanup_swap_chain : emits setup_call vkx_cleanup_swap_chain.
Proof. unfold vkx_cleanup_swap_chain. loud. Qed.

Lemma vkx_recreate_swap_chain_log (w w' : World) :
  vkx_recreate_swap_chain drv w = Done (tt, w') ->
  frame_eq w w'
  /\ exists l, logged w w' (vkDeviceWaitIdle :: l) /\ Forall setup_call l.
Proof.
  unfold vkx_recreate_swap_chain. intros H.
  apply bind_Done in H. destruct H as ([] & w1 & H1 & H).
  injection H1 as <-.
  assert (He : emits setup_call
                 (vkx_cleanup_swap_chain ;;;
                  sc <- get_swap_chain ;; vkx_create_swap_chain drv (has_depth_image sc))).
  { apply emits_bind; [apply emits_vkx_cleanup_swap_chain|intros _].
    apply emits_bind; [apply silent_emits, silent_get_swap_chain|intros sc].
    apply emits_vkx_create_swap_chain. }
  apply He in H. destruct H as (Hf & l & Hl & HP).
  split; [exact Hf|]. exists l. split; [|exact HP].
  unfold logged in *. simpl in Hl. rewrite Hl, <- app_assoc. reflexivity.
Qed.
End Quiet.

Lemma recreations_setup (l : list Call) : Forall setup_call l -> recreations l = 0%nat.
Proof.
  induction 1 as [|c l Hc _ IH]; simpl; auto.
  destruct c; auto. destruct Hc as (Hne & _). congruence.
Qed.

Lemma recreations_app (l1 l2 : list Call) :
  recreations (l1 ++ l2) = (recreations l1 + recreations l2)%nat.
Proof.
  induction l1 as [|c l1 IH]; simpl; auto. destruct c; simpl; auto.
Qed.

#[local] Hint Resolve silent_vkx_find_memory_type silent_vkx_create_image_view
  silent_vkx_create_image silent_vkx_transition_image_layout
  silent_vkx_transition_image_layout_tmp_buffer silent_vkx_find_depth_format
  silent_vkx_cleanup_image emits_create_depth_resources : quiet.

(** ** What swapchain creation leaves in [vkx_swap_chain] *)

Ltac sets :=
  repeat first
    [ apply establishes_exit
    | apply establishes_then;
      [ apply establishes_modify; intros ?; reflexivity
      | intros ?; solve [keeps] ]
    | apply establishes_later; intros ?
    | match goal with
      | |- establishes _ (if ?c then _ else _) => destruct c
      | |- establishes _ (match ?x with _ => _ end) => destruct x
      end ].

Section Creation.
Variable drv : Driver.

Let support := drv_swap_chain_support drv.
Let ext := vkx_choose_swap_extent (drv_window_size drv) (capabilities support).
Let info := swap_chain_create_info support (drv_queue_families drv) ext.

Lemma maintains_create_depth_resources (Q : VkxSwapChain -> Prop) :
  (forall d sc, Q sc -> Q (set_depth_image d sc)) ->
  maintains Q (create_depth_resources drv).
Proof.
  intros HQ. unfold create_depth_resources.
  repeat first
    [ apply (maintains_silent _ setup_call); solve [quiet]
    | apply maintains_modify; intros ? ?; apply HQ; assumption
    | apply maintains_bind; [|intros ?] ].
Qed.

Lemma create_sets_extent (d : bool) :
  establishes (fun sc => extent sc = ext) (vkx_create_swap_chain drv d).
Proof.
  unfold vkx_create_swap_chain. cbv zeta.
  pose proof (maintains_create_depth_resources (fun sc => extent sc = ext)) as Hd.
  sets.
Qed.

Lemma create_sets_image_format (d : bool) :
  establishes (fun sc => image_format sc = format (choose_surface_format (formats support)))
              (vkx_create_swap_chain drv d).
Proof. unfold vkx_create_swap_chain. cbv zeta. sets. Qed.

Lemma create_sets_has_depth_image (d : bool) :
  establishes (fun sc => has_depth_image sc = d) (vkx_create_swap_chain drv d).
Proof. unfold vkx_create_swap_chain. cbv zeta. sets. Qed.

Lemma create_sets_images (d : bool) :
  establishes
    (fun sc => images sc
               = drv_vkGetSwapchainImagesKHR drv (snd (drv_vkCreateSwapchainKHR drv info)))
    (vkx_create_swap_chain drv d).
Proof.
  unfold vkx_create_swap_chain, info, ext, support. cbv zeta. sets.
Qed.

Lemma create_needs_formats_and_modes (d : bool) (w w' : World) :
  vkx_create_swap_chain drv d w = Done (tt, w') ->
  formats support <> [] /\ present_modes support <> [].
Proof.
  unfold vkx_create_swap_chain, formats_count, present_modes_count. fold support.
  destruct (formats support); [discriminate|].
  destruct (present_modes support); [discriminate|].
  intros _. split; discriminate.
Qed.

Lemma create_logs_request (d : bool) (w w' : World) :
  vkx_create_swap_chain drv d w = Done (tt, w') ->
  frame_eq w w'
  /\ exists l, logged w w' (vkCreateSwapchainKHR info :: l) /\ Forall setup_call l.
Proof.
  intros H. pose proof (emits_vkx_create_swap_chain drv d w tt w' H) as (Hf & _).
  split; [exact Hf|].
  unfold vkx_create_swap_chain in H. cbv zeta in H.
  destruct (formats_count (drv_swap_chain_support drv) =? 0); [discriminate|].
  destruct (present_modes_count (drv_swap_chain_support drv) =? 0); [discriminate|].
  apply bind_Done in H. destruct H as ([] & w1 & H1 & H).
  apply bind_Done in H. destruct H as ([] & w2 & H2 & H).
  injection H1 as <-. injection H2 as <-.
  match type of H with
  | ?rest _ = _ => assert (He : emits setup_call rest) by loud
  end.
  apply He in H. destruct H as (_ & l & Hl & HP).
  exists l. split; [|exact HP].
  unfold logged in *. simpl in Hl. rewrite Hl, <- app_assoc. reflexivity.
Qed.
End Creation.

(** ** Choice of surface format and present mode *)

Lemma is_preferred_format_iff (f : VkSurfaceFormatKHR) :
  is_preferred_format f = true
  <-> format f = VK_FORMAT_B8G8R8A8_SRGB
      /\ colorSpace f = VK_COLOR_SPACE_SRGB_NONLINEAR_KHR.
Proof.
  unfold is_preferred_format. rewrite andb_true_iff, !Z.eqb_eq. tauto.
Qed.

Lemma choose_surface_format_preferred (fs : list VkSurfaceFormatKHR) :
  (exists f, In f fs /\ is_preferred_format f = true) ->
  In (choose_surface_format fs) fs
  /\ is_preferred_format (choose_surface_format fs) = true.
Proof.
  intros (f & Hin & Hp). unfold choose_surface_format. cbv zeta.
  destruct (find is_preferred_format fs) as [g|] eqn:Hf.
  - apply find_some in Hf. exact Hf.
  - rewrite (find_none _ _ Hf f Hin) in Hp. discriminate.
Qed.

Lemma choose_surface_format_fallback (fs : list VkSurfaceFormatKHR) :
  fs <> [] ->
  (forall f, In f fs -> is_preferred_format f = false) ->
  nth_error fs 0 = Some (choose_surface_format fs).
Proof.
  intros Hne Hnone. unfold choose_surface_format. cbv zeta.
  destruct (find is_preferred_format fs) as [g|] eqn:Hf.
  - apply find_some in Hf. destruct Hf as (Hin & Hp).
    rewrite (Hnone g Hin) in Hp. discriminate.
  - destruct fs; [contradiction|reflexivity].
Qed.

Lemma choose_present_mode_mailbox (modes : list Z) :
  In VK_PRESENT_MODE_MAILBOX_KHR modes ->
  choose_present_mode modes = VK_PRESENT_MODE_MAILBOX_KHR.
Proof.
  intros Hin. unfold choose_present_mode. cbv zeta.
  destruct (find _ modes) as [m|] eqn:Hf.
  - apply find_some in Hf. destruct Hf as (_ & Hm). now apply Z.eqb_eq in Hm.
  - apply (find_none _ _ Hf) in Hin. discriminate.
Qed.

Lemma choose_present_mode_fifo (modes : list Z) :
  ~ In VK_PRESENT_MODE_MAILBOX_KHR modes ->
  choose_present_mode modes = VK_PRESENT_MODE_FIFO_KHR.
Proof.
  intros Hnin. unfold choose_present_mode. cbv zeta.
  destruct (find _ modes) as [m|] eqn:Hf; [|reflexivity].
  apply find_some in Hf. destruct Hf as (Hin & Hm).
  apply Z.eqb_eq in Hm. subst m. contradiction.
Qed.

(** C6. A swapchain creation that returns had non-empty format and
    present-mode lists, and the request it logged (and the format it
    stored) uses the B8G8R8A8_SRGB / SRGB_NONLINEAR pair when the format
    list contains it anywhere and the entry at index 0 otherwise, and
    MAILBOX when the present-mode list contains it anywhere and FIFO
    otherwise. *)
Theorem create_swap_chain_format_and_present_mode
        (drv : Driver) (create_depth_image : bool) (w w' : World) :
  vkx_create_swap_chain drv create_depth_image w = Done (tt, w') ->
  let fs := formats (drv_swap_chain_support drv) in
  let modes := present_modes (drv_swap_chain_support drv) in
  let preferred f :=
    format f = VK_FORMAT_B8G8R8A8_SRGB
    /\ colorSpace f = VK_COLOR_SPACE_SRGB_NONLINEAR_KHR in
  exists info l,
    logged w w' (vkCreateSwapchainKHR info :: l)
    /\ fs <> [] /\ modes <> []
    /\ ((exists f, In f fs /\ preferred f) ->
        ci_imageFormat info = VK_FORMAT_B8G8R8A8_SRGB
        /\ ci_imageColorSpace info = VK_COLOR_SPACE_SRGB_NONLINEAR_KHR
        /\ image_format (vkx_swap_chain w') = VK_FORMAT_B8G8R8A8_SRGB)
    /\ ((forall f, In f fs -> ~ preferred f) ->
        exists f0, nth_error fs 0 = Some f0
                   /\ ci_imageFormat info = format f0
                   /\ ci_imageColorSpace info = colorSpace f0
                   /\ image_format (vkx_swap_chain w') = format f0)
    /\ (In VK_PRESENT_MODE_MAILBOX_KHR modes ->
        ci_presentMode info = VK_PRESENT_MODE_MAILBOX_KHR)
    /\ (~ In VK_PRESENT_MODE_MAILBOX_KHR modes ->
        ci_presentMode info = VK_PRESENT_MODE_FIFO_KHR).
Proof.
  intros H fs modes preferred.
  destruct (create_logs_request drv _ _ _ H) as (_ & l & Hl & _).
  destruct (create_needs_formats_and_modes drv _ _ _ H) as (Hfs & Hmodes).
  pose proof (create_sets_image_format drv _ _ _ _ H) as Hfmt. simpl in Hfmt.
  eexists. exists l. split; [exact Hl|].
  split; [exact Hfs|]. split; [exact Hmodes|].
  simpl. fold fs modes. rewrite Hfmt. fold fs.
  split; [|split; [|split]].
  - intros (f & Hin & Hp).
    destruct (choose_surface_format_preferred fs) as (_ & Hc).
    { exists f. split; [exact Hin|]. apply is_preferred_format_iff. exact Hp. }
    apply is_preferred_format_iff in Hc. tauto.
  - intros Hnone. exists (choose_surface_format fs).
    split; [|auto]. apply choose_surface_format_fallback; [exact Hfs|].
    intros f Hin. destruct (is_preferred_format f) eqn:Hp; [|reflexivity].
    apply is_preferred_format_iff in Hp. destruct (Hnone f Hin Hp).
  - apply choose_present_mode_mailbox.
  - apply choose_present_mode_fifo.
Qed.

Lemma create_swap_chain_format_and_present_mode_witness :
  exists w' info l,
    vkx_create_swap_chain example_driver false (example_world false false 0)
    = Done (tt, w')
    /\ logged (example_world false false 0) w' (vkCreateSwapchainKHR info :: l)
    /\ ci_imageFormat info = VK_FORMAT_B8G8R8A8_SRGB
    /\ ci_presentMode info = VK_PRESENT_MODE_MAILBOX_KHR.
Proof.
  destruct (vkx_create_swap_chain example_driver false (example_world false false 0))
    as [[[] w']| |] eqn:Hrun; [|vm_compute in Hrun; discriminate ..].
  destruct (create_swap_chain_format_and_present_mode example_driver false
              (example_world false false 0) w' Hrun)
    as (info & l & Hl & _ & _ & Hpref & _ & Hmail & _).
  exists w', info, l. split; [reflexivity|]. split; [exact Hl|]. split.
  - apply Hpref. eexists. split; [left; reflexivity|]. split; reflexivity.
  - apply Hmail. right. left. reflexivity.
Defined.

(** ** Swapchain tear-down and recreation *)

Lemma bind_run {A B} (c : M A) (k : A -> M B) (w : World) (a : A) (w1 : World) :
  c w = Done (a, w1) -> bind c k w = k a w1.
Proof. unfold bind. intros ->. reflexivity. Qed.

Lemma for_each_call_run {A} (f : A -> Call) (l : list A) (w : World) :
  exists w', for_each l (fun x => call (f x)) w = Done (tt, w')
             /\ vkx_swap_chain w' = vkx_swap_chain w
             /\ frame_eq w w'
             /\ logged w w' (map f l).
Proof.
  revert w. induction l as [|x l IH]; intros w; simpl.
  - exists w. split; [reflexivity|]. split; [reflexivity|].
    split; [apply frame_eq_refl|apply logged_refl].
  - destruct (IH (with_call (f x) w)) as (w' & Hrun & Hsc & Hf & Hl).
    exists w'. split; [|split; [exact Hsc|split; [exact Hf|]]].
    + erewrite bind_run; [exact Hrun|reflexivity].
    + unfold logged in *. simpl in Hl. rewrite Hl, <- app_assoc. reflexivity.
Qed.

Lemma vkx_cleanup_swap_chain_run (w : World) :
  exists w1, vkx_cleanup_swap_chain w = Done (tt, w1)
             /\ vkx_swap_chain w1 = cleaned (vkx_swap_chain w)
             /\ frame_eq w w1
             /\ logged w w1 (cleanup_calls (vkx_swap_chain w)).
Proof.
  unfold vkx_cleanup_swap_chain.
  erewrite bind_run; [|reflexivity].
  assert (Hdepth : exists w0,
             when (has_depth_image (vkx_swap_chain w))
                  (d <- vkx_cleanup_image (depth_image (vkx_swap_chain w)) ;;
                   modify_swap_chain (set_depth_image d)) w = Done (tt, w0)
             /\ vkx_swap_chain w0
                = (if has_depth_image (vkx_swap_chain w)
                   then set_depth_image
                          (mkVkxImage VK_NULL_HANDLE VK_NULL_HANDLE VK_NULL_HANDLE)
                          (vkx_swap_chain w)
                   else vkx_swap_chain w)
             /\ frame_eq w w0
             /\ logged w w0
                  (if has_depth_image (vkx_swap_chain w) then
                     (if view (depth_image (vkx_swap_chain w)) =? VK_NULL_HANDLE then []
                      else [vkDestroyImageView (view (depth_image (vkx_swap_chain w)))])
                       ++ [vkDestroyImage (image (depth_image (vkx_swap_chain w)));
                           vkFreeMemory (image_memory (depth_image (vkx_swap_chain w)))]
                   else [])).
  { destruct (has_depth_image (vkx_swap_chain w)); simpl.
    - destruct (vkx_cleanup_image_run (depth_image (vkx_swap_chain w)) w)
        as (w0 & Hrun & Hsc & Hf & Hl).
      eexists. split; [erewrite bind_run; [reflexivity|exact Hrun]|].
      simpl. rewrite Hsc. split; [reflexivity|]. split; [exact Hf|exact Hl].
    - exists w. split; [reflexivity|]. split; [reflexivity|].
      split; [apply frame_eq_refl|apply logged_refl]. }
  destruct Hdepth as (w0 & Hrun0 & Hsc0 & Hf0 & Hl0).
  erewrite bind_run; [|exact Hrun0].
  destruct (for_each_call_run vkDestroyImageView
              (firstn (Z.to_nat (images_count (vkx_swap_chain w)))
                      (image_views (vkx_swap_chain w))) w0)
    as (w2 & Hrun2 & Hsc2 & Hf2 & Hl2).
  erewrite bind_run; [|exact Hrun2].
  eexists. split; [reflexivity|]. simpl.
  split; [|split].
  - rewrite Hsc2, Hsc0. unfold cleaned.
    destruct (has_depth_image (vkx_swap_chain w)); reflexivity.
  - eapply frame_eq_trans; [exact Hf0|]. exact Hf2.
  - unfold logged, cleanup_calls in *. simpl. rewrite Hl2, Hl0, <- !app_assoc.
    reflexivity.
Qed.

Lemma has_depth_image_cleaned (sc : VkxSwapChain) :
  has_depth_image (cleaned sc) = has_depth_image sc.
Proof. unfold cleaned. destruct (has_depth_image sc) eqn:H; simpl; auto. Qed.

Section Recreation.
Variable drv : Driver.

Let support := drv_swap_chain_support drv.
Let ext := vkx_choose_swap_extent (drv_window_size drv) (capabilities support).
Let info := swap_chain_create_info support (drv_queue_families drv) ext.

Lemma vkx_recreate_swap_chain_steps (w w' : World) :
  vkx_recreate_swap_chain drv w = Done (tt, w') ->
  exists w1,
    vkx_cleanup_swap_chain (with_call vkDeviceWaitIdle w) = Done (tt, w1)
    /\ vkx_swap_chain w1 = cleaned (vkx_swap_chain w)
    /\ logged w w1 (vkDeviceWaitIdle :: cleanup_calls (vkx_swap_chain w))
    /\ vkx_create_swap_chain drv (has_depth_image (vkx_swap_chain w)) w1 = Done (tt, w').
Proof.
  unfold vkx_recreate_swap_chain. intros H.
  erewrite bind_run in H; [|reflexivity].
  destruct (vkx_cleanup_swap_chain_run (with_call vkDeviceWaitIdle w))
    as (w1 & Hrun & Hsc & _ & Hl).
  erewrite bind_run in H; [|exact Hrun].
  erewrite bind_run in H; [|reflexivity].
  simpl in Hsc. rewrite Hsc, has_depth_image_cleaned in H.
  exists w1. split; [exact Hrun|]. split; [exact Hsc|]. split; [|exact H].
  unfold logged in *. simpl in Hl. rewrite Hl, <- app_assoc. reflexivity.
Qed.

Lemma vkx_recreate_swap_chain_observable (w w' : World) :
  vkx_recreate_swap_chain drv w = Done (tt, w') ->
  observable (vkx_swap_chain w') = recreated_observable drv.
Proof.
  intros H. apply vkx_recreate_swap_chain_steps in H.
  destruct H as (w1 & _ & _ & _ & H).
  unfold observable, recreated_observable, images_count.
  rewrite (create_sets_extent drv _ _ _ _ H).
  rewrite (create_sets_image_format drv _ _ _ _ H).
  rewrite (create_sets_images drv _ _ _ _ H).
  reflexivity.
Qed.
End Recreation.

(** With a cooperative driver and no depth image, creation and recreation
    return. *)
Lemma returns_ret {A} (a : A) : returns (ret a).
Proof. intros w. exists a, w. reflexivity. Qed.

Lemma returns_call (c : Call) : returns (call c).
Proof. intros w. eexists. eexists. reflexivity. Qed.

Lemma returns_modify_swap_chain (f : VkxSwapChain -> VkxSwapChain) :
  returns (modify_swap_chain f).
Proof. intros w. eexists. eexists. reflexivity. Qed.

Lemma returns_get_swap_chain : returns get_swap_chain.
Proof. intros w. eexists. eexists. reflexivity. Qed.

Lemma returns_bind {A B} (c : M A) (k : A -> M B) :
  returns c -> (forall a, returns (k a)) -> returns (bind c k).
Proof.
  intros Hc Hk w. destruct (Hc w) as (a & w1 & H1).
  destruct (Hk a w1) as (b & w2 & H2).
  exists b, w2. rewrite (bind_run _ _ _ _ _ H1). exact H2.
Qed.

Lemma returns_check_success (msg : string) : returns (check VK_SUCCESS msg).
Proof. intros w. exists tt, w. reflexivity. Qed.

Lemma returns_for_each {A} (l : list A) (body : A -> M unit) :
  (forall x, returns (body x)) -> returns (for_each l body).
Proof.
  intros Hb. induction l as [|x l IH]; simpl.
  - apply returns_ret.
  - apply returns_bind; auto.
Qed.

Lemma returns_map_m {A B} (l : list A) (body : A -> M B) :
  (forall x, returns (body x)) -> returns (map_m l body).
Proof.
  intros Hb. induction l as [|x l IH]; simpl.
  - apply returns_ret.
  - apply returns_bind; auto. intros y.
    apply returns_bind; auto. intros ys. apply returns_ret.
Qed.

Lemma returns_vkx_create_image_view (drv : Driver) (img fmt aspect : Z) :
  fst (drv_vkCreateImageView drv img fmt aspect) = VK_SUCCESS ->
  returns (vkx_create_image_view drv img fmt aspect).
Proof.
  intros Hok. unfold vkx_create_image_view.
  apply returns_bind; [apply returns_call|intros _].
  destruct (drv_vkCreateImageView drv img fmt aspect) as [r v]. simpl in Hok.
  rewrite Hok. apply returns_ret.
Qed.

Lemma returns_vkx_cleanup_swap_chain : returns vkx_cleanup_swap_chain.
Proof.
  intros w. destruct (vkx_cleanup_swap_chain_run w) as (w1 & Hrun & _).
  exists tt, w1. exact Hrun.
Qed.

Lemma vkx_create_swap_chain_returns (drv : Driver) :
  cooperative drv -> returns (vkx_create_swap_chain drv false).
Proof.
  intros (Hfs & Hms & Hcreate & Hreset & Hbegin & Hend & Hsubmit & Hview).
  unfold vkx_create_swap_chain, formats_count, present_modes_count. cbv zeta.
  destruct (formats (drv_swap_chain_support drv)) as [|f fs] eqn:Ef; [contradiction|].
  destruct (present_modes (drv_swap_chain_support drv)) as [|m ms] eqn:Em;
    [contradiction|].
  rewrite Hreset, Hbegin, Hend, Hsubmit.
  change (Z.of_nat (List.length (f :: fs)) =? 0) with false.
  change (Z.of_nat (List.length (m :: ms)) =? 0) with false. cbv iota.
  apply returns_bind; [apply returns_modify_swap_chain|intros _].
  apply returns_bind; [apply returns_call|intros _].
  match goal with
  | |- context [drv_vkCreateSwapchainKHR drv ?i] =>
      specialize (Hcreate i); destruct (drv_vkCreateSwapchainKHR drv i) as [r h]
  end.
  simpl in Hcreate. rewrite Hcreate.
  repeat first
    [ apply returns_ret
    | apply returns_call
    | apply returns_modify_swap_chain
    | apply returns_check_success
    | apply returns_for_each; intros ?
    | apply returns_map_m; intros ?
    | apply returns_vkx_create_image_view; apply Hview
    | apply returns_bind; [|intros ?] ].
Qed.

Lemma vkx_recreate_swap_chain_returns (drv : Driver) (w : World) :
  cooperative drv -> has_depth_image (vkx_swap_chain w) = false ->
  exists w', vkx_recreate_swap_chain drv w = Done (tt, w').
Proof.
  intros Hdrv Hdepth. unfold vkx_recreate_swap_chain.
  erewrite bind_run; [|reflexivity].
  destruct (vkx_cleanup_swap_chain_run (with_call vkDeviceWaitIdle w))
    as (w1 & Hrun & Hsc & _).
  erewrite bind_run; [|exact Hrun]. erewrite bind_run; [|reflexivity].
  rewrite Hsc, has_depth_image_cleaned. simpl. rewrite Hdepth.
  destruct (vkx_create_swap_chain_returns drv Hdrv w1) as ([] & w' & H).
  exists w'. exact H.
Qed.

(** C8. A recreation that returns first waited for the device to go idle,
    then made exactly the tear-down calls for the old swapchain objects,
    then ran [vkx_create_swap_chain] on the torn-down record with the old
    [has_depth_image] setting, which the new record keeps. The extent,
    format and image count it leaves are those read off the driver's
    current answers (surface support, window size, images handed out), so
    any other prior state, the recreated one included, leads to the same
    observable state. *)
Theorem vkx_recreate_swap_chain_order_and_observable (drv : Driver) (w w' : World) :
  vkx_recreate_swap_chain drv w = Done (tt, w') ->
  let old := vkx_swap_chain w in
  (exists w1 l,
      vkx_swap_chain w1 = cleaned old
      /\ logged w w1 (vkDeviceWaitIdle :: cleanup_calls old)
      /\ vkx_create_swap_chain drv (has_depth_image old) w1 = Done (tt, w')
      /\ logged w1 w' l /\ Forall setup_call l)
  /\ has_depth_image (vkx_swap_chain w') = has_depth_image old
  /\ observable (vkx_swap_chain w') = recreated_observable drv
  /\ (forall v v', vkx_recreate_swap_chain drv v = Done (tt, v') ->
                   observable (vkx_swap_chain v') = observable (vkx_swap_chain w'))
  /\ (forall w'', vkx_recreate_swap_chain drv w' = Done (tt, w'') ->
                  observable (vkx_swap_chain w'') = observable (vkx_swap_chain w')).
Proof.
  intros H old.
  pose proof (vkx_recreate_swap_chain_observable drv _ _ H) as Hobs.
  destruct (vkx_recreate_swap_chain_steps drv _ _ H) as (w1 & _ & Hsc & Hl & Hc).
  split; [|split; [|split; [|split]]].
  - destruct (emits_vkx_create_swap_chain drv _ _ _ _ Hc) as (_ & l & Hl' & HP).
    exists w1, l. auto.
  - exact (create_sets_has_depth_image drv _ _ _ _ Hc).
  - exact Hobs.
  - intros v v' Hv. rewrite Hobs. apply vkx_recreate_swap_chain_observable with (w := v).
    exact Hv.
  - intros w'' Hw. rewrite Hobs. apply vkx_recreate_swap_chain_observable with (w := w').
    exact Hw.
Qed.

Lemma vkx_recreate_swap_chain_order_and_observable_witness :
  exists w' w'',
    vkx_recreate_swap_chain example_driver (example_world true false 0) = Done (tt, w')
    /\ vkx_recreate_swap_chain example_driver w' = Done (tt, w'')
    /\ has_depth_image (vkx_swap_chain w') = true
    /\ observable (vkx_swap_chain w') = (mkExtent 800 600, VK_FORMAT_B8G8R8A8_SRGB, 3)
    /\ observable (vkx_swap_chain w'') = observable (vkx_swap_chain w').
Proof.
  destruct (vkx_recreate_swap_chain example_driver (example_world true false 0))
    as [[[] w']| |] eqn:Hrun; [|vm_compute in Hrun; discriminate ..].
  destruct (vkx_recreate_swap_chain example_driver w')
    as [[[] w'']| |] eqn:Hrun2;
    [|vm_compute in Hrun; injection Hrun as <-; vm_compute in Hrun2; discriminate ..].
  destruct (vkx_recreate_swap_chain_order_and_observable example_driver _ _ Hrun)
    as (_ & Hd & Hobs & _ & Hidem).
  exists w', w''. split; [reflexivity|]. split; [exact Hrun2|].
  split; [exact Hd|]. split; [rewrite Hobs; reflexivity|].
  apply Hidem. exact Hrun2.
Defined.

(** ** One frame *)

Lemma wrap32_mod_frames (x : Z) :
  wrap32 x mod VKX_FRAMES_IN_FLIGHT = x mod VKX_FRAMES_IN_FLIGHT.
Proof.
  unfold wrap32, VKX_FRAMES_IN_FLIGHT. apply Z.mod_mod_divide.
  exists (2 ^ 31). reflexivity.
Qed.

Lemma nth_update_nth {A} (n : nat) (x d : A) (l : list A) :
  (n < List.length l)%nat -> nth n (update_nth n x l) d = x.
Proof.
  revert n. induction l as [|y l IH]; intros [|n] Hn; simpl in *; try lia; auto.
  apply IH. lia.
Qed.

Lemma fence_in_range (w : World) (slot : Z) :
  fence_at w slot <> FenceUnsignaled ->
  (Z.to_nat slot < List.length (in_flight_fences w))%nat.
Proof.
  unfold fence_at. intros H.
  destruct (Nat.lt_ge_cases (Z.to_nat slot) (List.length (in_flight_fences w)));
    auto.
  rewrite nth_overflow in H by assumption. contradiction.
Qed.

Section Frame.
Variable drv : Driver.
Variable ans : FrameAnswers.

Lemma draw_frame_blocked (w : World) :
  fence_at w (current_frame w) = FenceUnsignaled -> draw_frame drv ans w = Blocked.
Proof.
  intros H. unfold draw_frame, bind, get_current_frame, wait_for_fence.
  rewrite H. reflexivity.
Qed.

Lemma draw_frame_unfold (w : World) :
  fence_at w (current_frame w) <> FenceUnsignaled ->
  draw_frame drv ans w
  = (if ans_acquire ans =? VK_ERROR_OUT_OF_DATE_KHR then
       vkx_recreate_swap_chain drv
     else if negb (ans_acquire ans =? VK_SUCCESS)
             && negb (ans_acquire ans =? VK_SUBOPTIMAL_KHR) then
       exit "Failed to acquire swap chain image"
     else
       render_and_present drv ans (current_frame w) (ans_image_index ans))
      (after_acquire w).
Proof.
  intros H. unfold draw_frame, bind, get_current_frame, wait_for_fence.
  destruct (fence_at w (current_frame w)); try contradiction; reflexivity.
Qed.

Lemma keeps_counters_bind {A B} (c : M A) (k : A -> M B) :
  keeps_counters c -> (forall a, keeps_counters (k a)) -> keeps_counters (bind c k).
Proof.
  intros Hc Hk w b w' Hb. apply bind_Done in Hb. destruct Hb as (a & w1 & H1 & H2).
  apply Hc in H1. apply Hk in H2.
  destruct H1 as (Ha1 & Hb1 & Hc1 & l1 & Hl1).
  destruct H2 as (Ha2 & Hb2 & Hc2 & l2 & Hl2).
  repeat split; try congruence.
  exists (l1 ++ l2). eapply logged_trans; eauto.
Qed.

Lemma keeps_counters_silent {A} (P : Call -> Prop) (c : M A) :
  silent P c -> keeps_counters c.
Proof.
  intros H w a w' Hc. apply H in Hc.
  destruct Hc as (_ & (_ & Ha & Hb & Hn) & l & Hl & _). eauto 6.
Qed.

Lemma keeps_counters_set_fence (slot : Z) (f : Fence) : keeps_counters (set_fence slot f).
Proof.
  intros w a w' [= <- <-]. simpl. repeat split.
  exists []. unfold logged. simpl. now rewrite app_nil_r.
Qed.

Lemma keeps_counters_call (c : Call) : keeps_counters (call c).
Proof.
  intros w a w' [= <- <-]. simpl. repeat split. exists [c]. reflexivity.
Qed.
End Frame.

Ltac counters :=
  repeat first
    [ apply keeps_counters_call
    | apply keeps_counters_set_fence
    | apply (keeps_counters_silent setup_call);
      first [ apply silent_check | apply silent_get_swap_chain
            | apply silent_get_current_frame
            | apply silent_vkx_transition_image_layout ]
    | apply keeps_counters_bind; [|intros ?] ].

Ltac peel_with H lem w l Hc Hr Hn Hl :=
  let K := fresh "K" in
  apply bind_Done in H; destruct H as (? & w & K & H);
  apply lem in K; destruct K as (Hc & Hr & Hn & l & Hl).

Section Present.
Variable drv : Driver.
Variable ans : FrameAnswers.

Lemma keeps_counters_record_command_buffer (cb image_index : Z) :
  keeps_counters (record_command_buffer drv ans cb image_index).
Proof. unfold record_command_buffer. counters. Qed.

Lemma keeps_counters_reset_fence (slot : Z) : keeps_counters (reset_fence slot).
Proof. unfold reset_fence. counters. Qed.

Lemma keeps_counters_check (result : Z) (msg : string) :
  keeps_counters (check result msg).
Proof. counters. Qed.

(** A frame that got its image reaches the present call with the frame
    counter, the resize flag and the debounce counter as they were, runs
    lines 929-957 on the present result, and then advances the counter. *)
Lemma render_and_present_steps (frame : Z) (w w' : World) :
  render_and_present drv ans frame (ans_image_index ans) w = Done (tt, w') ->
  exists w0 w1 l,
    logged w w0 (l ++ [vkQueuePresentKHR (ans_image_index ans)])
    /\ current_frame w0 = current_frame w
    /\ framebuffer_resized w0 = framebuffer_resized w
    /\ suboptimal_swapchain_count w0 = suboptimal_swapchain_count w
    /\ after_present drv (ans_present ans) w0 = Done (tt, w1)
    /\ w' = with_current_frame (wrap32 (frame + 1) mod VKX_FRAMES_IN_FLIGHT) w1.
Proof.
  intros H. unfold render_and_present in H.
  peel_with H keeps_counters_call w2 l2 Hc2 Hr2 Hn2 Hl2.
  peel_with H keeps_counters_reset_fence w3 l3 Hc3 Hr3 Hn3 Hl3.
  peel_with H keeps_counters_call w4 l4 Hc4 Hr4 Hn4 Hl4.
  peel_with H keeps_counters_record_command_buffer w5 l5 Hc5 Hr5 Hn5 Hl5.
  peel_with H keeps_counters_call w6 l6 Hc6 Hr6 Hn6 Hl6.
  peel_with H keeps_counters_check w7 l7 Hc7 Hr7 Hn7 Hl7.
  peel_with H keeps_counters_set_fence w8 l8 Hc8 Hr8 Hn8 Hl8.
  apply bind_Done in H. destruct H as ([] & w0 & Hp & H). injection Hp as <-.
  apply bind_Done in H. destruct H as ([] & w1 & Hafter & H). injection H as <-.
  exists (with_call (vkQueuePresentKHR (ans_image_index ans)) w8), w1,
    (l2 ++ l3 ++ l4 ++ l5 ++ l6 ++ l7 ++ l8).
  split; [|simpl; repeat split; solve [congruence | exact Hafter]].
  unfold logged in *. simpl.
  rewrite Hl8, Hl7, Hl6, Hl5, Hl4, Hl3, Hl2, <- !app_assoc. reflexivity.
Qed.
End Present.

(** ** After the present call *)

Section AfterPresent.
Variable drv : Driver.

Lemma after_present_unfold (result : Z) (w : World) :
  after_present drv result w
  = handle_present_result drv result
      (with_suboptimal_swapchain_count
         (if result =? VK_SUBOPTIMAL_KHR
          then wrap32 (suboptimal_swapchain_count w + 1) else 0) w).
Proof.
  unfold after_present, count_suboptimal.
  destruct (result =? VK_SUBOPTIMAL_KHR); reflexivity.
Qed.

Lemma handle_present_result_resized (result : Z) (w : World) :
  framebuffer_resized w = true ->
  handle_present_result drv result w
  = vkx_recreate_swap_chain drv (with_framebuffer_resized false w).
Proof.
  intros H. unfold handle_present_result, bind, get_framebuffer_resized,
              get_suboptimal_swapchain_count.
  rewrite H. reflexivity.
Qed.

Lemma handle_present_result_threshold (result : Z) (w : World) :
  framebuffer_resized w = false ->
  SUBOPTIMAL_SWAPCHAIN_THRESHOLD <= suboptimal_swapchain_count w ->
  handle_present_result drv result w
  = vkx_recreate_swap_chain drv (with_suboptimal_swapchain_count 0 w).
Proof.
  intros H Hn. unfold handle_present_result, bind, get_framebuffer_resized,
                 get_suboptimal_swapchain_count.
  rewrite H. destruct (Z.geb_spec (suboptimal_swapchain_count w)
                                  SUBOPTIMAL_SWAPCHAIN_THRESHOLD); [reflexivity|lia].
Qed.

Lemma handle_present_result_below (result : Z) (w : World) :
  framebuffer_resized w = false ->
  suboptimal_swapchain_count w < SUBOPTIMAL_SWAPCHAIN_THRESHOLD ->
  handle_present_result drv result w
  = if result =? VK_ERROR_OUT_OF_DATE_KHR then vkx_recreate_swap_chain drv w
    else if negb (result =? VK_SUBOPTIMAL_KHR) && negb (result =? VK_SUCCESS)
         then Exit "failed to present swap chain image!"
         else Done (tt, w).
Proof.
  intros H Hn. unfold handle_present_result, bind, get_framebuffer_resized,
                 get_suboptimal_swapchain_count.
  rewrite H. destruct (Z.geb_spec (suboptimal_swapchain_count w)
                                  SUBOPTIMAL_SWAPCHAIN_THRESHOLD); [lia|].
  destruct (result =? VK_ERROR_OUT_OF_DATE_KHR); [reflexivity|].
  destruct (negb (result =? VK_SUBOPTIMAL_KHR) && negb (result =? VK_SUCCESS));
    reflexivity.
Qed.

(** A recreation that returns logged one device-idle wait and left the
    per-frame globals alone. *)
Lemma recreate_once (w w' : World) :
  vkx_recreate_swap_chain drv w = Done (tt, w') ->
  frame_eq w w' /\ exists l, logged w w' l /\ recreations l = 1%nat.
Proof.
  intros H. apply vkx_recreate_swap_chain_log in H.
  destruct H as (Hf & l & Hl & HP). split; [exact Hf|].
  exists (vkDeviceWaitIdle :: l). split; [exact Hl|].
  simpl. rewrite (recreations_setup l HP). reflexivity.
Qed.
End AfterPresent.

(** C2, as stated, fails: with the resize flag set and a suboptimal present
    result the frame recreates the swapchain once and returns with the
    counter at 1. *)
Lemma suboptimal_counter_nonzero_after_resize_recreation :
  exists w',
    draw_frame example_driver (example_answers VK_SUCCESS VK_SUBOPTIMAL_KHR)
               (example_world false true 0)
    = Done (tt, w')
    /\ recreations (calls w') = 1%nat
    /\ suboptimal_swapchain_count w' = 1
    /\ suboptimal_swapchain_count w' <> 0.
Proof.
  eexists. split; [vm_compute; reflexivity|].
  split; [reflexivity|]. split; [reflexivity|discriminate].
Qed.

(** ** The acquire result and the frame counter *)

Lemma draw_frame_stale (drv : Driver) (ans : FrameAnswers) (w w' : World) :
  ans_acquire ans = VK_ERROR_OUT_OF_DATE_KHR ->
  draw_frame drv ans w = Done (tt, w') ->
  let frame := current_frame w in
  fence_at w frame <> FenceUnsignaled
  /\ vkx_recreate_swap_chain drv (after_acquire w) = Done (tt, w')
  /\ current_frame w' = frame
  /\ in_flight_fences w'
     = update_nth (Z.to_nat frame) FenceSignaled (in_flight_fences w)
  /\ exists l,
      logged w w' (vkWaitForFences frame :: vkAcquireNextImageKHR frame
                     :: vkDeviceWaitIdle :: l)
      /\ Forall setup_call l.
Proof.
  intros Hacq H frame.
  assert (Hfence : fence_at w frame <> FenceUnsignaled).
  { intros Hb. rewrite (draw_frame_blocked drv ans w Hb) in H. discriminate. }
  rewrite (draw_frame_unfold drv ans w Hfence), Hacq in H. simpl in H.
  split; [exact Hfence|]. split; [exact H|].
  apply vkx_recreate_swap_chain_log in H.
  destruct H as ((Hf & Hc & _) & l & Hl & HP).
  split; [exact Hc|]. split; [exact Hf|].
  exists l. split; [|exact HP].
  unfold logged in *. simpl in Hl. rewrite Hl, <- !app_assoc. reflexivity.
Qed.

(** C1 (amended). A call of [draw_frame] that returns after a non-stale
    acquire has advanced the frame counter once, modulo 2; a call that
    returns after a stale acquire recreated the swapchain once and left
    the counter where it was. *)
Theorem frame_counter_advance (drv : Driver) (ans : FrameAnswers) (w w' : World) :
  draw_frame drv ans w = Done (tt, w') ->
  VKX_FRAMES_IN_FLIGHT = 2
  /\ (ans_acquire ans <> VK_ERROR_OUT_OF_DATE_KHR ->
      current_frame w' = (current_frame w + 1) mod VKX_FRAMES_IN_FLIGHT)
  /\ (ans_acquire ans = VK_ERROR_OUT_OF_DATE_KHR ->
      current_frame w' = current_frame w
      /\ exists l, logged w w' l /\ recreations l = 1%nat).
Proof.
  intros H. split; [reflexivity|]. split.
  - intros Hacq.
    assert (Hfence : fence_at w (current_frame w) <> FenceUnsignaled).
    { intros Hb. rewrite (draw_frame_blocked drv ans w Hb) in H. discriminate. }
    rewrite (draw_frame_unfold drv ans w Hfence) in H.
    apply Z.eqb_neq in Hacq. rewrite Hacq in H.
    destruct (negb (ans_acquire ans =? VK_SUCCESS)
              && negb (ans_acquire ans =? VK_SUBOPTIMAL_KHR)); [discriminate|].
    apply render_and_present_steps in H.
    destruct H as (w0 & w1 & l & _ & _ & _ & _ & _ & ->).
    simpl. apply wrap32_mod_frames.
  - intros Hacq. destruct (draw_frame_stale drv ans w w' Hacq H)
      as (_ & _ & Hc & _ & l & Hl & HP).
    split; [exact Hc|]. eexists. split; [exact Hl|].
    simpl. rewrite (recreations_setup l HP). reflexivity.
Qed.

Lemma frame_counter_advance_witness :
  exists w',
    draw_frame example_driver (example_answers VK_SUCCESS VK_SUCCESS)
               (example_world false false 0)
    = Done (tt, w')
    /\ current_frame w' = 1.
Proof.
  destruct (draw_frame example_driver (example_answers VK_SUCCESS VK_SUCCESS)
                       (example_world false false 0))
    as [[[] w']| |] eqn:Hrun; [|vm_compute in Hrun; discriminate ..].
  destruct (frame_counter_advance example_driver _ _ w' Hrun) as (_ & Hadv & _).
  exists w'. split; [reflexivity|]. rewrite Hadv; [reflexivity|discriminate].
Defined.

(** C1, as stated, fails: after a stale acquire the frame is skipped, the
    swapchain is recreated, and the counter is still 0, not 1. *)
Lemma frame_counter_unchanged_after_stale_acquire :
  exists w',
    draw_frame example_driver (example_answers VK_ERROR_OUT_OF_DATE_KHR VK_SUCCESS)
               (example_world false false 0)
    = Done (tt, w')
    /\ recreations (calls w') = 1%nat
    /\ current_frame w' = 0
    /\ current_frame w'
       <> (current_frame (example_world false false 0) + 1) mod VKX_FRAMES_IN_FLIGHT.
Proof.
  eexists. split; [vm_compute; reflexivity|].
  split; [reflexivity|]. split; [reflexivity|discriminate].
Qed.

(** ** Queue families *)

Lemma is_graphics_family_bit (f : QueueFamily) :
  is_graphics_family f = Z.testbit (queueFlags f) 0.
Proof.
  unfold is_graphics_family, VK_QUEUE_GRAPHICS_BIT.
  change 1 with (2 ^ 0). apply land_single_bit. lia.
Qed.

Lemma note_queue_family_graphics (i : Z) (f : QueueFamily) (acc : VkxQueueFamilyIndices) :
  let r := note_queue_family i f acc in
  (is_graphics_family f = true -> has_graphics_family r = true /\ graphics_family r = i)
  /\ (is_graphics_family f = false ->
      has_graphics_family r = has_graphics_family acc
      /\ graphics_family r = graphics_family acc).
Proof.
  unfold note_queue_family.
  destruct (is_graphics_family f), (present_support f); simpl; split; intros H;
    try discriminate; auto.
Qed.

Lemma note_queue_family_present (i : Z) (f : QueueFamily) (acc : VkxQueueFamilyIndices) :
  let r := note_queue_family i f acc in
  (present_support f = true -> has_present_family r = true /\ present_family r = i)
  /\ (present_support f = false ->
      has_present_family r = has_present_family acc
      /\ present_family r = present_family acc).
Proof.
  unfold note_queue_family.
  destruct (is_graphics_family f), (present_support f); simpl; split; intros H;
    try discriminate; auto.
Qed.

(** The search from index [i] on: a flag that is set stays set; a flag set
    at the end was set before with the same index, or names a family of
    the list with the capability; a capable family in the list sets it. *)
Lemma find_queue_families_from_graphics (families : list QueueFamily) :
  forall (i : Z) (acc : VkxQueueFamilyIndices),
    let r := find_queue_families_from i families acc in
    (has_graphics_family acc = true -> has_graphics_family r = true)
    /\ (has_graphics_family r = true ->
        (has_graphics_family acc = true /\ graphics_family r = graphics_family acc)
        \/ exists n f, nth_error families n = Some f
                       /\ is_graphics_family f = true
                       /\ graphics_family r = i + Z.of_nat n)
    /\ ((exists n f, nth_error families n = Some f /\ is_graphics_family f = true) ->
        has_graphics_family r = true).
Proof.
  induction families as [|f rest IH]; intros i acc; simpl.
  - split; [auto|]. split; [auto|]. intros (n & g & Hn & _). destruct n; discriminate.
  - destruct (note_queue_family_graphics i f acc) as (Hyes & Hno).
    set (acc1 := note_queue_family i f acc) in *.
    assert (Hhere :
              (has_graphics_family acc = true -> has_graphics_family acc1 = true)
              /\ (has_graphics_family acc1 = true ->
                  (has_graphics_family acc = true
                   /\ graphics_family acc1 = graphics_family acc)
                  \/ (is_graphics_family f = true /\ graphics_family acc1 = i))
              /\ (is_graphics_family f = true -> has_graphics_family acc1 = true)).
    { destruct (is_graphics_family f) eqn:Hg.
      - destruct (Hyes eq_refl) as (H1 & H2). auto.
      - destruct (Hno eq_refl) as (H1 & H2). rewrite H1.
        split; [auto|]. split; [auto|discriminate]. }
    destruct Hhere as (Hmono & Hsound & Hcomplete).
    destruct (has_graphics_family acc1 && has_present_family acc1) eqn:Hboth.
    + apply andb_true_iff in Hboth. destruct Hboth as (Hg1 & _).
      split; [auto|]. split.
      * intros _. destruct (Hsound Hg1) as [Hold|(Hf & Hi)]; [left; exact Hold|].
        right. exists 0%nat, f. simpl. split; [reflexivity|]. split; [exact Hf|lia].
      * intros _. exact Hg1.
    + destruct (IH (i + 1) acc1) as (IHmono & IHsound & IHcomplete).
      split; [auto|]. split.
      * intros Hr. destruct (IHsound Hr) as [(Hg1 & He)|(n & g & Hn & Hg & He)].
        -- destruct (Hsound Hg1) as [(Hold & He')|(Hf & Hi)].
           ++ left. split; [exact Hold|congruence].
           ++ right. exists 0%nat, f. simpl. split; [reflexivity|].
              split; [exact Hf|lia].
        -- right. exists (S n), g. simpl. split; [exact Hn|]. split; [exact Hg|lia].
      * intros (n & g & Hn & Hg). destruct n as [|n]; simpl in Hn.
        -- injection Hn as <-. auto.
        -- apply IHcomplete. eauto.
Qed.

Lemma find_queue_families_from_present (families : list QueueFamily) :
  forall (i : Z) (acc : VkxQueueFamilyIndices),
    let r := find_queue_families_from i families acc in
    (has_present_family acc = true -> has_present_family r = true)
    /\ (has_present_family r = true ->
        (has_present_family acc = true /\ present_family r = present_family acc)
        \/ exists n f, nth_error families n = Some f
                       /\ present_support f = true
                       /\ present_family r = i + Z.of_nat n)
    /\ ((exists n f, nth_error families n = Some f /\ present_support f = true) ->
        has_present_family r = true).
Proof.
  induction families as [|f rest IH]; intros i acc; simpl.
  - split; [auto|]. split; [auto|]. intros (n & g & Hn & _). destruct n; discriminate.
  - destruct (note_queue_family_present i f acc) as (Hyes & Hno).
    set (acc1 := note_queue_family i f acc) in *.
    assert (Hhere :
              (has_present_family acc = true -> has_present_family acc1 = true)
              /\ (has_present_family acc1 = true ->
                  (has_present_family acc = true
                   /\ present_family acc1 = present_family acc)
                  \/ (present_support f = true /\ present_family acc1 = i))
              /\ (present_support f = true -> has_present_family acc1 = true)).
    { destruct (present_support f) eqn:Hg.
      - destruct (Hyes eq_refl) as (H1 & H2). auto.
      - destruct (Hno eq_refl) as (H1 & H2). rewrite H1.
        split; [auto|]. split; [auto|discriminate]. }
    destruct Hhere as (Hmono & Hsound & Hcomplete).
    destruct (has_graphics_family acc1 && has_present_family acc1) eqn:Hboth.
    + apply andb_true_iff in Hboth. destruct Hboth as (_ & Hg1).
      split; [auto|]. split.
      * intros _. destruct (Hsound Hg1) as [Hold|(Hf & Hi)]; [left; exact Hold|].
        right. exists 0%nat, f. simpl. split; [reflexivity|]. split; [exact Hf|lia].
      * intros _. exact Hg1.
    + destruct (IH (i + 1) acc1) as (IHmono & IHsound & IHcomplete).
      split; [auto|]. split.
      * intros Hr. destruct (IHsound Hr) as [(Hg1 & He)|(n & g & Hn & Hg & He)].
        -- destruct (Hsound Hg1) as [(Hold & He')|(Hf & Hi)].
           ++ left. split; [exact Hold|congruence].
           ++ right. exists 0%nat, f. simpl. split; [reflexivity|].
              split; [exact Hf|lia].
        -- right. exists (S n), g. simpl. split; [exact Hn|]. split; [exact Hg|lia].
      * intros (n & g & Hn & Hg). destruct n as [|n]; simpl in Hn.
        -- injection Hn as <-. auto.
        -- apply IHcomplete. eauto.
Qed.

Lemma graphics_family_found (families : list QueueFamily) :
  has_graphics_family (vkx_find_queue_families families) = true ->
  0 <= graphics_family (vkx_find_queue_families families)
  /\ graphics_capable families
       (Z.to_nat (graphics_family (vkx_find_queue_families families))).
Proof.
  unfold vkx_find_queue_families. intros H.
  destruct (find_queue_families_from_graphics families 0 (mkQueueFamilies 0 0 false false))
    as (_ & Hs & _).
  destruct (Hs H) as [(Hf & _)|(n & f & Hn & Hf & He)]; [discriminate|].
  rewrite He. split; [lia|]. exists f.
  rewrite <- is_graphics_family_bit. split; [|exact Hf].
  match goal with |- nth_error _ ?k = _ => replace k with n by lia end. exact Hn.
Qed.

Lemma present_family_found (families : list QueueFamily) :
  has_present_family (vkx_find_queue_families families) = true ->
  0 <= present_family (vkx_find_queue_families families)
  /\ present_capable families
       (Z.to_nat (present_family (vkx_find_queue_families families))).
Proof.
  unfold vkx_find_queue_families. intros H.
  destruct (find_queue_families_from_present families 0 (mkQueueFamilies 0 0 false false))
    as (_ & Hs & _).
  destruct (Hs H) as [(Hf & _)|(n & f & Hn & Hf & He)]; [discriminate|].
  rewrite He. split; [lia|]. exists f. split; [|exact Hf].
  match goal with |- nth_error _ ?k = _ => replace k with n by lia end. exact Hn.
Qed.

Lemma has_graphics_family_iff (families : list QueueFamily) :
  has_graphics_family (vkx_find_queue_families families) = true
  <-> exists n, graphics_capable families n.
Proof.
  split.
  - intros H. destruct (graphics_family_found families H) as (_ & Hc). eauto.
  - intros (n & f & Hn & Hf). unfold vkx_find_queue_families.
    apply find_queue_families_from_graphics. exists n, f.
    rewrite is_graphics_family_bit. auto.
Qed.

Lemma has_present_family_iff (families : list QueueFamily) :
  has_present_family (vkx_find_queue_families families) = true
  <-> exists n, present_capable families n.
Proof.
  split.
  - intros H. destruct (present_family_found families H) as (_ & Hc). eauto.
  - intros (n & f & Hn & Hf). unfold vkx_find_queue_families.
    apply find_queue_families_from_present. eauto.
Qed.

(** X1. [vkx_find_queue_families] sets [has_graphics_family] exactly when
    some family has the graphics bit, and [has_present_family] exactly when
    some family can present to the surface; an index it reports with its
    flag set is the index of a family with that capability. *)
Theorem vkx_find_queue_families_sound_complete (families : list QueueFamily) :
  let r := vkx_find_queue_families families in
  (has_graphics_family r = true <-> exists n, graphics_capable families n)
  /\ (has_present_family r = true <-> exists n, present_capable families n)
  /\ (has_graphics_family r = true ->
      0 <= graphics_family r
      /\ graphics_capable families (Z.to_nat (graphics_family r)))
  /\ (has_present_family r = true ->
      0 <= present_family r
      /\ present_capable families (Z.to_nat (present_family r))).
Proof.
  intros r. subst r.
  split; [apply has_graphics_family_iff|].
  split; [apply has_present_family_iff|].
  split; [apply graphics_family_found|apply present_family_found].
Qed.

(** ** Physical device selection *)

Lemma required_extensions_supported_iff (available : list string) :
  required_extensions_supported available = true
  <-> forall e, In e device_extensions -> In e available.
Proof.
  unfold required_extensions_supported. rewrite forallb_forall.
  split; intros H e He; specialize (H e He).
  - apply existsb_exists in H. destruct H as (a & Ha & Heq).
    apply String.eqb_eq in Heq. subst a. exact Ha.
  - apply existsb_exists. exists e. split; [exact H|apply String.eqb_refl].
Qed.

Lemma count_positive {A} (l : list A) : (Z.of_nat (List.length l) >? 0) = true <-> l <> [].
Proof.
  destruct l as [|a l].
  - split; [discriminate|]. intros H. exfalso. apply H. reflexivity.
  - split; [intros _; discriminate|]. intros _. reflexivity.
Qed.

Lemma device_suitable_iff (d : PhysicalDevice) :
  device_suitable d = true <-> eligible d.
Proof.
  unfold device_suitable, eligible. cbv zeta.
  rewrite <- required_extensions_supported_iff.
  rewrite <- has_graphics_family_iff, <- has_present_family_iff.
  unfold formats_count, present_modes_count.
  rewrite <- (count_positive (formats (pd_swap_chain_support d))).
  rewrite <- (count_positive (present_modes (pd_swap_chain_support d))).
  destruct (required_extensions_supported (pd_extensions d)); simpl;
    [|split; [discriminate|intros (H & _); discriminate]].
  destruct (pd_samplerAnisotropy d); simpl;
    [|split; [discriminate|intros (_ & H & _); discriminate]].
  destruct (has_graphics_family (vkx_find_queue_families (pd_queue_families d)));
    simpl; [|split; [discriminate|intros (_ & _ & H & _); discriminate]].
  destruct (has_present_family (vkx_find_queue_families (pd_queue_families d)));
    simpl; [|split; [discriminate|intros (_ & _ & _ & H & _); discriminate]].
  rewrite andb_true_iff. tauto.
Qed.

Lemma find_first_split {A} (p : A -> bool) (l : list A) (x : A) :
  find p l = Some x ->
  exists before after,
    l = before ++ x :: after /\ p x = true /\ forall b, In b before -> p b = false.
Proof.
  induction l as [|a l IH]; simpl; [discriminate|].
  destruct (p a) eqn:Ha.
  - intros [= <-]. exists [], l. split; [reflexivity|]. split; [exact Ha|].
    intros b [].
  - intros H. destruct (IH H) as (before & after & -> & Hx & Hb).
    exists (a :: before), after. split; [reflexivity|]. split; [exact Hx|].
    intros b [<-|Hin]; auto.
Qed.

Lemma find_first_of_split {A} (p : A -> bool) (before after : list A) (x : A) :
  p x = true -> (forall b, In b before -> p b = false) ->
  find p (before ++ x :: after) = Some x.
Proof.
  intros Hx Hb. induction before as [|a before IH]; simpl.
  - rewrite Hx. reflexivity.
  - rewrite (Hb a (or_introl eq_refl)). apply IH. intros b Hin. apply Hb. now right.
Qed.

(** X2. [vkx_pick_physical_device] exits when no device is enumerated;
    otherwise it returns the first device, in enumeration order, that has
    both required extensions, sampler anisotropy, a graphics family, a
    present family and a non-empty format and present-mode list, and the
    null handle when there is none, on which [vkx_init] takes its
    [failed to find a suitable GPU!] exit. *)
Theorem vkx_pick_physical_device_first_eligible (devices : list PhysicalDevice) :
  (devices = [] ->
   vkx_pick_physical_device devices = Exit "failed to find GPUs with Vulkan support!")
  /\ (forall before d after,
         devices = before ++ d :: after ->
         eligible d -> (forall b, In b before -> ~ eligible b) ->
         vkx_pick_physical_device devices = Done (pd_handle d))
  /\ (devices <> [] -> (forall d, In d devices -> ~ eligible d) ->
      vkx_pick_physical_device devices = Done VK_NULL_HANDLE
      /\ select_physical_device devices = Exit "failed to find a suitable GPU!")
  /\ (forall h, select_physical_device devices = Done h ->
                h <> VK_NULL_HANDLE
                /\ exists d, In d devices /\ eligible d /\ pd_handle d = h).
Proof.
  split; [|split; [|split]].
  - intros ->. reflexivity.
  - intros before d after -> Hd Hb. unfold vkx_pick_physical_device.
    rewrite length_app. simpl.
    replace (Z.of_nat (List.length before + S (List.length after)) =? 0) with false
      by (symmetry; apply Z.eqb_neq; lia).
    rewrite find_first_of_split; [reflexivity|now apply device_suitable_iff|].
    intros b Hin. destruct (device_suitable b) eqn:Hs; [|reflexivity].
    apply device_suitable_iff in Hs. destruct (Hb b Hin Hs).
  - intros Hne Hnone.
    assert (Hpick : vkx_pick_physical_device devices = Done VK_NULL_HANDLE).
    { unfold vkx_pick_physical_device.
      destruct devices as [|d0 ds]; [contradiction|].
      change (Z.of_nat (List.length (d0 :: ds)) =? 0) with false. cbv iota.
      destruct (find device_suitable (d0 :: ds)) as [d|] eqn:Hf; [|reflexivity].
      apply find_some in Hf. destruct Hf as (Hin & Hs).
      apply device_suitable_iff in Hs. destruct (Hnone d Hin Hs). }
    split; [exact Hpick|]. unfold select_physical_device. rewrite Hpick. reflexivity.
  - intros h. unfold select_physical_device, vkx_pick_physical_device.
    destruct (Z.of_nat (List.length devices) =? 0); [discriminate|].
    destruct (find device_suitable devices) as [d|] eqn:Hf.
    + destruct (pd_handle d =? VK_NULL_HANDLE) eqn:Hnull; [discriminate|].
      intros [= <-]. apply Z.eqb_neq in Hnull. split; [exact Hnull|].
      apply find_some in Hf. destruct Hf as (Hin & Hs).
      exists d. split; [exact Hin|]. split; [now apply device_suitable_iff|reflexivity].
    + simpl. discriminate.
Qed.

(** ** Extent, depth format, one-shot commands, images *)

Lemma clamp_extent_bounds (actual lo hi : Z) :
  lo <= hi -> lo <= clamp_extent actual lo hi <= hi.
Proof.
  intros H. unfold clamp_extent.
  destruct (Z.ltb_spec actual lo); [lia|].
  destruct (Z.gtb_spec actual hi); lia.
Qed.

Lemma clamp_extent_inside (actual lo hi : Z) :
  lo <= actual <= hi -> clamp_extent actual lo hi = actual.
Proof.
  intros H. unfold clamp_extent.
  destruct (Z.ltb_spec actual lo); [lia|].
  destruct (Z.gtb_spec actual hi); lia.
Qed.

(** X3. [vkx_choose_swap_extent] returns the surface's current extent as it
    is unless its width is 0xFFFFFFFF. With that sentinel each component
    is the window size (as [uint32_t]) when that lies between the minimum
    and maximum image extent, and lies between them whenever the minimum
    does not exceed the maximum; a negative window size ends at the
    maximum. *)
Theorem vkx_choose_swap_extent_clamped
        (window_size : Z * Z) (caps : VkSurfaceCapabilitiesKHR) :
  let e := vkx_choose_swap_extent window_size caps in
  let lo := minImageExtent caps in
  let hi := maxImageExtent caps in
  (width (currentExtent caps) <> 4294967295 -> e = currentExtent caps)
  /\ (width (currentExtent caps) = 4294967295 ->
      (width lo <= width hi -> width lo <= width e <= width hi)
      /\ (height lo <= height hi -> height lo <= height e <= height hi)
      /\ (width lo <= wrap32 (fst window_size) <= width hi ->
          width e = wrap32 (fst window_size))
      /\ (height lo <= wrap32 (snd window_size) <= height hi ->
          height e = wrap32 (snd window_size))
      /\ (- 2 ^ 31 <= fst window_size < 0 -> width lo <= width hi < 2 ^ 31 ->
          width e = width hi)).
Proof.
  intros e lo hi. subst e lo hi. unfold vkx_choose_swap_extent.
  destruct window_size as [w h]. split.
  - intros H. apply Z.eqb_neq in H. rewrite H. reflexivity.
  - intros H. rewrite H. simpl.
    split; [apply clamp_extent_bounds|].
    split; [apply clamp_extent_bounds|].
    split; [apply clamp_extent_inside|].
    split; [apply clamp_extent_inside|].
    intros Hw Hb. unfold clamp_extent.
    assert (Hwrap : wrap32 w = w + 2 ^ 32).
    { unfold wrap32. symmetry. apply (Z.mod_unique_pos w (2 ^ 32) (-1)); lia. }
    rewrite Hwrap.
    destruct (Z.ltb_spec (w + 2 ^ 32) (width (minImageExtent caps))); [lia|].
    destruct (Z.gtb_spec (w + 2 ^ 32) (width (maxImageExtent caps))); lia.
Qed.

Lemma format_supported_iff (drv : Driver) (tiling features candidate : Z) :
  format_supported drv tiling features candidate = true
  <-> format_has_features drv tiling features candidate.
Proof.
  unfold format_supported, format_has_features. cbv zeta.
  rewrite orb_true_iff, !andb_true_iff, !land_superset, !Z.eqb_eq. tauto.
Qed.

(** X4. [vkx_find_supported_format] returns the first candidate, in the
    order given, whose features for the tiling include the requested ones,
    and takes the [Failed to find supported format] exit when there is
    none, which is always the case for a tiling that is neither linear
    nor optimal. Hence [vkx_find_depth_format] prefers D32_SFLOAT, then
    D32_SFLOAT_S8_UINT, then D24_UNORM_S8_UINT. The features of a format
    are what the driver answers to [vkGetPhysicalDeviceFormatProperties];
    the statement is about the value returned only. *)
Theorem vkx_find_supported_format_first
        (drv : Driver) (candidates : list Z) (tiling features : Z) (w : World) :
  let ok := format_has_features drv tiling features in
  let found (run : outcome (Z * World)) (c : Z) := exists w', run = Done (c, w') in
  (forall before c after,
      candidates = before ++ c :: after ->
      ok c -> (forall b, In b before -> ~ ok b) ->
      found (vkx_find_supported_format drv candidates tiling features w) c)
  /\ ((forall c, In c candidates -> ~ ok c) ->
      vkx_find_supported_format drv candidates tiling features w
      = Exit "Failed to find supported format")
  /\ (tiling <> VK_IMAGE_TILING_LINEAR -> tiling <> VK_IMAGE_TILING_OPTIMAL ->
      vkx_find_supported_format drv candidates tiling features w
      = Exit "Failed to find supported format")
  /\ (depth_capable drv VK_FORMAT_D32_SFLOAT ->
      found (vkx_find_depth_format drv w) VK_FORMAT_D32_SFLOAT)
  /\ (~ depth_capable drv VK_FORMAT_D32_SFLOAT ->
      depth_capable drv VK_FORMAT_D32_SFLOAT_S8_UINT ->
      found (vkx_find_depth_format drv w) VK_FORMAT_D32_SFLOAT_S8_UINT)
  /\ (~ depth_capable drv VK_FORMAT_D32_SFLOAT ->
      ~ depth_capable drv VK_FORMAT_D32_SFLOAT_S8_UINT ->
      depth_capable drv VK_FORMAT_D24_UNORM_S8_UINT ->
      found (vkx_find_depth_format drv w) VK_FORMAT_D24_UNORM_S8_UINT)
  /\ (~ depth_capable drv VK_FORMAT_D32_SFLOAT ->
      ~ depth_capable drv VK_FORMAT_D32_SFLOAT_S8_UINT ->
      ~ depth_capable drv VK_FORMAT_D24_UNORM_S8_UINT ->
      vkx_find_depth_format drv w = Exit "Failed to find supported format").
Proof.
  intros ok found.
  assert (Hnone : forall cs t f,
             (forall c, In c cs -> ~ format_has_features drv t f c) ->
             vkx_find_supported_format drv cs t f w
             = Exit "Failed to find supported format").
  { intros cs t f H. unfold vkx_find_supported_format.
    destruct (find (format_supported drv t f) cs) as [c|] eqn:Hf; [|reflexivity].
    apply find_some in Hf. destruct Hf as (Hin & Hc).
    apply format_supported_iff in Hc. destruct (H c Hin Hc). }
  assert (Hfirst : forall before c after t f,
             format_has_features drv t f c ->
             (forall b, In b before -> ~ format_has_features drv t f b) ->
             found (vkx_find_supported_format drv (before ++ c :: after) t f w) c).
  { intros before c after t f Hc Hb. exists w. unfold vkx_find_supported_format.
    rewrite find_first_of_split; [reflexivity|now apply format_supported_iff|].
    intros b Hin. destruct (format_supported drv t f b) eqn:Hs; [|reflexivity].
    apply format_supported_iff in Hs. destruct (Hb b Hin Hs). }
  split; [|split; [|split; [|split; [|split; [|split]]]]].
  - intros before c after -> Hc Hb. apply Hfirst; assumption.
  - apply Hnone.
  - intros Hl Ho. apply Hnone. intros c _ [(Ht & _)|(Ht & _)]; contradiction.
  - intros H1. unfold vkx_find_depth_format, depth_capable in *.
    apply (Hfirst [] _ _ _ _ H1). intros b [].
  - intros H1 H2. unfold vkx_find_depth_format, depth_capable in *.
    apply (Hfirst [VK_FORMAT_D32_SFLOAT] _ _ _ _ H2).
    intros b [<-|[]]. exact H1.
  - intros H1 H2 H3. unfold vkx_find_depth_format, depth_capable in *.
    apply (Hfirst [VK_FORMAT_D32_SFLOAT; VK_FORMAT_D32_SFLOAT_S8_UINT] _ [] _ _ H3).
    intros b [<-|[<-|[]]]; assumption.
  - intros H1 H2 H3. unfold vkx_find_depth_format, depth_capable in *.
    apply Hnone. intros c [<-|[<-|[<-|[]]]]; assumption.
Qed.

(** X5. A one-shot layout transition of a supported pair allocates and
    begins a command buffer, records the one barrier, ends the buffer,
    submits it unfenced, waits for the queue to go idle and only then
    frees the buffer; nothing else is touched. An unsupported pair, or a
    failing [vkEndCommandBuffer], exits before anything is submitted. *)
Theorem vkx_transition_image_layout_tmp_buffer_one_shot
        (drv : Driver) (img fmt old_layout new_layout : Z) (w : World) :
  let cb := drv_single_time_command_buffer drv in
  let run := vkx_transition_image_layout_tmp_buffer drv img fmt old_layout new_layout w in
  (In (old_layout, new_layout) supported_transitions ->
   drv_vkEndCommandBuffer drv = VK_SUCCESS ->
   exists b w',
     run = Done (tt, w')
     /\ vkx_swap_chain w' = vkx_swap_chain w /\ frame_eq w w'
     /\ logged w w' [vkAllocateCommandBuffers; vkBeginCommandBuffer cb;
                     vkCmdPipelineBarrier2 cb b; vkEndCommandBuffer cb;
                     vkQueueSubmit cb None; vkQueueWaitIdle; vkFreeCommandBuffers cb]
     /\ oldLayout b = old_layout /\ newLayout b = new_layout /\ barrier_image b = img)
  /\ (~ In (old_layout, new_layout) supported_transitions ->
      run = Exit "Unsupported layout transition")
  /\ (In (old_layout, new_layout) supported_transitions ->
      drv_vkEndCommandBuffer drv <> VK_SUCCESS ->
      run = Exit "failed to record command buffer!").
Proof.
  intros cb run. subst run.
  unfold vkx_transition_image_layout_tmp_buffer, vkx_begin_single_time_commands,
    vkx_end_single_time_commands, vkx_transition_image_layout.
  fold cb.
  split; [|split].
  - intros Hin Hend. apply transition_masks_some in Hin.
    destruct Hin as ([[[a b] c] d] & Hm). rewrite Hend.
    unfold bind, call, ret. simpl. rewrite Hm. simpl.
    eexists. eexists. split; [reflexivity|]. simpl.
    split; [reflexivity|]. split; [repeat split; reflexivity|].
    split; [unfold logged; simpl; rewrite <- !app_assoc; reflexivity|].
    repeat split; reflexivity.
  - intros Hin. apply transition_masks_none in Hin.
    unfold bind, call, ret. simpl. rewrite Hin. reflexivity.
  - intros Hin Hend. apply transition_masks_some in Hin.
    destruct Hin as ([[[a b] c] d] & Hm). apply Z.eqb_neq in Hend.
    unfold bind, call, ret. simpl. rewrite Hm. simpl. rewrite Hend. reflexivity.
Qed.

Lemma find_memory_type_lowest (mp : VkPhysicalDeviceMemoryProperties)
      (type_filter properties m : Z) :
  memoryTypeCount mp <= 32 ->
  suitable_memory_type mp type_filter properties m ->
  (forall j, suitable_memory_type mp type_filter properties j -> m <= j) ->
  find (memory_type_matches mp type_filter properties)
       (index_range (memoryTypeCount mp)) = Some m.
Proof.
  intros Hn Hm Hlow.
  destruct (find (memory_type_matches mp type_filter properties)
                 (index_range (memoryTypeCount mp))) as [m'|] eqn:Hf.
  - destruct (find_index_range_some _ _ _ Hf) as (Hr & Hp & Hbelow).
    apply memory_type_matches_iff in Hp; [|exact Hn|exact Hr].
    assert (Hle : m <= m') by (apply Hlow; exact Hp).
    destruct (Z.eq_dec m m') as [->|Hne]; [reflexivity|].
    assert (Hm' := Hm). destruct Hm' as (Hmr & _).
    apply memory_type_matches_iff in Hm; [|exact Hn|exact Hmr].
    rewrite Hbelow in Hm by lia. discriminate.
  - assert (Hm' := Hm). destruct Hm' as (Hmr & _).
    apply memory_type_matches_iff in Hm; [|exact Hn|exact Hmr].
    rewrite (find_index_range_none _ _ Hf) in Hm by lia. discriminate.
Qed.

Lemma find_memory_type_none (mp : VkPhysicalDeviceMemoryProperties)
      (type_filter properties : Z) :
  memoryTypeCount mp <= 32 ->
  (forall j, ~ suitable_memory_type mp type_filter properties j) ->
  find (memory_type_matches mp type_filter properties)
       (index_range (memoryTypeCount mp)) = None.
Proof.
  intros Hn Hnone.
  destruct (find (memory_type_matches mp type_filter properties)
                 (index_range (memoryTypeCount mp))) as [m'|] eqn:Hf; [|reflexivity].
  destruct (find_index_range_some _ _ _ Hf) as (Hr & Hp & _).
  apply memory_type_matches_iff in Hp; [|exact Hn|exact Hr].
  destruct (Hnone m' Hp).
Qed.

(** X6. [vkx_create_image] has two exits: when [vkCreateImage] fails and
    when no memory type suits the image. Otherwise it asks
    [vkAllocateMemory] for the lowest suitable memory type and, whatever
    the result of that call (a failure is printed and nothing more; there
    is no exit as in [vkx_create_buffer]), binds the memory handle the
    call answered and returns the image with that handle and a null view.
    Cleaning such an image up destroys the image, frees that handle and
    destroys no view. *)
Theorem vkx_create_image_result
        (drv : Driver) (width height fmt tiling usage properties : Z) (w : World) :
  memoryTypeCount (drv_mem_properties drv) <= 32 ->
  let result := fst (drv_vkCreateImage drv width height fmt) in
  let img := snd (drv_vkCreateImage drv width height fmt) in
  let suitable :=
    suitable_memory_type (drv_mem_properties drv) (drv_image_memoryTypeBits drv img)
                         properties in
  let run := vkx_create_image drv width height fmt tiling usage properties w in
  (result <> VK_SUCCESS -> run = Exit "Failed to create image!")
  /\ (result = VK_SUCCESS -> (forall j, ~ suitable j) ->
      run = Exit "failed to find suitable memory type!")
  /\ (result = VK_SUCCESS ->
      forall m, suitable m -> (forall j, suitable j -> m <= j) ->
      forall allocation mem, drv_vkAllocateMemory drv m = (allocation, mem) ->
        exists w' w'',
          run = Done (mkVkxImage img mem VK_NULL_HANDLE, w')
          /\ logged w w' [vkCreateImage width height fmt tiling usage;
                          vkAllocateMemory m; vkBindImageMemory img mem]
          /\ vkx_cleanup_image (mkVkxImage img mem VK_NULL_HANDLE) w'
             = Done (mkVkxImage VK_NULL_HANDLE VK_NULL_HANDLE VK_NULL_HANDLE, w'')
          /\ logged w' w'' [vkDestroyImage img; vkFreeMemory mem])
  /\ (forall msg, run = Exit msg ->
        (msg = "Failed to create image!" /\ result <> VK_SUCCESS)
        \/ (msg = "failed to find suitable memory type!" /\ result = VK_SUCCESS))
  /\ run <> Blocked.
Proof.
  intros Hn result img suitable run. subst run result img suitable.
  unfold vkx_create_image, vkx_find_memory_type. cbv zeta.
  destruct (drv_vkCreateImage drv width height fmt) as [r i]. simpl fst. simpl snd.
  split; [|split; [|split; [|split]]].
  - intros Hr. apply Z.eqb_neq in Hr. unfold bind, call. simpl. rewrite Hr. reflexivity.
  - intros -> Hnone. unfold bind, call. simpl.
    rewrite (find_memory_type_none _ _ _ Hn Hnone). reflexivity.
  - intros -> m Hm Hlow allocation mem Halloc. unfold bind, call, ret. simpl.
    rewrite (find_memory_type_lowest _ _ _ _ Hn Hm Hlow). simpl.
    rewrite Halloc.
    eexists. eexists. split; [reflexivity|].
    split; [unfold logged; simpl; rewrite <- !app_assoc; reflexivity|].
    split; [reflexivity|].
    unfold logged. simpl. rewrite <- !app_assoc. reflexivity.
  - intros msg. unfold bind, call, ret, exit. simpl.
    destruct (Z.eqb_spec r VK_SUCCESS) as [Hr|Hr]; simpl.
    + destruct (find _ _) as [m|]; simpl.
      * destruct (drv_vkAllocateMemory drv m) as [ar mem]. discriminate.
      * intros [= <-]. right. split; [reflexivity|exact Hr].
    + intros [= <-]. left. split; [reflexivity|exact Hr].
  - unfold bind, call, ret, exit. simpl.
    destruct (r =? VK_SUCCESS); simpl; [|discriminate].
    destruct (find _ _) as [m|]; simpl; [|discriminate].
    destruct (drv_vkAllocateMemory drv m) as [ar mem]. discriminate.
Qed.

Lemma vkx_create_image_result_witness :
  exists w',
    vkx_create_image example_driver 800 600 VK_FORMAT_D24_UNORM_S8_UINT
      VK_IMAGE_TILING_OPTIMAL VK_IMAGE_USAGE_DEPTH_STENCIL_ATTACHMENT_BIT
      VK_MEMORY_PROPERTY_DEVICE_LOCAL_BIT (example_world false false 0)
    = Done (mkVkxImage 500 600 VK_NULL_HANDLE, w').
Proof.
  destruct (vkx_create_image_result example_driver 800 600 VK_FORMAT_D24_UNORM_S8_UINT
              VK_IMAGE_TILING_OPTIMAL VK_IMAGE_USAGE_DEPTH_STENCIL_ATTACHMENT_BIT
              VK_MEMORY_PROPERTY_DEVICE_LOCAL_BIT (example_world false false 0))
    as (_ & _ & Hok & _).
  - vm_compute. discriminate.
  - destruct (Hok eq_refl 1) with (allocation := VK_SUCCESS) (mem := 600)
      as (w' & _ & Hrun & _).
    + split; [simpl; lia|]. split; [reflexivity|]. intros n _ Hb. exact Hb.
    + intros j (Hr & Hbit & _). simpl in Hr.
      assert (Hj : j = 0 \/ j = 1 \/ j = 2) by lia.
      destruct Hj as [-> | [-> | ->]]; [discriminate Hbit|lia|lia].
    + reflexivity.
    + exists w'. exact Hrun.
Defined.

(** ** Recording a frame *)

Section Recording.
Variable drv : Driver.
Variable ans : FrameAnswers.

Lemma record_command_buffer_begin_fails (cb image_index : Z) (w : World) :
  ans_begin ans <> VK_SUCCESS ->
  record_command_buffer drv ans cb image_index w
  = Exit "failed to begin recording command buffer!".
Proof.
  intros Hb. apply Z.eqb_neq in Hb.
  unfold record_command_buffer, check, bind, call. simpl. rewrite Hb. reflexivity.
Qed.

Lemma record_command_buffer_end_fails (cb image_index : Z) (w : World) :
  ans_begin ans = VK_SUCCESS -> ans_end ans <> VK_SUCCESS ->
  record_command_buffer drv ans cb image_index w
  = Exit "failed to record command buffer!".
Proof.
  intros Hb He. apply Z.eqb_neq in He.
  unfold record_command_buffer, check, vkx_transition_image_layout, bind, call, ret,
    get_swap_chain, get_current_frame, exit.
  simpl. rewrite Hb, He. reflexivity.
Qed.

Lemma record_command_buffer_run (cb image_index : Z) (w : World) :
  ans_begin ans = VK_SUCCESS -> ans_end ans = VK_SUCCESS ->
  exists w',
    record_command_buffer drv ans cb image_index w = Done (tt, w')
    /\ vkx_swap_chain w' = vkx_swap_chain w /\ frame_eq w w'
    /\ logged w w'
         (recorded_calls cb (at_index (images (vkx_swap_chain w)) image_index)
                         (at_index (image_views (vkx_swap_chain w)) image_index)
                         (image_format (vkx_swap_chain w))
                         (at_index (drv_offscreen_images drv) (current_frame w))).
Proof.
  intros Hb He.
  unfold record_command_buffer, check, vkx_transition_image_layout, bind, call, ret,
    get_swap_chain, get_current_frame.
  simpl. rewrite Hb, He. simpl.
  eexists. split; [reflexivity|]. simpl.
  split; [reflexivity|]. split; [repeat split; reflexivity|].
  unfold logged, recorded_calls. simpl. rewrite <- !app_assoc. reflexivity.
Qed.

Lemma record_command_buffer_Done (cb image_index : Z) (w : World) (a : unit) (w' : World) :
  record_command_buffer drv ans cb image_index w = Done (a, w') ->
  ans_begin ans = VK_SUCCESS /\ ans_end ans = VK_SUCCESS
  /\ vkx_swap_chain w' = vkx_swap_chain w /\ frame_eq w w'
  /\ logged w w'
       (recorded_calls cb (at_index (images (vkx_swap_chain w)) image_index)
                       (at_index (image_views (vkx_swap_chain w)) image_index)
                       (image_format (vkx_swap_chain w))
                       (at_index (drv_offscreen_images drv) (current_frame w))).
Proof.
  intros H.
  destruct (Z.eq_dec (ans_begin ans) VK_SUCCESS) as [Hb|Hb];
    [|rewrite (record_command_buffer_begin_fails _ _ _ Hb) in H; discriminate].
  destruct (Z.eq_dec (ans_end ans) VK_SUCCESS) as [He|He];
    [|rewrite (record_command_buffer_end_fails _ _ _ Hb He) in H; discriminate].
  destruct (record_command_buffer_run cb image_index w Hb He) as (w1 & Hrun & Hfacts).
  rewrite Hrun in H. injection H as _ <-. tauto.
Qed.
End Recording.

Lemma recorded_calls_layouts (cb img v fmt offscreen : Z) :
  img <> offscreen ->
  let l := recorded_calls cb img v fmt offscreen in
  track_layout img l VK_IMAGE_LAYOUT_PRESENT_SRC_KHR
  = Some VK_IMAGE_LAYOUT_PRESENT_SRC_KHR
  /\ track_layout offscreen l VK_IMAGE_LAYOUT_SHADER_READ_ONLY_OPTIMAL
     = Some VK_IMAGE_LAYOUT_SHADER_READ_ONLY_OPTIMAL
  /\ track_layout img l VK_IMAGE_LAYOUT_UNDEFINED = None.
Proof.
  intros Hne.
  assert (Hne1 : (offscreen =? img) = false) by (apply Z.eqb_neq; congruence).
  assert (Hne2 : (img =? offscreen) = false) by (apply Z.eqb_neq; congruence).
  unfold recorded_calls. simpl. rewrite !Z.eqb_refl, ?Hne1, ?Hne2. simpl.
  rewrite ?Z.eqb_refl, ?Hne1, ?Hne2. simpl. auto.
Qed.

(** X7. [record_command_buffer] exits when beginning or ending the command
    buffer fails and otherwise returns: none of its four layout
    transitions is an unsupported one. It touches nothing but the log, and
    its barriers take the swapchain image from PRESENT_SRC to
    COLOR_ATTACHMENT_OPTIMAL and back, and the offscreen image from
    SHADER_READ_ONLY_OPTIMAL to COLOR_ATTACHMENT_OPTIMAL and back: every
    barrier names the layout its image is in, both images end in the
    layout they started in, and a swapchain image that is not in
    PRESENT_SRC does not fit the first barrier. *)
Theorem record_command_buffer_layout_round_trip
        (drv : Driver) (ans : FrameAnswers) (cb image_index : Z) (w : World) :
  let sc := vkx_swap_chain w in
  let img := at_index (images sc) image_index in
  let offscreen := at_index (drv_offscreen_images drv) (current_frame w) in
  let run := record_command_buffer drv ans cb image_index w in
  (ans_begin ans <> VK_SUCCESS ->
   run = Exit "failed to begin recording command buffer!")
  /\ (ans_begin ans = VK_SUCCESS -> ans_end ans <> VK_SUCCESS ->
      run = Exit "failed to record command buffer!")
  /\ (ans_begin ans = VK_SUCCESS -> ans_end ans = VK_SUCCESS ->
      let l := recorded_calls cb img (at_index (image_views sc) image_index)
                              (image_format sc) offscreen in
      exists w',
        run = Done (tt, w')
        /\ vkx_swap_chain w' = sc /\ frame_eq w w' /\ logged w w' l
        /\ (img <> offscreen ->
            track_layout img l VK_IMAGE_LAYOUT_PRESENT_SRC_KHR
            = Some VK_IMAGE_LAYOUT_PRESENT_SRC_KHR
            /\ track_layout offscreen l VK_IMAGE_LAYOUT_SHADER_READ_ONLY_OPTIMAL
               = Some VK_IMAGE_LAYOUT_SHADER_READ_ONLY_OPTIMAL
            /\ track_layout img l VK_IMAGE_LAYOUT_UNDEFINED = None)).
Proof.
  intros sc img offscreen run. subst run.
  split; [apply record_command_buffer_begin_fails|].
  split; [apply record_command_buffer_end_fails|].
  intros Hb He l.
  destruct (record_command_buffer_run drv ans cb image_index w Hb He)
    as (w' & Hrun & Hsc & Hf & Hl).
  exists w'. split; [exact Hrun|]. split; [exact Hsc|]. split; [exact Hf|].
  split; [exact Hl|]. intros Hne. apply recorded_calls_layouts. exact Hne.
Qed.

(** ** What swapchain creation logs, and the views it makes *)

Lemma call_logged (c : Call) (w : World) (a : unit) (w' : World) :
  call c w = Done (a, w') -> logged w w' [c].
Proof. intros [= <- <-]. reflexivity. Qed.

Lemma check_logged (result : Z) (msg : string) (w : World) (a : unit) (w' : World) :
  check result msg w = Done (a, w') -> logged w w' [].
Proof.
  unfold check. destruct (negb (result =? VK_SUCCESS)); [discriminate|].
  intros [= <- <-]. apply logged_refl.
Qed.

Lemma modify_logged (f : VkxSwapChain -> VkxSwapChain) (w : World) (a : unit) (w' : World) :
  modify_swap_chain f w = Done (a, w') -> logged w w' [].
Proof. intros [= <- <-]. unfold logged. simpl. now rewrite app_nil_r. Qed.

Lemma for_each_call_logged {A} (f : A -> Call) (l : list A)
      (w : World) (a : unit) (w' : World) :
  for_each l (fun x => call (f x)) w = Done (a, w') -> logged w w' (map f l).
Proof.
  intros H. destruct (for_each_call_run f l w) as (w1 & Hrun & _ & _ & Hl).
  rewrite Hrun in H. injection H as _ <-. exact Hl.
Qed.

Lemma vkx_create_image_view_Done (drv : Driver) (img fmt aspect : Z)
      (w : World) (v : Z) (w' : World) :
  vkx_create_image_view drv img fmt aspect w = Done (v, w') ->
  v = snd (drv_vkCreateImageView drv img fmt aspect)
  /\ fst (drv_vkCreateImageView drv img fmt aspect) = VK_SUCCESS
  /\ w' = with_call (vkCreateImageView img fmt aspect) w.
Proof.
  unfold vkx_create_image_view, bind, call.
  destruct (drv_vkCreateImageView drv img fmt aspect) as [r h]. simpl.
  destruct (Z.eqb_spec r VK_SUCCESS) as [->|Hne]; simpl; [|discriminate].
  intros [= <- <-]. auto.
Qed.

Lemma map_m_views_Done (drv : Driver) (fmt aspect : Z) (imgs : list Z) :
  forall (w : World) (vs : list Z) (w' : World),
    map_m imgs (fun img => vkx_create_image_view drv img fmt aspect) w = Done (vs, w') ->
    vs = map (fun img => snd (drv_vkCreateImageView drv img fmt aspect)) imgs
    /\ logged w w' (map (fun img => vkCreateImageView img fmt aspect) imgs).
Proof.
  induction imgs as [|img imgs IH]; intros w vs w'; simpl.
  - intros [= <- <-]. split; [reflexivity|apply logged_refl].
  - intros H. apply bind_Done in H. destruct H as (v & w1 & Hv & H).
    apply bind_Done in H. destruct H as (vs' & w2 & Hvs & H).
    injection H as <- <-.
    apply vkx_create_image_view_Done in Hv. destruct Hv as (-> & _ & ->).
    apply IH in Hvs. destruct Hvs as (-> & Hl).
    split; [reflexivity|].
    unfold logged in *. simpl in Hl. rewrite Hl, <- app_assoc. reflexivity.
Qed.

Lemma establishes_bind_result {A B} (Q : VkxSwapChain -> Prop) (R : A -> Prop)
      (c : M A) (k : A -> M B) :
  (forall w a w1, c w = Done (a, w1) -> R a) ->
  (forall a, R a -> establishes Q (k a)) ->
  establishes Q (bind c k).
Proof.
  intros Hc Hk w b w' Hb. apply bind_Done in Hb.
  destruct Hb as (a & w1 & H1 & H2). eapply Hk; eauto.
Qed.

Section CreatedState.
Variable drv : Driver.

Let support := drv_swap_chain_support drv.
Let ext := vkx_choose_swap_extent (drv_window_size drv) (capabilities support).
Let info := swap_chain_create_info support (drv_queue_families drv) ext.
Let handle := snd (drv_vkCreateSwapchainKHR drv info).
Let imgs := drv_vkGetSwapchainImagesKHR drv handle.
Let fmt := format (choose_surface_format (formats support)).

Lemma create_sets_swap_chain_handle (d : bool) :
  establishes (fun sc => swap_chain sc = handle) (vkx_create_swap_chain drv d).
Proof.
  unfold vkx_create_swap_chain, handle, info, ext, support. cbv zeta. sets.
Qed.

Lemma create_sets_image_views (d : bool) :
  establishes
    (fun sc => image_views sc
               = map (fun img => snd (drv_vkCreateImageView drv img fmt
                                                             VK_IMAGE_ASPECT_COLOR_BIT))
                     imgs)
    (vkx_create_swap_chain drv d).
Proof.
  unfold vkx_create_swap_chain, imgs, handle, fmt, info, ext, support. cbv zeta.
  destruct (formats_count (drv_swap_chain_support drv) =? 0); [apply establishes_exit|].
  destruct (present_modes_count (drv_swap_chain_support drv) =? 0);
    [apply establishes_exit|].
  do 2 (apply establishes_later; intros _).
  match goal with
  | |- context [drv_vkCreateSwapchainKHR drv ?i] =>
      destruct (drv_vkCreateSwapchainKHR drv i) as [r h]
  end.
  simpl snd.
  do 11 (apply establishes_later; intros _).
  apply (establishes_bind_result _
           (fun vs => vs = map (fun img =>
                                  snd (drv_vkCreateImageView drv img
                                         (format (choose_surface_format
                                                    (formats (drv_swap_chain_support drv))))
                                         VK_IMAGE_ASPECT_COLOR_BIT))
                               (drv_vkGetSwapchainImagesKHR drv h))).
  - intros w vs w1 H. apply map_m_views_Done in H. tauto.
  - intros vs ->. apply establishes_then.
    + apply establishes_modify. intros sc. reflexivity.
    + intros _. keeps.
Qed.

Lemma create_log_no_depth (w w' : World) :
  vkx_create_swap_chain drv false w = Done (tt, w') ->
  let cb := at_index (drv_command_buffers drv) 0 in
  logged w w'
    ([vkCreateSwapchainKHR info; vkResetCommandBuffer cb; vkBeginCommandBuffer cb]
       ++ map (fun img => vkCmdPipelineBarrier cb img VK_IMAGE_LAYOUT_UNDEFINED
                                               VK_IMAGE_LAYOUT_PRESENT_SRC_KHR) imgs
       ++ [vkEndCommandBuffer cb; vkQueueSubmit cb None]
       ++ map (fun img => vkCreateImageView img fmt VK_IMAGE_ASPECT_COLOR_BIT) imgs
       ++ [vkQueueWaitIdle]).
Proof.
  intros H cb. unfold imgs, handle, fmt, info, ext, support.
  unfold vkx_create_swap_chain in H. cbv zeta in H.
  destruct (formats_count (drv_swap_chain_support drv) =? 0); [discriminate|].
  destruct (present_modes_count (drv_swap_chain_support drv) =? 0); [discriminate|].
  apply bind_Done in H. destruct H as (? & w1 & K1 & H). apply modify_logged in K1.
  apply bind_Done in H. destruct H as (? & w2 & K2 & H). apply call_logged in K2.
  match type of H with
  | context [drv_vkCreateSwapchainKHR drv ?i] =>
      destruct (drv_vkCreateSwapchainKHR drv i) as [r h]
  end.
  simpl snd.
  apply bind_Done in H. destruct H as (? & w3 & K3 & H). apply check_logged in K3.
  apply bind_Done in H. destruct H as (? & w4 & K4 & H). apply modify_logged in K4.
  apply bind_Done in H. destruct H as (? & w5 & K5 & H). apply call_logged in K5.
  apply bind_Done in H. destruct H as (? & w6 & K6 & H). apply check_logged in K6.
  apply bind_Done in H. destruct H as (? & w7 & K7 & H). apply call_logged in K7.
  apply bind_Done in H. destruct H as (? & w8 & K8 & H). apply check_logged in K8.
  apply bind_Done in H. destruct H as (? & w9 & K9 & H).
  apply for_each_call_logged in K9.
  apply bind_Done in H. destruct H as (? & w10 & K10 & H). apply call_logged in K10.
  apply bind_Done in H. destruct H as (? & w11 & K11 & H). apply check_logged in K11.
  apply bind_Done in H. destruct H as (? & w12 & K12 & H). apply call_logged in K12.
  apply bind_Done in H. destruct H as (? & w13 & K13 & H). apply check_logged in K13.
  apply bind_Done in H. destruct H as (vs & w14 & K14 & H).
  apply map_m_views_Done in K14. destruct K14 as (_ & K14).
  apply bind_Done in H. destruct H as (? & w15 & K15 & H). apply modify_logged in K15.
  apply bind_Done in H. destruct H as (? & w16 & K16 & H). apply call_logged in K16.
  apply bind_Done in H. destruct H as (? & w17 & K17 & H). apply modify_logged in K17.
  apply bind_Done in H. destruct H as (? & w18 & K18 & H). apply modify_logged in K18.
  simpl in H. injection H as <-.
  unfold logged in *.
  rewrite K18, K17, K16, K15, K14, K13, K12, K11, K10, K9, K8, K7, K6, K5, K4, K3, K2, K1.
  rewrite ?app_nil_r, <- !app_assoc. reflexivity.
Qed.
End CreatedState.

Lemma track_layout_app (img : Z) (l1 l2 : list Call) (current : Z) :
  track_layout img (l1 ++ l2) current
  = match track_layout img l1 current with
    | Some layout => track_layout img l2 layout
    | None => None
    end.
Proof.
  revert current. induction l1 as [|c l1 IH]; intros current; simpl; [reflexivity|].
  destruct c; auto.
  - destruct (img0 =? img); auto. destruct (old_layout =? current); auto.
  - destruct (barrier_image b =? img); auto. destruct (oldLayout b =? current); auto.
Qed.

Lemma track_layout_other_images (img cb old_layout new_layout : Z) (l : list Z)
      (current : Z) :
  ~ In img l ->
  track_layout img (map (fun i => vkCmdPipelineBarrier cb i old_layout new_layout) l)
               current
  = Some current.
Proof.
  induction l as [|i l IH]; intros Hin; simpl; [reflexivity|].
  destruct (Z.eqb_spec i img) as [->|Hne].
  - exfalso. apply Hin. now left.
  - apply IH. intros H. apply Hin. now right.
Qed.

Lemma track_layout_one_barrier_each (img cb old_layout new_layout : Z) (l : list Z) :
  NoDup l -> In img l ->
  track_layout img (map (fun i => vkCmdPipelineBarrier cb i old_layout new_layout) l)
               old_layout
  = Some new_layout.
Proof.
  induction 1 as [|i l Hni Hnd IH]; intros Hin; [destruct Hin|]. simpl.
  destruct (Z.eqb_spec i img) as [->|Hne].
  - rewrite Z.eqb_refl. apply track_layout_other_images. exact Hni.
  - destruct Hin as [Heq|Hin]; [contradiction|]. apply IH. exact Hin.
Qed.

Lemma track_layout_views (img fmt aspect : Z) (l : list Z) (current : Z) :
  track_layout img (map (fun i => vkCreateImageView i fmt aspect) l) current
  = Some current.
Proof. induction l as [|i l IH]; simpl; auto. Qed.

(** X8. A swapchain creation without depth image that returns has logged,
    in this order: the creation request, one UNDEFINED to PRESENT_SRC
    barrier per image the driver handed out, recorded in command buffer 0
    and submitted, one view creation per image, and the queue-idle wait.
    (The log leaves out what only asks: [vkx_query_swap_chain_support],
    [vkx_find_queue_families], [SDL_GetWindowSize] and
    [vkGetSwapchainImagesKHR], whose answers are fields of the driver.)
    The record then holds the handle and the images of the driver, the
    extent and format of the request, and a view array parallel to the
    image array (entry i is the view made for image i); with distinct image
    handles every image is in PRESENT_SRC layout. *)
Theorem vkx_create_swap_chain_images_views_layouts (drv : Driver) (w w' : World) :
  vkx_create_swap_chain drv false w = Done (tt, w') ->
  let sc := vkx_swap_chain w' in
  let support := drv_swap_chain_support drv in
  let info := swap_chain_create_info support (drv_queue_families drv)
                (vkx_choose_swap_extent (drv_window_size drv) (capabilities support)) in
  let cb := at_index (drv_command_buffers drv) 0 in
  let l := [vkCreateSwapchainKHR info; vkResetCommandBuffer cb; vkBeginCommandBuffer cb]
             ++ map (fun img => vkCmdPipelineBarrier cb img VK_IMAGE_LAYOUT_UNDEFINED
                                                     VK_IMAGE_LAYOUT_PRESENT_SRC_KHR)
                    (images sc)
             ++ [vkEndCommandBuffer cb; vkQueueSubmit cb None]
             ++ map (fun img => vkCreateImageView img (image_format sc)
                                                  VK_IMAGE_ASPECT_COLOR_BIT) (images sc)
             ++ [vkQueueWaitIdle] in
  logged w w' l
  /\ swap_chain sc = snd (drv_vkCreateSwapchainKHR drv info)
  /\ images sc = drv_vkGetSwapchainImagesKHR drv (swap_chain sc)
  /\ extent sc = ci_imageExtent info
  /\ image_format sc = ci_imageFormat info
  /\ image_views sc
     = map (fun img => snd (drv_vkCreateImageView drv img (image_format sc)
                                                  VK_IMAGE_ASPECT_COLOR_BIT))
           (images sc)
  /\ List.length (image_views sc) = List.length (images sc)
  /\ (NoDup (images sc) ->
      forall img, In img (images sc) ->
                  track_layout img l VK_IMAGE_LAYOUT_UNDEFINED
                  = Some VK_IMAGE_LAYOUT_PRESENT_SRC_KHR).
Proof.
  intros H sc support info cb l. subst l sc.
  pose proof (create_log_no_depth drv _ _ H) as Hlog. cbv zeta in Hlog.
  pose proof (create_sets_swap_chain_handle drv _ _ _ _ H) as Hh. cbv beta in Hh.
  pose proof (create_sets_images drv _ _ _ _ H) as Hi. cbv beta in Hi.
  pose proof (create_sets_extent drv _ _ _ _ H) as He. cbv beta in He.
  pose proof (create_sets_image_format drv _ _ _ _ H) as Hf. cbv beta in Hf.
  pose proof (create_sets_image_views drv _ _ _ _ H) as Hv. cbv beta in Hv.
  fold support in Hlog, Hh, Hi, He, Hf, Hv. fold info in Hlog, Hh, Hi, Hv.
  rewrite <- Hh in Hi. rewrite <- Hh, <- Hi, <- Hf in Hv, Hlog.
  split; [exact Hlog|]. split; [exact Hh|]. split; [exact Hi|].
  split; [exact He|]. split; [exact Hf|]. split; [exact Hv|].
  split; [rewrite Hv; apply length_map|].
  intros Hnd img Hin. simpl.
  rewrite track_layout_app, (track_layout_one_barrier_each _ _ _ _ _ Hnd Hin).
  simpl. rewrite track_layout_app, track_layout_views. reflexivity.
Qed.

Lemma vkx_create_swap_chain_images_views_layouts_witness :
  exists w',
    vkx_create_swap_chain example_driver false (example_world false false 0)
    = Done (tt, w')
    /\ images (vkx_swap_chain w') = [101; 102; 103]
    /\ List.length (image_views (vkx_swap_chain w')) = 3%nat
    /\ track_layout 102 (calls w') VK_IMAGE_LAYOUT_UNDEFINED
       = Some VK_IMAGE_LAYOUT_PRESENT_SRC_KHR.
Proof.
  destruct (vkx_create_swap_chain example_driver false (example_world false false 0))
    as [[[] w']| |] eqn:Hrun; [|vm_compute in Hrun; discriminate ..].
  destruct (vkx_create_swap_chain_images_views_layouts example_driver _ _ Hrun)
    as (Hl & Hh & Hi & _ & _ & _ & Hlen & Htrack).
  assert (Himgs : images (vkx_swap_chain w') = [101; 102; 103]).
  { rewrite Hi. reflexivity. }
  exists w'. split; [reflexivity|]. split; [exact Himgs|].
  split; [rewrite Hlen, Himgs; reflexivity|].
  unfold logged in Hl. simpl in Hl. rewrite Hl. apply Htrack.
  - rewrite Himgs. repeat constructor; simpl; intuition discriminate.
  - rewrite Himgs. simpl. auto.
Defined.

(** ** Tear-down after creation *)




(** ** Frames one after another *)

Lemma never_blocks_bind {A B} (c : M A) (k : A -> M B) :
  never_blocks c -> (forall a, never_blocks (k a)) -> never_blocks (bind c k).
Proof.
  intros Hc Hk w. unfold bind. destruct (c w) as [[a w1]| |] eqn:E.
  - apply Hk.
  - discriminate.
  - destruct (Hc w E).
Qed.

Lemma never_blocks_for_each {A} (l : list A) (body : A -> M unit) :
  (forall x, never_blocks (body x)) -> never_blocks (for_each l body).
Proof.
  intros Hb. induction l as [|x l IH]; simpl.
  - intros w. discriminate.
  - apply never_blocks_bind; auto.
Qed.

Lemma never_blocks_map_m {A B} (l : list A) (body : A -> M B) :
  (forall x, never_blocks (body x)) -> never_blocks (map_m l body).
Proof.
  intros Hb. induction l as [|x l IH]; simpl.
  - intros w. discriminate.
  - apply never_blocks_bind; auto. intros y.
    apply never_blocks_bind; auto. intros ys w. discriminate.
Qed.

(** Everything but the fence wait is built from steps that return or
    exit at once. *)
Ltac calm_step :=
  first
    [ apply never_blocks_bind; [|intros ?]
    | apply never_blocks_for_each; intros ?
    | apply never_blocks_map_m; intros ?
    | match goal with
      | |- never_blocks (if ?c then _ else _) => destruct c
      | |- never_blocks (match ?x with _ => _ end) => destruct x
      | |- never_blocks (when ?b _) => destruct b; simpl
      end
    | solve [intros ?; discriminate] ].

Ltac calm := repeat calm_step.

Lemma never_blocks_vkx_recreate_swap_chain (drv : Driver) :
  never_blocks (vkx_recreate_swap_chain drv).
Proof.
  unfold vkx_recreate_swap_chain, vkx_cleanup_swap_chain, vkx_create_swap_chain,
    create_depth_resources, vkx_cleanup_image, vkx_create_image_view, vkx_create_image,
    vkx_find_depth_format, vkx_find_supported_format, vkx_find_memory_type,
    vkx_transition_image_layout_tmp_buffer, vkx_begin_single_time_commands,
    vkx_end_single_time_commands, vkx_transition_image_layout, check, modify_swap_chain.
  cbv zeta. calm.
Qed.

Lemma recreations_none (l : list Call) : Forall not_recreation l -> recreations l = 0%nat.
Proof.
  induction 1 as [|c l Hc _ IH]; simpl; auto.
  destruct c; auto. destruct (Hc eq_refl).
Qed.

Lemma length_update_nth {A} (n : nat) (x : A) (l : list A) :
  List.length (update_nth n x l) = List.length l.
Proof.
  revert n. induction l as [|y l IH]; intros [|n]; simpl; auto.
Qed.

Lemma Forall_update_nth {A} (P : A -> Prop) (n : nat) (x : A) (l : list A) :
  Forall P l -> P x -> Forall P (update_nth n x l).
Proof.
  intros Hl Hx. revert n. induction Hl as [|y l Hy Hl IH]; intros [|n]; simpl; auto.
Qed.

Lemma update_nth_twice {A} (n : nat) (x y : A) (l : list A) :
  update_nth n x (update_nth n y l) = update_nth n x l.
Proof.
  revert n. induction l as [|z l IH]; intros [|n]; simpl; auto. now rewrite IH.
Qed.

Section OneFrame.
Variable drv : Driver.

(** A recreation that returns kept the per-frame globals and the depth
    setting and logged one device-idle wait. *)
Lemma recreate_keeps (w w' : World) :
  vkx_recreate_swap_chain drv w = Done (tt, w') ->
  frame_eq w w'
  /\ has_depth_image (vkx_swap_chain w') = has_depth_image (vkx_swap_chain w)
  /\ exists l, logged w w' l /\ recreations l = 1%nat.
Proof.
  intros H. destruct (recreate_once drv _ _ H) as (Hf & Hl).
  split; [exact Hf|]. split; [|exact Hl].
  destruct (vkx_recreate_swap_chain_steps drv _ _ H) as (w1 & _ & _ & _ & Hc).
  exact (create_sets_has_depth_image drv _ _ _ _ Hc).
Qed.

(** What lines 929-957 leave when the resize flag is clear. *)
Lemma after_present_no_resize (result : Z) (w w' : World) :
  framebuffer_resized w = false ->
  after_present drv result w = Done (tt, w') ->
  let n := if result =? VK_SUBOPTIMAL_KHR
           then wrap32 (suboptimal_swapchain_count w + 1) else 0 in
  (SUBOPTIMAL_SWAPCHAIN_THRESHOLD <= n ->
   vkx_recreate_swap_chain drv
     (with_suboptimal_swapchain_count 0 (with_suboptimal_swapchain_count n w))
   = Done (tt, w'))
  /\ (n < SUBOPTIMAL_SWAPCHAIN_THRESHOLD -> result = VK_ERROR_OUT_OF_DATE_KHR ->
      vkx_recreate_swap_chain drv (with_suboptimal_swapchain_count n w) = Done (tt, w'))
  /\ (n < SUBOPTIMAL_SWAPCHAIN_THRESHOLD -> result <> VK_ERROR_OUT_OF_DATE_KHR ->
      w' = with_suboptimal_swapchain_count n w
      /\ (result = VK_SUCCESS \/ result = VK_SUBOPTIMAL_KHR)).
Proof.
  intros Hr H n. rewrite after_present_unfold in H. fold n in H.
  set (w1 := with_suboptimal_swapchain_count n w) in *.
  split; [|split].
  - intros Hn. rewrite (handle_present_result_threshold drv result w1 Hr Hn) in H.
    exact H.
  - intros Hn He. rewrite (handle_present_result_below drv result w1 Hr Hn), He in H.
    exact H.
  - intros Hn He. rewrite (handle_present_result_below drv result w1 Hr Hn) in H.
    apply Z.eqb_neq in He. rewrite He in H.
    destruct (Z.eqb_spec result VK_SUBOPTIMAL_KHR) as [Hs|Hs]; simpl in H.
    + injection H as <-. auto.
    + destruct (Z.eqb_spec result VK_SUCCESS) as [Hs'|Hs']; simpl in H;
        [|discriminate].
      injection H as <-. auto.
Qed.

(** Lines 929-957 leave fences, frame counter and depth setting alone. *)
Lemma after_present_keeps (result : Z) (w w' : World) :
  after_present drv result w = Done (tt, w') ->
  in_flight_fences w' = in_flight_fences w
  /\ current_frame w' = current_frame w
  /\ has_depth_image (vkx_swap_chain w') = has_depth_image (vkx_swap_chain w).
Proof.
  intros H. rewrite after_present_unfold in H.
  set (w1 := with_suboptimal_swapchain_count _ w) in H.
  assert (Hrec : forall v, in_flight_fences v = in_flight_fences w ->
                           current_frame v = current_frame w ->
                           has_depth_image (vkx_swap_chain v)
                           = has_depth_image (vkx_swap_chain w) ->
                           vkx_recreate_swap_chain drv v = Done (tt, w') ->
                           in_flight_fences w' = in_flight_fences w
                           /\ current_frame w' = current_frame w
                           /\ has_depth_image (vkx_swap_chain w')
                              = has_depth_image (vkx_swap_chain w)).
  { intros v Hf Hc Hd Hv. destruct (recreate_keeps _ _ Hv) as ((Hf' & Hc' & _) & Hd' & _).
    repeat split; congruence. }
  destruct (framebuffer_resized w) eqn:Hr.
  - rewrite (handle_present_result_resized drv result w1 Hr) in H.
    eapply Hrec; [| | |exact H]; reflexivity.
  - destruct (Z_le_gt_dec SUBOPTIMAL_SWAPCHAIN_THRESHOLD (suboptimal_swapchain_count w1))
      as [Hn|Hn].
    + rewrite (handle_present_result_threshold drv result w1 Hr Hn) in H.
      eapply Hrec; [| | |exact H]; reflexivity.
    + rewrite (handle_present_result_below drv result w1 Hr) in H by lia.
      destruct (result =? VK_ERROR_OUT_OF_DATE_KHR).
      * eapply Hrec; [| | |exact H]; reflexivity.
      * destruct (negb (result =? VK_SUBOPTIMAL_KHR) && negb (result =? VK_SUCCESS));
          [discriminate|].
        injection H as <-. auto.
Qed.

Variable ans : FrameAnswers.

(** A frame that got its image: what happened up to the present call, and
    what is left to do. *)
Lemma render_and_present_split (frame : Z) (w w' : World) :
  render_and_present drv ans frame (ans_image_index ans) w = Done (tt, w') ->
  exists w0 w1 l,
    logged w w0 l /\ Forall not_recreation l
    /\ vkx_swap_chain w0 = vkx_swap_chain w
    /\ in_flight_fences w0
       = update_nth (Z.to_nat frame) FencePending (in_flight_fences w)
    /\ current_frame w0 = current_frame w
    /\ framebuffer_resized w0 = framebuffer_resized w
    /\ suboptimal_swapchain_count w0 = suboptimal_swapchain_count w
    /\ after_present drv (ans_present ans) w0 = Done (tt, w1)
    /\ w' = with_current_frame (wrap32 (frame + 1) mod VKX_FRAMES_IN_FLIGHT) w1.
Proof.
  intros H. unfold render_and_present in H.
  apply bind_Done in H. destruct H as ([] & w2 & K2 & H). injection K2 as <-.
  apply bind_Done in H. destruct H as ([] & w3 & K3 & H).
  unfold reset_fence, bind, call, set_fence in K3. simpl in K3. injection K3 as <-.
  apply bind_Done in H. destruct H as ([] & w4 & K4 & H). injection K4 as <-.
  apply bind_Done in H. destruct H as ([] & w5 & K5 & H).
  apply record_command_buffer_Done in K5.
  destruct K5 as (_ & _ & Hsc5 & (Hf5 & Hc5 & Hr5 & Hn5) & Hl5).
  apply bind_Done in H. destruct H as ([] & w6 & K6 & H). injection K6 as <-.
  apply bind_Done in H. destruct H as ([] & w7 & K7 & H).
  unfold check in K7. destruct (negb (ans_submit ans =? VK_SUCCESS)); [discriminate|].
  injection K7 as <-.
  apply bind_Done in H. destruct H as ([] & w8 & K8 & H). injection K8 as <-.
  apply bind_Done in H. destruct H as ([] & w9 & K9 & H). injection K9 as <-.
  apply bind_Done in H. destruct H as ([] & w1 & Hafter & H). injection H as <-.
  eexists. exists w1. eexists.
  split; [|split; [|split; [|split; [|split; [|split; [|split; [|split]]]]]]];
    [| |shelve ..|exact Hafter|reflexivity].
  - unfold logged in *. simpl in *. rewrite Hl5. simpl.
    rewrite <- !app_assoc. simpl. reflexivity.
  - unfold recorded_calls. repeat constructor; discriminate.
  Unshelve.
  + simpl. exact Hsc5.
  + simpl. rewrite Hf5. simpl. apply update_nth_twice.
  + simpl. exact Hc5.
  + simpl. exact Hr5.
  + simpl. exact Hn5.
Qed.
End OneFrame.

Lemma never_blocks_render_and_present (drv : Driver) (ans : FrameAnswers)
      (frame image_index : Z) :
  never_blocks (render_and_present drv ans frame image_index).
Proof.
  pose proof (never_blocks_vkx_recreate_swap_chain drv) as Hrec.
  unfold render_and_present, record_command_buffer, after_present, count_suboptimal,
    handle_present_result, reset_fence, vkx_transition_image_layout, check.
  cbv zeta. repeat first [exact Hrec | calm_step].
Qed.

Lemma frame_ready_fence (w : World) :
  frame_ready w -> fence_at w (current_frame w) <> FenceUnsignaled.
Proof.
  intros (Hlen & Hall & Hcf). unfold fence_at.
  rewrite Forall_forall in Hall. apply Hall, nth_In.
  unfold VKX_FRAMES_IN_FLIGHT in Hcf. lia.
Qed.

Lemma frame_ready_update (w w' : World) (f : Fence) (n : nat) (frame : Z) :
  frame_ready w -> f <> FenceUnsignaled ->
  in_flight_fences w' = update_nth n f (in_flight_fences w) ->
  current_frame w' = frame mod VKX_FRAMES_IN_FLIGHT ->
  frame_ready w'.
Proof.
  intros (Hlen & Hall & Hcf) Hf Hfs Hc. unfold frame_ready.
  rewrite Hfs, Hc, length_update_nth. split; [exact Hlen|]. split.
  - apply Forall_update_nth; assumption.
  - apply Z.mod_pos_bound. reflexivity.
Qed.

(** One frame from a ready world: no endless wait, and what a completed
    frame leaves. *)
Lemma draw_frame_ready (drv : Driver) (ans : FrameAnswers) (w : World) :
  frame_ready w ->
  draw_frame drv ans w <> Blocked
  /\ forall w', draw_frame drv ans w = Done (tt, w') ->
       frame_ready w'
       /\ has_depth_image (vkx_swap_chain w') = has_depth_image (vkx_swap_chain w)
       /\ (current_frame w' = current_frame w
           \/ current_frame w' = (current_frame w + 1) mod VKX_FRAMES_IN_FLIGHT).
Proof.
  intros Hw. pose proof (frame_ready_fence w Hw) as Hfence.
  rewrite (draw_frame_unfold drv ans w Hfence).
  destruct (ans_acquire ans =? VK_ERROR_OUT_OF_DATE_KHR).
  { split; [apply never_blocks_vkx_recreate_swap_chain|].
    intros w' H. destruct (recreate_keeps drv _ _ H) as ((Hf & Hc & _) & Hd & _).
    simpl in Hf, Hc, Hd. split; [|split; [exact Hd|left; exact Hc]].
    apply (frame_ready_update w w' FenceSignaled (Z.to_nat (current_frame w))
                              (current_frame w) Hw); [discriminate|exact Hf|].
    rewrite Hc. symmetry. apply Z.mod_small. apply Hw. }
  destruct (negb (ans_acquire ans =? VK_SUCCESS)
            && negb (ans_acquire ans =? VK_SUBOPTIMAL_KHR)).
  { split; intros; discriminate. }
  split; [apply never_blocks_render_and_present|].
  intros w' H.
  destruct (render_and_present_split drv ans _ _ _ H)
    as (w0 & w1 & l & _ & _ & Hsc & Hf & Hc & _ & _ & Hafter & ->).
  destruct (after_present_keeps drv _ _ _ Hafter) as (Hf1 & Hc1 & Hd1).
  simpl in Hsc, Hf, Hc. rewrite update_nth_twice in Hf. simpl.
  split; [|split].
  - apply (frame_ready_update w _ FencePending (Z.to_nat (current_frame w))
                              (current_frame w + 1) Hw); [discriminate|simpl|simpl].
    + now rewrite Hf1, Hf.
    + apply wrap32_mod_frames.
  - now rewrite Hd1, Hsc.
  - right. apply wrap32_mod_frames.
Qed.

(** X10. From a world in which no fence is left unsignaled (two fences,
    frame counter 0 or 1), any number of frames, whatever the driver
    answers, never waits for ever on a fence: the run ends or exits, and
    when it ends the world is again ready for a frame. *)
Theorem draw_frames_never_wait_for_ever (drv : Driver) (answers : list FrameAnswers)
        (w : World) :
  frame_ready w ->
  draw_frames drv answers w <> Blocked
  /\ forall w', draw_frames drv answers w = Done (tt, w') -> frame_ready w'.
Proof.
  revert w. induction answers as [|ans rest IH]; intros w Hw; simpl.
  - split; [discriminate|]. intros w' H. injection H as <-. exact Hw.
  - destruct (draw_frame_ready drv ans w Hw) as (Hnb & Hdone).
    unfold bind. destruct (draw_frame drv ans w) as [[[] w1]| |] eqn:E.
    + destruct (Hdone w1 eq_refl) as (Hw1 & _). apply (IH w1 Hw1).
    + split; intros; discriminate.
    + destruct (Hnb eq_refl).
Qed.

Lemma draw_frames_never_wait_for_ever_witness :
  draw_frames example_driver
    [example_answers VK_ERROR_OUT_OF_DATE_KHR VK_SUCCESS;
     example_answers VK_SUCCESS VK_ERROR_OUT_OF_DATE_KHR;
     example_answers VK_SUBOPTIMAL_KHR VK_SUCCESS]
    (example_world false false 0) <> Blocked.
Proof.
  apply (draw_frames_never_wait_for_ever example_driver
           [example_answers VK_ERROR_OUT_OF_DATE_KHR VK_SUCCESS;
            example_answers VK_SUCCESS VK_ERROR_OUT_OF_DATE_KHR;
            example_answers VK_SUBOPTIMAL_KHR VK_SUCCESS]
           (example_world false false 0)).
  unfold frame_ready. simpl. repeat split; try lia.
  repeat constructor; discriminate.
Defined.

Lemma presented_app (l1 l2 : list Call) :
  presented (l1 ++ l2) = presented l1 ++ presented l2.
Proof.
  induction l1 as [|c l1 IH]; simpl; auto. destruct c; simpl; auto. now rewrite IH.
Qed.

Lemma presented_setup (l : list Call) : Forall setup_call l -> presented l = [].
Proof.
  induction 1 as [|c l Hc _ IH]; simpl; auto.
  destruct c; auto. destruct Hc as (_ & []).
Qed.

Lemma frame_calls_counts (drv : Driver) (w : World) (frame image_index : Z) :
  recreations (frame_calls drv w frame image_index) = 0%nat
  /\ presented (frame_calls drv w frame image_index) = [image_index].
Proof. split; reflexivity. Qed.

Section DrawnFrame.
Variable drv : Driver.
Variable ans : FrameAnswers.

(** With recording and submission succeeding, a frame that got its image
    reaches the present call. *)
Lemma render_and_present_run (frame image_index : Z) (w : World) :
  ans_begin ans = VK_SUCCESS -> ans_end ans = VK_SUCCESS ->
  ans_submit ans = VK_SUCCESS ->
  exists w0,
    render_and_present drv ans frame image_index w
    = (after_present drv (ans_present ans) ;;;
       set_current_frame (wrap32 (frame + 1) mod VKX_FRAMES_IN_FLIGHT)) w0
    /\ logged w w0 (frame_calls drv w frame image_index)
    /\ vkx_swap_chain w0 = vkx_swap_chain w
    /\ in_flight_fences w0
       = update_nth (Z.to_nat frame) FencePending (in_flight_fences w)
    /\ current_frame w0 = current_frame w
    /\ framebuffer_resized w0 = framebuffer_resized w
    /\ suboptimal_swapchain_count w0 = suboptimal_swapchain_count w.
Proof.
  intros Hb He Hs. unfold render_and_present.
  erewrite bind_run; [|reflexivity].
  erewrite bind_run; [|reflexivity].
  erewrite bind_run; [|reflexivity].
  match goal with
  | |- context [bind (record_command_buffer _ _ ?cb ?i) _ ?v] =>
      destruct (record_command_buffer_run drv ans cb i v Hb He)
        as (w5 & Hrun & Hsc & (Hf & Hc & Hr & Hn) & Hl)
  end.
  erewrite bind_run; [|exact Hrun].
  erewrite bind_run; [|reflexivity].
  unfold check at 1. rewrite Hs. simpl negb. cbv iota.
  erewrite bind_run; [|reflexivity].
  erewrite bind_run; [|reflexivity].
  erewrite bind_run; [|reflexivity].
  eexists. split; [reflexivity|].
  simpl in *. split; [|split; [exact Hsc|split; [|split; [exact Hc|split; [exact Hr|exact Hn]]]]].
  - unfold logged, frame_calls in *. simpl in *. rewrite Hl.
    rewrite <- !app_assoc. reflexivity.
  - rewrite Hf. apply update_nth_twice.
Qed.

Hypothesis Hdrv : cooperative drv.
Hypothesis Hans : frame_drawn ans.

(** What lines 929-957 do after a present that succeeded or was
    suboptimal, with a cooperative driver. *)
Lemma after_present_drawn (w : World) :
  no_depth w ->
  let n := if ans_present ans =? VK_SUBOPTIMAL_KHR
           then wrap32 (suboptimal_swapchain_count w + 1) else 0 in
  exists w' l,
    after_present drv (ans_present ans) w = Done (tt, w')
    /\ logged w w' l /\ presented l = []
    /\ no_depth w'
    /\ in_flight_fences w' = in_flight_fences w
    /\ current_frame w' = current_frame w
    /\ framebuffer_resized w' = false
    /\ (framebuffer_resized w = true ->
        recreations l = 1%nat /\ suboptimal_swapchain_count w' = n)
    /\ (framebuffer_resized w = false -> SUBOPTIMAL_SWAPCHAIN_THRESHOLD <= n ->
        recreations l = 1%nat /\ suboptimal_swapchain_count w' = 0)
    /\ (framebuffer_resized w = false -> n < SUBOPTIMAL_SWAPCHAIN_THRESHOLD ->
        recreations l = 0%nat /\ suboptimal_swapchain_count w' = n).
Proof.
  intros Hd n. rewrite after_present_unfold. fold n.
  set (w1 := with_suboptimal_swapchain_count n w).
  assert (Hrec : forall v,
             has_depth_image (vkx_swap_chain v) = false ->
             calls v = calls w ->
             in_flight_fences v = in_flight_fences w ->
             current_frame v = current_frame w ->
             exists w' l,
               vkx_recreate_swap_chain drv v = Done (tt, w')
               /\ logged w w' l /\ presented l = [] /\ no_depth w'
               /\ in_flight_fences w' = in_flight_fences w
               /\ current_frame w' = current_frame w
               /\ framebuffer_resized w' = framebuffer_resized v
               /\ suboptimal_swapchain_count w' = suboptimal_swapchain_count v
               /\ recreations l = 1%nat).
  { intros v Hdv Hcv Hfv Hkv.
    destruct (vkx_recreate_swap_chain_returns drv v Hdrv Hdv) as (w' & Hrun).
    destruct (vkx_recreate_swap_chain_log drv _ _ Hrun)
      as ((Hf & Hc & Hr & Hn) & l & Hl & HP).
    destruct (recreate_keeps drv _ _ Hrun) as (_ & Hd' & _).
    exists w', (vkDeviceWaitIdle :: l). split; [exact Hrun|].
    split; [unfold logged in *; congruence|].
    split; [simpl; apply presented_setup, HP|].
    split; [unfold no_depth; congruence|].
    split; [congruence|]. split; [congruence|]. split; [exact Hr|].
    split; [exact Hn|]. simpl. now rewrite (recreations_setup l HP). }
  destruct (framebuffer_resized w) eqn:Hr.
  - rewrite (handle_present_result_resized drv _ w1 Hr).
    destruct (Hrec (with_framebuffer_resized false w1) Hd eq_refl eq_refl eq_refl)
      as (w' & l & Hrun & Hl & Hp & Hd' & Hf & Hc & Hr' & Hn & Hrc).
    exists w', l. do 6 (split; [assumption|]).
    split; [exact Hr'|]. split; [intros _; split; [exact Hrc|exact Hn]|].
    split; intros; discriminate.
  - destruct (Z_le_gt_dec SUBOPTIMAL_SWAPCHAIN_THRESHOLD n) as [Hge|Hlt].
    + rewrite (handle_present_result_threshold drv _ w1 Hr Hge).
      destruct (Hrec (with_suboptimal_swapchain_count 0 w1) Hd eq_refl eq_refl eq_refl)
        as (w' & l & Hrun & Hl & Hp & Hd' & Hf & Hc & Hr' & Hn & Hrc).
      exists w', l. do 6 (split; [assumption|]).
      split; [rewrite Hr'; exact Hr|]. split; [intros; discriminate|].
      split; [intros _ _; split; [exact Hrc|exact Hn]|]. intros _ Hlt. lia.
    + rewrite (handle_present_result_below drv _ w1 Hr) by (simpl; lia).
      destruct Hans as (_ & _ & _ & _ & Hp).
      assert (Hres : (ans_present ans =? VK_ERROR_OUT_OF_DATE_KHR) = false
                     /\ (negb (ans_present ans =? VK_SUBOPTIMAL_KHR)
                         && negb (ans_present ans =? VK_SUCCESS)) = false).
      { destruct Hp as [-> | ->]; split; reflexivity. }
      destruct Hres as (-> & ->).
      exists w1, []. split; [reflexivity|].
      split; [unfold logged; simpl; now rewrite app_nil_r|].
      split; [reflexivity|]. split; [exact Hd|]. split; [reflexivity|].
      split; [reflexivity|]. split; [exact Hr|]. split; [intros; discriminate|].
      split; [intros _ Hge; lia|]. intros _ _. split; reflexivity.
Qed.

(** A drawn frame from a ready world, with a cooperative driver. *)
Lemma draw_frame_drawn (w : World) :
  frame_ready w -> no_depth w ->
  let n := if ans_present ans =? VK_SUBOPTIMAL_KHR
           then wrap32 (suboptimal_swapchain_count w + 1) else 0 in
  exists w' l,
    draw_frame drv ans w = Done (tt, w')
    /\ logged w w' l /\ presented l = [ans_image_index ans]
    /\ frame_ready w' /\ no_depth w'
    /\ current_frame w' = (current_frame w + 1) mod VKX_FRAMES_IN_FLIGHT
    /\ framebuffer_resized w' = false
    /\ (framebuffer_resized w = false ->
        if SUBOPTIMAL_SWAPCHAIN_THRESHOLD <=? n
        then recreations l = 1%nat /\ suboptimal_swapchain_count w' = 0
        else recreations l = 0%nat /\ suboptimal_swapchain_count w' = n).
Proof.
  intros Hw Hd n. pose proof (frame_ready_fence w Hw) as Hfence.
  rewrite (draw_frame_unfold drv ans w Hfence).
  destruct Hans as (Ha & Hb & He & Hs & _).
  assert (Hacq : (ans_acquire ans =? VK_ERROR_OUT_OF_DATE_KHR) = false
                 /\ (negb (ans_acquire ans =? VK_SUCCESS)
                     && negb (ans_acquire ans =? VK_SUBOPTIMAL_KHR)) = false).
  { destruct Ha as [-> | ->]; split; reflexivity. }
  destruct Hacq as (-> & ->).
  destruct (render_and_present_run (current_frame w) (ans_image_index ans)
                                   (after_acquire w) Hb He Hs)
    as (w0 & -> & Hl0 & Hsc0 & Hf0 & Hc0 & Hr0 & Hn0).
  simpl in Hsc0, Hf0, Hc0, Hr0, Hn0. rewrite update_nth_twice in Hf0.
  assert (Hd0 : no_depth w0) by (unfold no_depth in *; congruence).
  destruct (after_present_drawn w0 Hd0)
    as (w1 & l1 & Hrun & Hl1 & Hp1 & Hd1 & Hf1 & Hc1 & Hr1 & _ & Hge & Hlt).
  erewrite bind_run; [|exact Hrun].
  eexists.
  exists ([vkWaitForFences (current_frame w); vkAcquireNextImageKHR (current_frame w)]
          ++ frame_calls drv (after_acquire w) (current_frame w) (ans_image_index ans)
          ++ l1).
  split; [reflexivity|]. simpl current_frame. simpl framebuffer_resized.
  simpl suboptimal_swapchain_count.
  split; [|split; [|split; [|split; [exact Hd1|split; [|split; [exact Hr1|]]]]]].
  - unfold logged in *. simpl calls in *. rewrite Hl1, Hl0. simpl.
    rewrite <- !app_assoc. reflexivity.
  - rewrite !presented_app, Hp1. reflexivity.
  - apply (frame_ready_update w _ FencePending (Z.to_nat (current_frame w))
                              (current_frame w + 1) Hw); [discriminate|simpl|simpl].
    + now rewrite Hf1, Hf0.
    + apply wrap32_mod_frames.
  - apply wrap32_mod_frames.
  - intros Hr. rewrite Hr in Hr0. rewrite Hn0 in Hge, Hlt. fold n in Hge, Hlt.
    rewrite !recreations_app.
    destruct (Z.leb_spec SUBOPTIMAL_SWAPCHAIN_THRESHOLD n) as [Hc|Hc].
    + destruct (Hge Hr0 Hc) as (-> & ->). split; reflexivity.
    + destruct (Hlt Hr0 Hc) as (-> & ->). split; reflexivity.
Qed.
End DrawnFrame.

(** X11. With a cooperative driver and frames whose acquire and present
    results are success or suboptimal, [draw_frame] called once per entry
    of [answers] always runs to its end: each frame presents the image
    index it acquired, once and in order, the frame counter alternates
    between the two slots, and the world is ready for the next frame. *)
Theorem draw_frames_present_each_frame (drv : Driver) (answers : list FrameAnswers)
        (w : World) :
  cooperative drv -> Forall frame_drawn answers ->
  frame_ready w -> no_depth w ->
  exists w' l,
    draw_frames drv answers w = Done (tt, w')
    /\ logged w w' l
    /\ presented l = map ans_image_index answers
    /\ frame_ready w'
    /\ current_frame w'
       = (current_frame w + Z.of_nat (List.length answers)) mod VKX_FRAMES_IN_FLIGHT.
Proof.
  intros Hdrv Hall. revert w.
  induction Hall as [|ans rest Hans _ IH]; intros w Hw Hd.
  - exists w, []. split; [reflexivity|]. split; [apply logged_refl|].
    split; [reflexivity|]. split; [exact Hw|].
    simpl. rewrite Z.add_0_r. symmetry. apply Z.mod_small, Hw.
  - destruct (draw_frame_drawn drv ans Hdrv Hans w Hw Hd)
      as (w1 & l1 & Hrun & Hl1 & Hp1 & Hw1 & Hd1 & Hc1 & _).
    destruct (IH w1 Hw1 Hd1) as (w' & l2 & Hrun2 & Hl2 & Hp2 & Hw' & Hc2).
    exists w', (l1 ++ l2). simpl draw_frames.
    erewrite bind_run; [|exact Hrun].
    split; [exact Hrun2|]. split; [exact (logged_trans _ _ _ _ _ Hl1 Hl2)|].
    split; [rewrite presented_app, Hp1, Hp2; reflexivity|]. split; [exact Hw'|].
    rewrite Hc2, Hc1. rewrite Zplus_mod_idemp_l. f_equal.
    change (List.length (ans :: rest)) with (S (List.length rest)). lia.
Qed.

Lemma draw_frames_present_each_frame_witness :
  exists w' l,
    draw_frames example_driver
      [example_answers VK_SUCCESS VK_SUBOPTIMAL_KHR; example_answers VK_SUBOPTIMAL_KHR VK_SUCCESS;
       example_answers VK_SUCCESS VK_SUCCESS]
      (example_world false true 0) = Done (tt, w')
    /\ logged (example_world false true 0) w' l
    /\ presented l = [1; 1; 1]
    /\ frame_ready w'
    /\ current_frame w' = 1.
Proof.
  apply (draw_frames_present_each_frame example_driver
           [example_answers VK_SUCCESS VK_SUBOPTIMAL_KHR;
            example_answers VK_SUBOPTIMAL_KHR VK_SUCCESS;
            example_answers VK_SUCCESS VK_SUCCESS]
           (example_world false true 0)).
  - unfold cooperative. simpl. repeat split; try discriminate; reflexivity.
  - repeat (apply Forall_cons; [unfold frame_drawn; simpl; auto 10|]). apply Forall_nil.
  - unfold frame_ready. simpl. repeat split; try lia.
    repeat constructor; discriminate.
  - reflexivity.
Defined.

(** X12. The debounce of suboptimal presents: starting with the resize
    flag clear and the counter at [c < 10], [k] frames in a row whose
    present returns [VK_SUBOPTIMAL_KHR] recreate the swapchain exactly
    [(c + k) / 10] times and leave the counter at [(c + k) mod 10]: one
    recreation per ten suboptimal presents, none before the tenth. *)
Theorem suboptimal_presents_debounced (drv : Driver) (answers : list FrameAnswers)
        (w : World) :
  cooperative drv ->
  Forall (fun ans => frame_drawn ans /\ ans_present ans = VK_SUBOPTIMAL_KHR) answers ->
  frame_ready w -> no_depth w ->
  framebuffer_resized w = false ->
  0 <= suboptimal_swapchain_count w < SUBOPTIMAL_SWAPCHAIN_THRESHOLD ->
  let total := suboptimal_swapchain_count w + Z.of_nat (List.length answers) in
  exists w' l,
    draw_frames drv answers w = Done (tt, w')
    /\ logged w w' l
    /\ Z.of_nat (recreations l) = total / SUBOPTIMAL_SWAPCHAIN_THRESHOLD
    /\ suboptimal_swapchain_count w' = total mod SUBOPTIMAL_SWAPCHAIN_THRESHOLD
    /\ framebuffer_resized w' = false.
Proof.
  intros Hdrv Hall. revert w.
  induction Hall as [|ans rest (Hans & Hsub) _ IH]; intros w Hw Hd Hr Hc total.
  - exists w, []. split; [reflexivity|]. split; [apply logged_refl|].
    subst total. simpl. rewrite Z.add_0_r.
    split; [symmetry; apply Z.div_small, Hc|].
    split; [symmetry; apply Z.mod_small, Hc|exact Hr].
  - destruct (draw_frame_drawn drv ans Hdrv Hans w Hw Hd)
      as (w1 & l1 & Hrun & Hl1 & _ & Hw1 & Hd1 & _ & Hr1 & Hn1).
    specialize (Hn1 Hr). rewrite Hsub in Hn1. simpl Z.eqb in Hn1. cbv iota in Hn1.
    unfold SUBOPTIMAL_SWAPCHAIN_THRESHOLD in *.
    rewrite wrap32_small in Hn1 by lia.
    assert (Hstep : 0 <= suboptimal_swapchain_count w1 < 10
                    /\ suboptimal_swapchain_count w + 1
                       = 10 * Z.of_nat (recreations l1) + suboptimal_swapchain_count w1).
    { destruct (Z.leb_spec 10 (suboptimal_swapchain_count w + 1)) as [Hge|Hlt];
        destruct Hn1 as (-> & ->); simpl; lia. }
    destruct Hstep as (Hc1 & Hsum).
    destruct (IH w1 Hw1 Hd1 Hr1 Hc1) as (w' & l2 & Hrun2 & Hl2 & Hrec2 & Hn2 & Hr2).
    exists w', (l1 ++ l2). simpl draw_frames.
    erewrite bind_run; [|exact Hrun].
    split; [exact Hrun2|]. split; [exact (logged_trans _ _ _ _ _ Hl1 Hl2)|].
    subst total. change (List.length (ans :: rest)) with (S (List.length rest)).
    replace (suboptimal_swapchain_count w + Z.of_nat (S (List.length rest)))
      with (Z.of_nat (recreations l1) * 10
            + (suboptimal_swapchain_count w1 + Z.of_nat (List.length rest))) by lia.
    rewrite recreations_app, Nat2Z.inj_add, Hrec2, Hn2.
    split; [|split; [|exact Hr2]].
    + rewrite Z.div_add_l by lia. reflexivity.
    + rewrite (Z.add_comm (_ * 10)), Z.mod_add by lia. reflexivity.
Qed.

Lemma suboptimal_presents_debounced_witness :
  exists w' l,
    draw_frames example_driver
      (repeat (example_answers VK_SUCCESS VK_SUBOPTIMAL_KHR) 12)
      (example_world false false 9) = Done (tt, w')
    /\ logged (example_world false false 9) w' l
    /\ Z.of_nat (recreations l) = 2
    /\ suboptimal_swapchain_count w' = 1
    /\ framebuffer_resized w' = false.
Proof.
  apply (suboptimal_presents_debounced example_driver
           (repeat (example_answers VK_SUCCESS VK_SUBOPTIMAL_KHR) 12)
           (example_world false false 9)).
  - unfold cooperative. simpl. repeat split; try discriminate; reflexivity.
  - apply Forall_forall. intros ans Hin. apply repeat_spec in Hin. subst ans.
    unfold frame_drawn. simpl. auto 10.
  - unfold frame_ready. simpl. repeat split; try lia.
    repeat constructor; discriminate.
  - reflexivity.
  - reflexivity.
  - simpl. unfold SUBOPTIMAL_SWAPCHAIN_THRESHOLD. lia.
Defined.

(** ** create_monsters *)

Lemma In_index_range (n i : Z) : In i (index_range n) <-> 0 <= i < n.
Proof.
  unfold index_range. rewrite in_map_iff. split.
  - intros (k & <- & Hk). apply in_seq in Hk. lia.
  - intros Hi. exists (Z.to_nat i). split; [lia|]. apply in_seq. lia.
Qed.

Lemma length_index_range (n : Z) : List.length (index_range n) = Z.to_nat n.
Proof. unfold index_range. now rewrite length_map, length_seq. Qed.

Lemma nth_error_index_range (n i : Z) :
  0 <= i < n -> nth_error (index_range n) (Z.to_nat i) = Some i.
Proof.
  intros Hi. unfold index_range.
  rewrite nth_error_map, nth_error_seq.
  destruct (Nat.ltb_spec (Z.to_nat i) (Z.to_nat n)) as [_|Hge]; [|lia].
  simpl. f_equal. lia.
Qed.

(** Entry [i * len + j] of rows of [len] entries each. *)
Lemma nth_error_rows {A} (row : Z -> list A) (len n start i j : nat) :
  (forall k, List.length (row k) = len) ->
  (i < n)%nat -> (j < len)%nat ->
  nth_error (flat_map row (map Z.of_nat (seq start n))) (i * len + j)
  = nth_error (row (Z.of_nat (start + i))) j.
Proof.
  intros Hlen. revert i start.
  induction n as [|n IH]; intros i start Hi Hj; [lia|]. simpl.
  destruct i as [|i].
  - rewrite nth_error_app1 by (rewrite Hlen; simpl; lia).
    simpl. now rewrite Nat.add_0_r.
  - rewrite nth_error_app2 by (rewrite Hlen; simpl; lia).
    rewrite Hlen. replace (S i * len + j - len)%nat with (i * len + j)%nat by (simpl; lia).
    rewrite IH by lia. do 2 f_equal. lia.
Qed.

Lemma length_rows {A} (row : Z -> list A) (len : nat) (l : list Z) :
  (forall k, List.length (row k) = len) ->
  List.length (flat_map row l) = (List.length l * len)%nat.
Proof.
  intros Hlen. induction l as [|k l IH]; simpl; auto.
  now rewrite length_app, Hlen, IH.
Qed.

Lemma sprite_vertex_asserts (n i j : Z) :
  0 <= i < n -> 0 <= j < 6 -> sprite_asserts (n * 6) (sprite_vertex i j).
Proof.
  intros Hi Hj. unfold sprite_asserts, sprite_vertex, monster_texture,
                  _TEX_COUNT, TEX_MONSTERS.
  cbn [sv_idx sv_uv4 sv_uv2_4 sv_texture_index sv_sprite_index fst snd].
  pose proof (Z.mod_pos_bound (i / 16) 4 eq_refl).
  pose proof (Z.mod_pos_bound i 4 eq_refl).
  pose proof (Z.mod_pos_bound i 16 eq_refl).
  assert (0 <= i mod 16 / 4 < 4).
  { split; [apply Z.div_pos; lia|apply Z.div_lt_upper_bound; lia]. }
  lia.
Qed.

(** X13. [create_monsters] fills [vertex_sprites] completely and in order:
    the array has [NUM_MONSTERS * 6] entries, entry [idx] is the one
    written for index [idx], it belongs to monster [idx / 6], its texture
    is one of the four monster textures, and none of the function's
    [assert]s fails on it. *)
Theorem create_monsters_fills_vertex_sprites :
  Z.of_nat (List.length create_monsters_sprites) = NUM_MONSTERS * 6
  /\ forall idx, 0 <= idx < NUM_MONSTERS * 6 ->
       exists v,
         nth_error create_monsters_sprites (Z.to_nat idx) = Some v
         /\ sv_idx v = idx
         /\ sv_sprite_index v = idx / 6
         /\ sv_texture_index v = monster_texture (idx / 6)
         /\ sprite_asserts (NUM_MONSTERS * 6) v.
Proof.
  assert (Hrow : forall k, List.length (map (sprite_vertex k) (index_range 6)) = 6%nat).
  { intros k. reflexivity. }
  unfold create_monsters_sprites. split.
  - rewrite (length_rows _ 6 _ Hrow), length_index_range. reflexivity.
  - intros idx Hidx. unfold NUM_MONSTERS in *.
    set (i := idx / 6). set (j := idx mod 6).
    assert (Hi : 0 <= i < 1000).
    { unfold i. split; [apply Z.div_pos; lia|apply Z.div_lt_upper_bound; lia]. }
    assert (Hj : 0 <= j < 6) by (apply Z.mod_pos_bound; lia).
    assert (Hsplit : idx = i * 6 + j).
    { unfold i, j. rewrite Z.mul_comm. apply Z.div_mod. lia. }
    exists (sprite_vertex i j).
    replace (Z.to_nat idx) with (Z.to_nat i * 6 + Z.to_nat j)%nat by lia.
    unfold index_range at 2.
    rewrite (nth_error_rows _ 6 _ 0 _ _ Hrow) by lia.
    rewrite nth_error_map. simpl Nat.add. rewrite Z2Nat.id by lia.
    rewrite (nth_error_index_range 6 j Hj). simpl.
    split; [reflexivity|]. split; [symmetry; exact Hsplit|].
    split; [reflexivity|]. split; [reflexivity|].
    apply (sprite_vertex_asserts 1000 i j Hi Hj).
Qed.

(** ** create_tiles *)

Lemma find_app {A} (p : A -> bool) (l1 l2 : list A) :
  find p (l1 ++ l2) = match find p l1 with Some x => Some x | None => find p l2 end.
Proof.
  induction l1 as [|x l1 IH]; simpl; auto. destruct (p x); auto.
Qed.

(** The first loop from any state: the count goes up by the number of
    stored values other than [EMPTY], and each entry holds the value of
    the last cell stored at its index. *)
Lemma store_tiles_from (interior : Z -> Z -> Z) (cells : list (Z * Z))
      (tiles : Z -> Z) (num_tiles : Z) :
  let stored := fun c : Z * Z => tile_value interior (fst c) (snd c) in
  let result := fold_left (store_tile interior) cells (tiles, num_tiles) in
  snd result
  = num_tiles
    + Z.of_nat (List.length (filter (fun c => negb (stored c =? EMPTY)) cells))
  /\ forall k,
       fst result k
       = match find (fun c => get_tile_index (fst c) (snd c) =? k) (rev cells) with
         | Some c => stored c
         | None => tiles k
         end.
Proof.
  intros stored. revert tiles num_tiles.
  induction cells as [|[x y] cells IH]; intros tiles num_tiles result.
  - subst result. simpl. split; [lia|reflexivity].
  - subst result. simpl fold_left. unfold store_tile at 2.
    rewrite Z.eqb_refl.
    match goal with
    | |- context [fold_left _ cells (?t, ?n)] => destruct (IH t n) as (Hn & Ht)
    end.
    split.
    + rewrite Hn. simpl filter. unfold stored at 2. simpl fst. simpl snd.
      destruct (negb (tile_value interior x y =? EMPTY)); simpl List.length; lia.
    + intros k. rewrite Ht. simpl rev. rewrite find_app.
      destruct (find _ (rev cells)); [reflexivity|].
      simpl. rewrite (Z.eqb_sym (get_tile_index x y) k).
      destruct (k =? get_tile_index x y); reflexivity.
Qed.

Lemma In_cells_row_major (cell : Z * Z) : In cell cells_row_major <-> in_grid cell.
Proof.
  unfold cells_row_major, in_grid. rewrite in_flat_map. split.
  - intros (y & Hy & Hin). apply in_rev in Hy. apply In_index_range in Hy.
    apply in_map_iff in Hin. destruct Hin as (x & <- & Hx).
    apply In_index_range in Hx. simpl. lia.
  - intros (Hx & Hy). exists (snd cell). split.
    + apply in_rev. rewrite rev_involutive. now apply In_index_range.
    + apply in_map_iff. exists (fst cell). split; [now destruct cell|].
      now apply In_index_range.
Qed.

Lemma In_cells_column_major (cell : Z * Z) : In cell cells_column_major <-> in_grid cell.
Proof.
  unfold cells_column_major, in_grid. rewrite in_flat_map. split.
  - intros (x & Hx & Hin). apply In_index_range in Hx.
    apply in_map_iff in Hin. destruct Hin as (y & <- & Hy).
    apply In_index_range in Hy. simpl. lia.
  - intros (Hx & Hy). exists (fst cell). split; [now apply In_index_range|].
    apply in_map_iff. exists (snd cell). split; [now destruct cell|].
    now apply In_index_range.
Qed.

Lemma get_tile_index_inj (c1 c2 : Z * Z) :
  in_grid c1 -> in_grid c2 ->
  get_tile_index (fst c1) (snd c1) = get_tile_index (fst c2) (snd c2) -> c1 = c2.
Proof.
  destruct c1 as [x1 y1], c2 as [x2 y2].
  unfold in_grid, get_tile_index, X_TILES, Y_TILES. simpl.
  intros H1 H2 H. f_equal; lia.
Qed.

(** After the first loop, every entry of the grid holds its cell's value. *)
Lemma generate_tiles_stored (interior : Z -> Z -> Z) (cell : Z * Z) :
  in_grid cell ->
  fst (generate_tiles interior) (get_tile_index (fst cell) (snd cell))
  = tile_value interior (fst cell) (snd cell).
Proof.
  intros Hcell. unfold generate_tiles.
  destruct (store_tiles_from interior cells_row_major (fun _ => 0) 0) as (_ & Ht).
  rewrite Ht.
  destruct (find _ (rev cells_row_major)) as [c|] eqn:Hfind.
  - apply find_some in Hfind. destruct Hfind as (Hin & Heq).
    apply in_rev, In_cells_row_major in Hin. apply Z.eqb_eq in Heq.
    now rewrite (get_tile_index_inj c cell Hin Hcell Heq).
  - apply find_none with (x := cell) in Hfind.
    + rewrite Z.eqb_refl in Hfind. discriminate.
    + apply in_rev. rewrite rev_involutive. now apply In_cells_row_major.
Qed.

Lemma generate_tiles_count (interior : Z -> Z -> Z) :
  snd (generate_tiles interior)
  = Z.of_nat (List.length
                (filter (fun c => negb (tile_value interior (fst c) (snd c) =? EMPTY))
                        cells_row_major)).
Proof.
  unfold generate_tiles.
  destruct (store_tiles_from interior cells_row_major (fun _ => 0) 0) as (Hn & _).
  rewrite Hn. apply Z.add_0_l.
Qed.

(** Counting the cells of a grid row by row or column by column. *)
Lemma count_rows_columns (p : Z * Z -> bool) (xs ys : list Z) :
  List.length (filter p (flat_map (fun y => map (fun x => (x, y)) xs) ys))
  = List.length (filter p (flat_map (fun x => map (fun y => (x, y)) ys) xs)).
Proof.
  induction ys as [|y ys IH].
  - simpl. induction xs as [|x xs IHx]; simpl; auto.
  - simpl. rewrite filter_app, length_app, IH. clear IH.
    induction xs as [|x xs IHx]; simpl; auto.
    destruct (p (x, y)); simpl; rewrite !filter_app, !length_app, <- IHx; lia.
Qed.

Lemma count_flat_map_rev {A B} (p : B -> bool) (f : A -> list B) (l : list A) :
  List.length (filter p (flat_map f (rev l)))
  = List.length (filter p (flat_map f l)).
Proof.
  induction l as [|x l IH]; simpl; auto.
  rewrite flat_map_app, !filter_app, !length_app, IH. simpl.
  rewrite app_nil_r. lia.
Qed.

(** The mesh loop from any state whose vertex count is a multiple of 4. *)
Lemma add_tiles_from (tiles : Z -> Z) (cells : list (Z * Z))
      (vs : list TileVertex) (ixs : list Z) (q : nat) :
  List.length vs = (4 * q)%nat ->
  4 * (Z.of_nat q + Z.of_nat (List.length cells)) < 65536 ->
  let n := List.length (filter (occupied tiles) cells) in
  let result := fold_left (add_tile tiles) cells (vs, ixs) in
  List.length (fst result) = (4 * (q + n))%nat
  /\ snd result = ixs ++ flat_map quad_indices (map Z.of_nat (seq q n)).
Proof.
  revert vs ixs q. induction cells as [|[x y] cells IH]; intros vs ixs q Hlen Hsmall n result.
  - subst n result. simpl. rewrite Nat.add_0_r, app_nil_r. auto.
  - subst n result.
    change (fold_left (add_tile tiles) ((x, y) :: cells) (vs, ixs))
      with (fold_left (add_tile tiles) cells (add_tile tiles (vs, ixs) (x, y))).
    remember (add_tile tiles (vs, ixs) (x, y)) as st eqn:Hst.
    unfold add_tile in Hst.
    simpl filter.
    assert (Hocc : occupied tiles (x, y) = negb (tiles (get_tile_index x y) =? EMPTY))
      by reflexivity.
    rewrite Hocc. clear Hocc.
    simpl List.length in Hsmall.
    destruct (tiles (get_tile_index x y) =? EMPTY); simpl negb; cbv iota; subst st.
    + apply IH; [exact Hlen|lia].
    + match goal with
      | |- context [fold_left _ cells (?v, ?i)] =>
          destruct (IH v i (S q)) as (Hv & Hi)
      end.
      * rewrite length_app, Hlen. simpl. lia.
      * lia.
      * split.
        -- rewrite Hv. simpl List.length. lia.
        -- rewrite Hi. simpl List.length. rewrite <- app_assoc. f_equal.
           simpl seq. simpl map. simpl flat_map. unfold quad_indices at 2.
           rewrite length_app, Hlen. simpl List.length.
           replace (Z.of_nat (4 * q + 4)) with (4 * Z.of_nat q + 4) by lia.
           replace (4 * Z.of_nat q + 4 - 4) with (4 * Z.of_nat q) by lia.
           replace (4 * Z.of_nat q + 4 - 3) with (4 * Z.of_nat q + 1) by lia.
           replace (4 * Z.of_nat q + 4 - 2) with (4 * Z.of_nat q + 2) by lia.
           replace (4 * Z.of_nat q + 4 - 1) with (4 * Z.of_nat q + 3) by lia.
           rewrite !Z.mod_small by lia. reflexivity.
Qed.

(** X14. Whatever the random branch stores, the mesh [create_tiles] builds
    fits its allocations exactly: with [num_tiles] the number of occupied
    cells counted by the first loop, the second loop writes
    [vertices_count = 4 * num_tiles] vertices and
    [vertex_indices_count = 6 * num_tiles] indices, and the indices of
    quad [k] are those of its own four vertices, none cut by the 16-bit
    index type. *)
Theorem create_tiles_mesh_fits (interior : Z -> Z -> Z) :
  let mesh := create_tiles interior in
  exists num_tiles,
    0 <= num_tiles <= X_TILES * Y_TILES
    /\ vertices_count mesh = num_tiles * 4
    /\ vertex_indices_count mesh = num_tiles * 6
    /\ Z.of_nat (List.length (vertices mesh)) = vertices_count mesh
    /\ Z.of_nat (List.length (vertex_indices mesh)) = vertex_indices_count mesh
    /\ vertex_indices mesh = flat_map quad_indices (index_range num_tiles)
    /\ Forall (fun i => 0 <= i < vertices_count mesh) (vertex_indices mesh).
Proof.
  intros mesh. subst mesh. unfold create_tiles.
  pose proof (generate_tiles_stored interior) as Hstored.
  pose proof (generate_tiles_count interior) as Hn.
  destruct (generate_tiles interior) as [tiles num_tiles].
  cbn [fst snd] in Hn, Hstored.
  set (n := List.length (filter (occupied tiles) cells_column_major)).
  assert (Hcount : num_tiles = Z.of_nat n).
  { rewrite Hn. f_equal. unfold n, cells_row_major, cells_column_major.
    rewrite count_flat_map_rev, count_rows_columns.
    f_equal. apply filter_ext_in. intros c Hc.
    apply In_cells_column_major in Hc. unfold occupied. now rewrite Hstored. }
  assert (Hbound : (n <= 768)%nat).
  { unfold n. etransitivity; [apply filter_length_le|].
    vm_compute. apply Nat.le_refl. }
  destruct (add_tiles_from tiles cells_column_major [] [] 0 eq_refl) as (Hv & Hi).
  { replace (List.length cells_column_major) with 768%nat by (vm_compute; reflexivity).
    lia. }
  fold n in Hv, Hi.
  destruct (fold_left (add_tile tiles) cells_column_major ([], [])) as [vs ixs].
  cbn [fst snd Nat.add app] in Hv, Hi.
  cbn [vertices_count vertex_indices_count vertices vertex_indices].
  exists num_tiles. unfold X_TILES, Y_TILES.
  assert (Hixs : ixs = flat_map quad_indices (index_range num_tiles)).
  { rewrite Hi, Hcount. unfold index_range. now rewrite Nat2Z.id. }
  split; [lia|]. split; [reflexivity|]. split; [reflexivity|].
  split; [lia|]. split; [|split; [exact Hixs|]].
  - rewrite Hixs. rewrite (length_rows quad_indices 6) by reflexivity.
    rewrite length_index_range. lia.
  - rewrite Hixs. apply Forall_forall. intros i Hin.
    apply in_flat_map in Hin. destruct Hin as (k & Hk & Hin).
    apply In_index_range in Hk. unfold quad_indices in Hin. cbn [In] in Hin.
    intuition lia.
Qed.

(** ** read_entire_binary_file *)

(** The loop from a state in which the buffer holds what was read and the
    allocation has the size the code believes it has. *)
Lemma read_loop_run (realloc_ok : Z -> bool) (shrink_ok : bool) (input written : list Z)
      (buffer_size : Z) :
  let bytes_read := Z.of_nat (List.length written) in
  let total := bytes_read + Z.of_nat (List.length input) in
  let result := read_loop realloc_ok shrink_ok input written
                          buffer_size buffer_size bytes_read in
  let whole := ReadOk (if shrink_ok then Some (written ++ input) else None) total in
  bytes_read <= buffer_size -> total <= INT_MAX ->
  (result = whole \/ result = ReadExit "Failed to allocate memory for file")
  /\ ((forall n, buffer_size + 1024 <= n < total + 1024 -> realloc_ok n = true) ->
      result = whole)
  /\ (result <> whole ->
      exists n, buffer_size + 1024 <= n < total + 1024 /\ realloc_ok n = false).
Proof.
  revert written buffer_size.
  induction input as [|c rest IH]; intros written buffer_size bytes_read total result whole
                                          Hle Hmax.
  - subst result whole total bytes_read. simpl. rewrite Z.add_0_r, app_nil_r.
    split; [left; reflexivity|]. split; [reflexivity|]. intros H. now destruct H.
  - assert (Hnext : Z.of_nat (List.length (written ++ [c])) = bytes_read + 1).
    { rewrite length_app. simpl. subst bytes_read. lia. }
    assert (Htotal : total = Z.of_nat (List.length (written ++ [c]))
                             + Z.of_nat (List.length rest)).
    { rewrite Hnext. subst total. simpl List.length. lia. }
    assert (Hwhole : whole = ReadOk (if shrink_ok then Some ((written ++ [c]) ++ rest)
                                     else None)
                                    (Z.of_nat (List.length (written ++ [c]))
                                     + Z.of_nat (List.length rest))).
    { subst whole. rewrite <- Htotal, <- app_assoc. reflexivity. }
    assert (Hpos : 0 <= bytes_read) by (subst bytes_read; lia).
    assert (Hlt : bytes_read < INT_MAX).
    { subst total. simpl List.length in Hmax. lia. }
    subst result. simpl read_loop.
    destruct (Z.geb_spec bytes_read buffer_size) as [Hfull|Hroom].
    + destruct (realloc_ok (buffer_size + 1024)) eqn:Hgrow; simpl negb; cbv iota.
      * destruct (Z.leb_spec 0 bytes_read) as [_|Hneg]; [|lia].
        destruct (Z.ltb_spec bytes_read (buffer_size + 1024)) as [_|Hout]; [|lia].
        destruct (Z.eqb_spec bytes_read INT_MAX) as [Hlast|_]; [lia|]. simpl andb. cbv iota.
        rewrite <- Hnext.
        destruct (IH (written ++ [c]) (buffer_size + 1024)) as (H1 & H2 & H3);
          [lia|lia|].
        rewrite <- Hwhole in H1, H2, H3. rewrite <- Htotal in H2, H3.
        split; [exact H1|]. split.
        -- intros Hall. apply H2. intros n Hn. apply Hall. lia.
        -- intros Hne. destruct (H3 Hne) as (n & Hn & Hfail).
           exists n. split; [lia|exact Hfail].
      * split; [right; reflexivity|]. split.
        -- intros Hall. rewrite Hall in Hgrow; [discriminate|].
           subst total. simpl List.length. lia.
        -- intros _. exists (buffer_size + 1024). split; [|exact Hgrow].
           subst total. simpl List.length. lia.
    + destruct (Z.leb_spec 0 bytes_read) as [_|Hneg]; [|lia].
      destruct (Z.ltb_spec bytes_read buffer_size) as [_|Hout]; [|lia].
      destruct (Z.eqb_spec bytes_read INT_MAX) as [Hlast|_]; [lia|]. simpl andb. cbv iota.
      rewrite <- Hnext.
      destruct (IH (written ++ [c]) buffer_size) as (H1 & H2 & H3); [lia|lia|].
      rewrite <- Hwhole in H1, H2, H3. rewrite <- Htotal in H2, H3.
      split; [exact H1|]. split; [exact H2|exact H3].
Qed.

(** X15. When the first [malloc] succeeds and the file is shorter than
    2^31 bytes, [read_entire_binary_file] never writes outside its
    buffer: it either exits because a [realloc] that enlarges the buffer
    failed, or returns the buffer of the last [realloc] with [*size] the
    length of the file, the buffer (when not null) holding exactly the
    bytes of the file. It returns whenever every enlarging [realloc]
    succeeds; a file of at most 1024 bytes needs none. *)
Theorem read_entire_binary_file_whole_file (realloc_ok : Z -> bool) (shrink_ok : bool)
        (input : list Z) :
  let size := Z.of_nat (List.length input) in
  let result := read_entire_binary_file true realloc_ok shrink_ok (Some input) in
  let whole := ReadOk (if shrink_ok then Some input else None) size in
  size <= INT_MAX ->
  (result = whole \/ result = ReadExit "Failed to allocate memory for file")
  /\ ((forall n, 2048 <= n < size + 1024 -> realloc_ok n = true) -> result = whole)
  /\ (result <> whole -> exists n, 2048 <= n < size + 1024 /\ realloc_ok n = false)
  /\ (size <= 1024 -> result = whole).
Proof.
  intros size result whole Hmax.
  destruct (read_loop_run realloc_ok shrink_ok input [] 1024) as (H1 & H2 & H3).
  - simpl. lia.
  - exact Hmax.
  - split; [exact H1|]. split; [exact H2|]. split; [exact H3|].
    intros Hsmall. apply H2. intros n Hn.
    change (Z.of_nat (List.length (@nil Z))) with 0 in Hn. unfold size in Hsmall. lia.
Qed.

Lemma read_entire_binary_file_whole_file_witness :
  read_entire_binary_file true (fun _ => false) true (Some [137; 80; 78; 71])
  = ReadOk (Some [137; 80; 78; 71]) 4.
Proof.
  apply (read_entire_binary_file_whole_file (fun _ => false) true [137; 80; 78; 71]).
  - unfold INT_MAX. simpl. lia.
  - simpl. lia.
Defined.

(** ** A frame up to and after its present call *)

Section PresentCall.
Variable drv : Driver.

(** What lines 929-957 leave, for any present result. *)
Lemma after_present_effect (result : Z) (w w' : World) :
  after_present drv result w = Done (tt, w') ->
  let n := if result =? VK_SUBOPTIMAL_KHR
           then wrap32 (suboptimal_swapchain_count w + 1) else 0 in
  framebuffer_resized w' = false
  /\ current_frame w' = current_frame w
  /\ suboptimal_swapchain_count w'
     = (if framebuffer_resized w then n
        else if SUBOPTIMAL_SWAPCHAIN_THRESHOLD <=? n then 0 else n)
  /\ exists l,
      logged w w' l /\ presented l = []
      /\ recreations l
         = if framebuffer_resized w
              || (SUBOPTIMAL_SWAPCHAIN_THRESHOLD <=? n)
              || (result =? VK_ERROR_OUT_OF_DATE_KHR)
           then 1%nat else 0%nat.
Proof.
  intros H n. rewrite after_present_unfold in H. fold n in H.
  set (w1 := with_suboptimal_swapchain_count n w) in H.
  assert (Hrec : forall v,
             vkx_recreate_swap_chain drv v = Done (tt, w') ->
             calls v = calls w ->
             framebuffer_resized w' = framebuffer_resized v
             /\ current_frame w' = current_frame v
             /\ suboptimal_swapchain_count w' = suboptimal_swapchain_count v
             /\ exists l, logged w w' l /\ presented l = [] /\ recreations l = 1%nat).
  { intros v Hv Hcalls.
    destruct (vkx_recreate_swap_chain_log drv _ _ Hv) as ((_ & Hc & Hr & Hn) & l & Hl & HP).
    split; [exact Hr|]. split; [exact Hc|]. split; [exact Hn|].
    exists (vkDeviceWaitIdle :: l). split; [unfold logged in *; congruence|].
    split; [simpl; apply presented_setup, HP|].
    simpl. now rewrite (recreations_setup l HP). }
  destruct (framebuffer_resized w) eqn:Hr.
  - rewrite (handle_present_result_resized drv result w1 Hr) in H.
    destruct (Hrec _ H eq_refl) as (Hr' & Hc' & Hn' & Hlog).
    split; [exact Hr'|]. split; [exact Hc'|]. split; [exact Hn'|exact Hlog].
  - rewrite orb_false_l.
    destruct (Z.leb_spec SUBOPTIMAL_SWAPCHAIN_THRESHOLD n) as [Hge|Hlt].
    + rewrite (handle_present_result_threshold drv result w1 Hr Hge) in H.
      destruct (Hrec _ H eq_refl) as (Hr' & Hc' & Hn' & Hlog).
      split; [rewrite Hr'; exact Hr|]. split; [exact Hc'|].
      split; [exact Hn'|exact Hlog].
    + rewrite (handle_present_result_below drv result w1 Hr Hlt) in H.
      rewrite orb_false_l.
      destruct (result =? VK_ERROR_OUT_OF_DATE_KHR).
      * destruct (Hrec _ H eq_refl) as (Hr' & Hc' & Hn' & Hlog).
        split; [rewrite Hr'; exact Hr|]. split; [exact Hc'|].
        split; [exact Hn'|exact Hlog].
      * destruct (negb (result =? VK_SUBOPTIMAL_KHR) && negb (result =? VK_SUCCESS));
          [discriminate|].
        injection H as <-. split; [exact Hr|]. split; [reflexivity|].
        split; [reflexivity|]. exists [].
        split; [unfold logged; simpl; now rewrite app_nil_r|]. split; reflexivity.
Qed.

Variable ans : FrameAnswers.

(** A frame that got its image and returned had recording and submission
    succeed. *)
Lemma render_and_present_Done_answers (frame image_index : Z) (w w' : World) :
  render_and_present drv ans frame image_index w = Done (tt, w') ->
  ans_begin ans = VK_SUCCESS /\ ans_end ans = VK_SUCCESS /\ ans_submit ans = VK_SUCCESS.
Proof.
  intros H. unfold render_and_present in H.
  apply bind_Done in H. destruct H as ([] & w2 & _ & H).
  apply bind_Done in H. destruct H as ([] & w3 & _ & H).
  apply bind_Done in H. destruct H as ([] & w4 & _ & H).
  apply bind_Done in H. destruct H as ([] & w5 & K5 & H).
  apply record_command_buffer_Done in K5. destruct K5 as (Hb & He & _).
  apply bind_Done in H. destruct H as ([] & w6 & _ & H).
  apply bind_Done in H. destruct H as ([] & w7 & K7 & _).
  split; [exact Hb|]. split; [exact He|].
  unfold check in K7.
  destruct (Z.eqb_spec (ans_submit ans) VK_SUCCESS) as [Hs|Hs]; [exact Hs|discriminate].
Qed.

(** [draw_frame] up to its present call: with the slot's fence signaled or
    pending, an image acquired, and recording and submission succeeding,
    the frame reaches [vkQueuePresentKHR] once, with the resize flag and
    the debounce counter as they were, and goes on with lines 929-959. *)
Lemma draw_frame_present_call (w : World) :
  fence_at w (current_frame w) <> FenceUnsignaled ->
  ans_acquire ans = VK_SUCCESS \/ ans_acquire ans = VK_SUBOPTIMAL_KHR ->
  ans_begin ans = VK_SUCCESS -> ans_end ans = VK_SUCCESS ->
  ans_submit ans = VK_SUCCESS ->
  exists w0 l,
    draw_frame drv ans w
    = (after_present drv (ans_present ans) ;;;
       set_current_frame (wrap32 (current_frame w + 1) mod VKX_FRAMES_IN_FLIGHT)) w0
    /\ logged w w0 (l ++ [vkQueuePresentKHR (ans_image_index ans)])
    /\ presented l = [] /\ recreations l = 0%nat
    /\ current_frame w0 = current_frame w
    /\ framebuffer_resized w0 = framebuffer_resized w
    /\ suboptimal_swapchain_count w0 = suboptimal_swapchain_count w.
Proof.
  intros Hfence Hacq Hb He Hs.
  rewrite (draw_frame_unfold drv ans w Hfence).
  assert (Hsel : (ans_acquire ans =? VK_ERROR_OUT_OF_DATE_KHR) = false
                 /\ (negb (ans_acquire ans =? VK_SUCCESS)
                     && negb (ans_acquire ans =? VK_SUBOPTIMAL_KHR)) = false).
  { destruct Hacq as [-> | ->]; split; reflexivity. }
  destruct Hsel as (-> & ->).
  destruct (render_and_present_run drv ans (current_frame w) (ans_image_index ans)
                                   (after_acquire w) Hb He Hs)
    as (w0 & Hrun & Hl0 & _ & _ & Hc0 & Hr0 & Hn0).
  exists w0.
  exists ([vkWaitForFences (current_frame w); vkAcquireNextImageKHR (current_frame w);
           memcpyUniforms (current_frame w); vkResetFences (current_frame w);
           vkResetCommandBuffer (at_index (drv_command_buffers drv) (current_frame w))]
            ++ recorded_calls
                 (at_index (drv_command_buffers drv) (current_frame w))
                 (at_index (images (vkx_swap_chain w)) (ans_image_index ans))
                 (at_index (image_views (vkx_swap_chain w)) (ans_image_index ans))
                 (image_format (vkx_swap_chain w))
                 (at_index (drv_offscreen_images drv) (current_frame w))
            ++ [vkQueueSubmit (at_index (drv_command_buffers drv) (current_frame w))
                              (Some (current_frame w))]).
  split; [exact Hrun|].
  split; [|split; [|split; [|split; [exact Hc0|split; [exact Hr0|exact Hn0]]]]].
  - unfold logged, frame_calls in *. rewrite Hl0.
    change (calls (after_acquire w))
      with ((calls w ++ [vkWaitForFences (current_frame w)])
              ++ [vkAcquireNextImageKHR (current_frame w)]).
    change (vkx_swap_chain (after_acquire w)) with (vkx_swap_chain w).
    change (current_frame (after_acquire w)) with (current_frame w).
    rewrite <- !app_assoc. reflexivity.
  - reflexivity.
  - reflexivity.
Qed.

(** A call of [draw_frame] that returned after a non-stale acquire went
    through its present call. *)
Lemma draw_frame_Done_present (w w' : World) :
  draw_frame drv ans w = Done (tt, w') ->
  ans_acquire ans <> VK_ERROR_OUT_OF_DATE_KHR ->
  exists w0 w1 l,
    logged w w0 (l ++ [vkQueuePresentKHR (ans_image_index ans)])
    /\ presented l = [] /\ recreations l = 0%nat
    /\ framebuffer_resized w0 = framebuffer_resized w
    /\ suboptimal_swapchain_count w0 = suboptimal_swapchain_count w
    /\ after_present drv (ans_present ans) w0 = Done (tt, w1)
    /\ w' = with_current_frame
              (wrap32 (current_frame w + 1) mod VKX_FRAMES_IN_FLIGHT) w1.
Proof.
  intros H Hacq.
  assert (Hfence : fence_at w (current_frame w) <> FenceUnsignaled).
  { intros Hb. rewrite (draw_frame_blocked drv ans w Hb) in H. discriminate. }
  pose proof H as H0. rewrite (draw_frame_unfold drv ans w Hfence) in H0.
  apply Z.eqb_neq in Hacq. rewrite Hacq in H0.
  destruct (Z.eqb_spec (ans_acquire ans) VK_SUCCESS) as [Hok|Hok];
    destruct (Z.eqb_spec (ans_acquire ans) VK_SUBOPTIMAL_KHR) as [Hsub|Hsub];
    cbn [negb andb] in H0; try discriminate.
  all: destruct (render_and_present_Done_answers _ _ _ _ H0) as (Hb & He & Hs).
  all: destruct (draw_frame_present_call w Hfence) as
      (w0 & l & Hrun & Hl & Hp & Hrc & _ & Hr & Hn); auto.
  all: rewrite Hrun in H; apply bind_Done in H; destruct H as ([] & w1 & Hafter & H);
    injection H as <-.
  all: exists w0, w1, l; repeat (split; [assumption|]); reflexivity.
Qed.
End PresentCall.

(** C3. A call of [draw_frame] whose fence wait returns, that acquires an
    image and whose recording and submission succeed makes its present
    call, with the resize flag and the debounce counter as the frame found
    them. What follows the present call (after the counter update) looks
    at the resize flag first: when set, it is cleared and the swapchain
    recreated, whatever the present result; otherwise a counter at or
    above the threshold of 10 is reset and the swapchain recreated;
    otherwise a stale present result recreates; otherwise a result that is
    neither success nor suboptimal is the fatal exit, and success or
    suboptimal carries on to the frame counter update. A call that returns
    recreated exactly once after the present call in the first three cases
    and not at all in the last, and presented nothing more. *)
Theorem present_result_precedence (drv : Driver) (ans : FrameAnswers) (w : World) :
  fence_at w (current_frame w) <> FenceUnsignaled ->
  ans_acquire ans = VK_SUCCESS \/ ans_acquire ans = VK_SUBOPTIMAL_KHR ->
  ans_begin ans = VK_SUCCESS -> ans_end ans = VK_SUCCESS ->
  ans_submit ans = VK_SUCCESS ->
  let result := ans_present ans in
  let n := if result =? VK_SUBOPTIMAL_KHR
           then wrap32 (suboptimal_swapchain_count w + 1) else 0 in
  let next := set_current_frame (wrap32 (current_frame w + 1) mod VKX_FRAMES_IN_FLIGHT) in
  let r := draw_frame drv ans w in
  exists w0 l,
    logged w w0 (l ++ [vkQueuePresentKHR (ans_image_index ans)])
    /\ presented l = [] /\ recreations l = 0%nat
    /\ framebuffer_resized w0 = framebuffer_resized w
    /\ suboptimal_swapchain_count w0 = suboptimal_swapchain_count w
    /\ let w1 := with_suboptimal_swapchain_count n w0 in
       SUBOPTIMAL_SWAPCHAIN_THRESHOLD = 10
       /\ (framebuffer_resized w = true ->
           r = (vkx_recreate_swap_chain drv ;;; next) (with_framebuffer_resized false w1))
       /\ (framebuffer_resized w = false -> SUBOPTIMAL_SWAPCHAIN_THRESHOLD <= n ->
           r = (vkx_recreate_swap_chain drv ;;; next)
                 (with_suboptimal_swapchain_count 0 w1))
       /\ (framebuffer_resized w = false -> n < SUBOPTIMAL_SWAPCHAIN_THRESHOLD ->
           result = VK_ERROR_OUT_OF_DATE_KHR ->
           r = (vkx_recreate_swap_chain drv ;;; next) w1)
       /\ (framebuffer_resized w = false -> n < SUBOPTIMAL_SWAPCHAIN_THRESHOLD ->
           result <> VK_ERROR_OUT_OF_DATE_KHR ->
           result <> VK_SUCCESS -> result <> VK_SUBOPTIMAL_KHR ->
           r = Exit "failed to present swap chain image!")
       /\ (framebuffer_resized w = false -> n < SUBOPTIMAL_SWAPCHAIN_THRESHOLD ->
           result = VK_SUCCESS \/ result = VK_SUBOPTIMAL_KHR ->
           r = next w1)
       /\ (forall w', r = Done (tt, w') ->
           framebuffer_resized w' = false
           /\ exists l', logged w0 w' l' /\ presented l' = []
                         /\ recreations l'
                            = if framebuffer_resized w
                                 || (SUBOPTIMAL_SWAPCHAIN_THRESHOLD <=? n)
                                 || (result =? VK_ERROR_OUT_OF_DATE_KHR)
                              then 1%nat else 0%nat).
Proof.
  intros Hfence Hacq Hb He Hs result n next r.
  destruct (draw_frame_present_call drv ans w Hfence Hacq Hb He Hs)
    as (w0 & l & Hrun & Hl & Hp & Hrc & _ & Hr0 & Hn0).
  exists w0, l. do 5 (split; [assumption|]).
  intros w1. subst r. rewrite Hrun. fold next. fold result.
  assert (Hafter : after_present drv result w0 = handle_present_result drv result w1).
  { rewrite after_present_unfold. rewrite Hn0. reflexivity. }
  unfold bind. rewrite Hafter.
  split; [reflexivity|]. split; [|split; [|split; [|split; [|split]]]].
  - intros Hr. rewrite (handle_present_result_resized drv result w1); [reflexivity|].
    simpl. now rewrite Hr0.
  - intros Hr Hn. rewrite (handle_present_result_threshold drv result w1);
      [reflexivity|simpl; now rewrite Hr0|exact Hn].
  - intros Hr Hn Hood. rewrite (handle_present_result_below drv result w1);
      [|simpl; now rewrite Hr0|exact Hn].
    rewrite Hood. reflexivity.
  - intros Hr Hn H1 H2 H3. rewrite (handle_present_result_below drv result w1);
      [|simpl; now rewrite Hr0|exact Hn].
    apply Z.eqb_neq in H1, H2, H3. rewrite H1, H2, H3. reflexivity.
  - intros Hr Hn Hok. rewrite (handle_present_result_below drv result w1);
      [|simpl; now rewrite Hr0|exact Hn].
    destruct Hok as [Hok|Hok]; rewrite Hok; reflexivity.
  - intros w' H. rewrite <- Hafter in H.
    destruct (after_present drv result w0) as [[[] w2]| |] eqn:Hrun2; try discriminate.
    injection H as <-.
    destruct (after_present_effect drv result w0 w2 Hrun2) as (Hr2 & _ & _ & l2 & Hl2 & Hp2 & Hrc2).
    rewrite Hr0, Hn0 in Hrc2. fold n in Hrc2.
    split; [exact Hr2|]. exists l2. split; [exact Hl2|]. split; [exact Hp2|exact Hrc2].
Qed.

Lemma present_result_precedence_witness :
  exists w',
    draw_frame example_driver (example_answers VK_SUCCESS VK_ERROR_OUT_OF_DATE_KHR)
               (example_world false false 3)
    = Done (tt, w')
    /\ framebuffer_resized w' = false
    /\ recreations (calls w') = 1%nat
    /\ presented (calls w') = [1].
Proof.
  destruct (present_result_precedence example_driver
              (example_answers VK_SUCCESS VK_ERROR_OUT_OF_DATE_KHR)
              (example_world false false 3))
    as (w0 & l & Hl & Hp & Hrc & _ & _ & _ & _ & _ & _ & _ & _ & Hdone).
  - vm_compute. discriminate.
  - left. reflexivity.
  - reflexivity.
  - reflexivity.
  - reflexivity.
  - destruct (draw_frame example_driver
                (example_answers VK_SUCCESS VK_ERROR_OUT_OF_DATE_KHR)
                (example_world false false 3))
      as [[[] w']| |] eqn:Hrun; [|vm_compute in Hrun; discriminate ..].
    destruct (Hdone w' eq_refl) as (Hres & l' & Hl' & Hp' & Hrc').
    exists w'. split; [reflexivity|]. split; [exact Hres|].
    unfold logged in Hl, Hl'. rewrite Hl', Hl. simpl calls.
    rewrite !recreations_app, !presented_app, Hrc, Hp, Hp', Hrc'.
    split; reflexivity.
Defined.

(** C2 (amended). A call of [draw_frame] that returns after a non-stale
    acquire made one present call. The counter update that follows it
    gives the counter plus one (as a [uint32_t]) when the present result
    was suboptimal and zero otherwise. After the present call the
    swapchain was recreated at most once. With no recreation the call
    returns with the updated counter; after a recreation taken with the
    resize flag clear (debounce threshold or stale present result) the
    counter is zero; after a recreation taken on the resize flag it still
    has the updated value. *)
Theorem suboptimal_counter_after_present
        (drv : Driver) (ans : FrameAnswers) (w w' : World) :
  draw_frame drv ans w = Done (tt, w') ->
  ans_acquire ans <> VK_ERROR_OUT_OF_DATE_KHR ->
  let result := ans_present ans in
  let n := if result =? VK_SUBOPTIMAL_KHR
           then wrap32 (suboptimal_swapchain_count w + 1) else 0 in
  (result = VK_SUBOPTIMAL_KHR -> 0 <= suboptimal_swapchain_count w < UINT32_MAX ->
   n = suboptimal_swapchain_count w + 1)
  /\ (result = VK_SUBOPTIMAL_KHR -> suboptimal_swapchain_count w = UINT32_MAX -> n = 0)
  /\ exists l1 l2,
      logged w w' (l1 ++ vkQueuePresentKHR (ans_image_index ans) :: l2)
      /\ presented l1 = [] /\ recreations l1 = 0%nat /\ presented l2 = []
      /\ (recreations l2 = 0%nat \/ recreations l2 = 1%nat)
      /\ (recreations l2 = 0%nat -> suboptimal_swapchain_count w' = n)
      /\ (recreations l2 = 1%nat -> framebuffer_resized w = false ->
          suboptimal_swapchain_count w' = 0)
      /\ (recreations l2 = 1%nat -> framebuffer_resized w = true ->
          suboptimal_swapchain_count w' = n)
      /\ recreations l2
         = (if framebuffer_resized w
               || (SUBOPTIMAL_SWAPCHAIN_THRESHOLD <=? n)
               || (result =? VK_ERROR_OUT_OF_DATE_KHR)
            then 1%nat else 0%nat).
Proof.
  intros H Hacq result n.
  split; [|split].
  { intros Hsub Hrange. unfold n, UINT32_MAX in *. rewrite Hsub. simpl Z.eqb. cbv iota.
    apply wrap32_small. lia. }
  { intros Hsub Hmax. unfold n, UINT32_MAX in *. rewrite Hsub, Hmax. reflexivity. }
  destruct (draw_frame_Done_present drv ans w w' H Hacq)
    as (w0 & w1 & l & Hl & Hp & Hrc & Hr0 & Hn0 & Hafter & ->).
  destruct (after_present_effect drv _ w0 w1 Hafter) as (_ & _ & Hcnt & l2 & Hl2 & Hp2 & Hrc2).
  rewrite Hr0, Hn0 in Hcnt, Hrc2. fold result in Hcnt, Hrc2. fold n in Hcnt, Hrc2.
  exists l, l2.
  split.
  { unfold logged in *. simpl calls. rewrite Hl2, Hl, <- !app_assoc. reflexivity. }
  split; [exact Hp|]. split; [exact Hrc|]. split; [exact Hp2|].
  simpl suboptimal_swapchain_count. rewrite Hcnt, Hrc2.
  destruct (framebuffer_resized w).
  - simpl. split; [right; reflexivity|]. split; [discriminate|].
    split; [discriminate|]. split; [reflexivity|reflexivity].
  - rewrite orb_false_l.
    destruct (Z.leb_spec SUBOPTIMAL_SWAPCHAIN_THRESHOLD n) as [Hge|Hlt].
    + simpl. split; [right; reflexivity|]. split; [discriminate|].
      split; [reflexivity|]. split; [discriminate|reflexivity].
    + rewrite orb_false_l.
      destruct (Z.eqb_spec result VK_ERROR_OUT_OF_DATE_KHR) as [Hood|Hood].
      * assert (Hn0' : n = 0) by (unfold n; rewrite Hood; reflexivity).
        split; [right; reflexivity|]. split; [discriminate|].
        split; [intros _ _; exact Hn0'|]. split; [discriminate|reflexivity].
      * split; [left; reflexivity|]. split; [reflexivity|].
        split; [discriminate|]. split; [discriminate|reflexivity].
Qed.

Lemma suboptimal_counter_after_present_witness :
  exists w',
    draw_frame example_driver (example_answers VK_SUCCESS VK_SUBOPTIMAL_KHR)
               (example_world false false 9)
    = Done (tt, w')
    /\ recreations (calls w') = 1%nat
    /\ suboptimal_swapchain_count w' = 0.
Proof.
  destruct (draw_frame example_driver (example_answers VK_SUCCESS VK_SUBOPTIMAL_KHR)
                       (example_world false false 9))
    as [[[] w']| |] eqn:Hrun; [|vm_compute in Hrun; discriminate ..].
  destruct (suboptimal_counter_after_present example_driver
              (example_answers VK_SUCCESS VK_SUBOPTIMAL_KHR)
              (example_world false false 9) w' Hrun)
    as (_ & _ & l1 & l2 & Hl & _ & Hrc1 & _ & _ & _ & Hzero & _ & Hrc2).
  - discriminate.
  - exists w'. split; [reflexivity|].
    assert (Hone : recreations l2 = 1%nat) by (rewrite Hrc2; reflexivity).
    split; [|apply Hzero; [exact Hone|reflexivity]].
    unfold logged in Hl. rewrite Hl. simpl calls.
    rewrite !recreations_app, Hrc1. simpl. exact Hone.
Defined.

(** ** What a swapchain creation logs *)

Section CreationLog.
Variable drv : Driver.

Let support := drv_swap_chain_support drv.
Let ext := vkx_choose_swap_extent (drv_window_size drv) (capabilities support).
Let info := swap_chain_create_info support (drv_queue_families drv) ext.
Let imgs := drv_vkGetSwapchainImagesKHR drv (snd (drv_vkCreateSwapchainKHR drv info)).
Let fmt := format (choose_surface_format (formats support)).

(** Creation, with or without depth image: the request, the layout
    transitions recorded in command buffer 0 and submitted without a
    fence, the views, the queue-idle wait, and then the calls that build
    the depth image. *)
Lemma create_log (d : bool) (w w' : World) :
  vkx_create_swap_chain drv d w = Done (tt, w') ->
  let cb := at_index (drv_command_buffers drv) 0 in
  exists depth_calls,
    logged w w'
      ([vkCreateSwapchainKHR info; vkResetCommandBuffer cb; vkBeginCommandBuffer cb]
         ++ map (fun img => vkCmdPipelineBarrier cb img VK_IMAGE_LAYOUT_UNDEFINED
                                                 VK_IMAGE_LAYOUT_PRESENT_SRC_KHR) imgs
         ++ [vkEndCommandBuffer cb; vkQueueSubmit cb None]
         ++ map (fun img => vkCreateImageView img fmt VK_IMAGE_ASPECT_COLOR_BIT) imgs
         ++ [vkQueueWaitIdle] ++ depth_calls)
    /\ Forall setup_call depth_calls
    /\ (d = false -> depth_calls = []).
Proof.
  intros H cb. unfold imgs, fmt, info, ext, support.
  unfold vkx_create_swap_chain in H. cbv zeta in H.
  destruct (formats_count (drv_swap_chain_support drv) =? 0); [discriminate|].
  destruct (present_modes_count (drv_swap_chain_support drv) =? 0); [discriminate|].
  apply bind_Done in H. destruct H as (? & w1 & K1 & H). apply modify_logged in K1.
  apply bind_Done in H. destruct H as (? & w2 & K2 & H). apply call_logged in K2.
  match type of H with
  | context [drv_vkCreateSwapchainKHR drv ?i] =>
      destruct (drv_vkCreateSwapchainKHR drv i) as [r h]
  end.
  simpl snd.
  apply bind_Done in H. destruct H as (? & w3 & K3 & H). apply check_logged in K3.
  apply bind_Done in H. destruct H as (? & w4 & K4 & H). apply modify_logged in K4.
  apply bind_Done in H. destruct H as (? & w5 & K5 & H). apply call_logged in K5.
  apply bind_Done in H. destruct H as (? & w6 & K6 & H). apply check_logged in K6.
  apply bind_Done in H. destruct H as (? & w7 & K7 & H). apply call_logged in K7.
  apply bind_Done in H. destruct H as (? & w8 & K8 & H). apply check_logged in K8.
  apply bind_Done in H. destruct H as (? & w9 & K9 & H).
  apply for_each_call_logged in K9.
  apply bind_Done in H. destruct H as (? & w10 & K10 & H). apply call_logged in K10.
  apply bind_Done in H. destruct H as (? & w11 & K11 & H). apply check_logged in K11.
  apply bind_Done in H. destruct H as (? & w12 & K12 & H). apply call_logged in K12.
  apply bind_Done in H. destruct H as (? & w13 & K13 & H). apply check_logged in K13.
  apply bind_Done in H. destruct H as (vs & w14 & K14 & H).
  apply map_m_views_Done in K14. destruct K14 as (_ & K14).
  apply bind_Done in H. destruct H as (? & w15 & K15 & H). apply modify_logged in K15.
  apply bind_Done in H. destruct H as (? & w16 & K16 & H). apply call_logged in K16.
  apply bind_Done in H. destruct H as (? & w17 & K17 & H). apply modify_logged in K17.
  apply bind_Done in H. destruct H as (? & w18 & K18 & H). apply modify_logged in K18.
  assert (Hdepth : exists depth_calls,
             logged w18 w' depth_calls /\ Forall setup_call depth_calls
             /\ (d = false -> depth_calls = [])).
  { destruct d.
    - apply (emits_create_depth_resources drv) in H.
      destruct H as (_ & l & Hl & HP). exists l. split; [exact Hl|].
      split; [exact HP|discriminate].
    - simpl in H. injection H as <-. exists []. split; [apply logged_refl|]. auto. }
  destruct Hdepth as (depth_calls & K19 & HP & Hnil).
  exists depth_calls. split; [|split; [exact HP|exact Hnil]].
  unfold logged in *.
  rewrite K19, K18, K17, K16, K15, K14, K13, K12, K11, K10, K9, K8, K7, K6, K5, K4, K3,
    K2, K1.
  rewrite ?app_nil_r, <- !app_assoc. reflexivity.
Qed.
End CreationLog.

(** A recreation that returns re-recorded command buffer 0 and submitted
    it without a fence. *)
Lemma recreate_log_recording (drv : Driver) (w w' : World) (l : list Call) :
  vkx_recreate_swap_chain drv w = Done (tt, w') ->
  logged w w' (vkDeviceWaitIdle :: l) ->
  let cb := at_index (drv_command_buffers drv) 0 in
  In (vkResetCommandBuffer cb) l /\ In (vkBeginCommandBuffer cb) l
  /\ In (vkEndCommandBuffer cb) l /\ In (vkQueueSubmit cb None) l.
Proof.
  intros H Hl cb.
  destruct (vkx_recreate_swap_chain_steps drv _ _ H) as (w1 & _ & _ & Hl1 & Hc).
  destruct (create_log drv _ _ _ Hc) as (depth_calls & Hl2 & _).
  pose proof (logged_trans _ _ _ _ _ Hl1 Hl2) as Hall.
  simpl in Hall. apply (logged_inj _ _ _ _ Hl) in Hall. injection Hall as ->.
  fold cb.
  repeat split; apply in_or_app; right; simpl; auto 6;
    do 3 right; apply in_or_app; right; simpl; auto.
Qed.

(** C4 (amended). With the slot's fence signaled or pending, a stale
    acquire makes [draw_frame] do nothing but recreate the swapchain: a
    run that returns logged the fence wait, the acquire, the device-idle
    wait and then only tear-down and set-up calls (no fence reset, no
    uniform upload, no draw, no fenced submission, no present), and the
    slot's fence is signaled. Recording and submission are not skipped
    altogether: the set-up calls include resetting, beginning, ending and
    submitting (without a fence) command buffer 0, which is the skipped
    frame's own buffer when the slot is 0. An acquire result other than
    stale, success and suboptimal is the fatal exit. A suboptimal acquire
    renders and presents exactly as a successful one does. *)
Theorem acquire_result_handling (drv : Driver) (ans : FrameAnswers) (w : World) :
  let frame := current_frame w in
  let cb := at_index (drv_command_buffers drv) 0 in
  fence_at w frame <> FenceUnsignaled ->
  (ans_acquire ans = VK_ERROR_OUT_OF_DATE_KHR ->
   draw_frame drv ans w = vkx_recreate_swap_chain drv (after_acquire w)
   /\ forall w', draw_frame drv ans w = Done (tt, w') ->
        fence_at w' frame = FenceSignaled
        /\ exists l,
            logged w w' (vkWaitForFences frame :: vkAcquireNextImageKHR frame
                           :: vkDeviceWaitIdle :: l)
            /\ Forall setup_call l
            /\ presented l = []
            /\ In (vkResetCommandBuffer cb) l /\ In (vkBeginCommandBuffer cb) l
            /\ In (vkEndCommandBuffer cb) l /\ In (vkQueueSubmit cb None) l
            /\ (frame = 0 -> cb = at_index (drv_command_buffers drv) frame))
  /\ (ans_acquire ans <> VK_ERROR_OUT_OF_DATE_KHR ->
      ans_acquire ans <> VK_SUCCESS -> ans_acquire ans <> VK_SUBOPTIMAL_KHR ->
      draw_frame drv ans w = Exit "Failed to acquire swap chain image")
  /\ (ans_acquire ans = VK_SUCCESS \/ ans_acquire ans = VK_SUBOPTIMAL_KHR ->
      draw_frame drv ans w
      = render_and_present drv ans frame (ans_image_index ans) (after_acquire w))
  /\ (ans_acquire ans = VK_SUBOPTIMAL_KHR ->
      draw_frame drv ans w
      = draw_frame drv
          (mkFrameAnswers VK_SUCCESS (ans_image_index ans) (ans_begin ans)
                          (ans_end ans) (ans_submit ans) (ans_present ans)) w).
Proof.
  intros frame cb Hfence.
  split; [|split; [|split]].
  - intros Hacq. split.
    + rewrite (draw_frame_unfold drv ans w Hfence), Hacq. reflexivity.
    + intros w' H.
      destruct (draw_frame_stale drv ans w w' Hacq H)
        as (_ & Hrec & _ & Hf & l & Hl & HP).
      split.
      { unfold fence_at. rewrite Hf. apply nth_update_nth.
        apply fence_in_range. exact Hfence. }
      exists l. split; [exact Hl|]. split; [exact HP|].
      split; [apply presented_setup, HP|].
      assert (Hl' : logged (after_acquire w) w' (vkDeviceWaitIdle :: l)).
      { unfold logged in *. simpl calls. rewrite Hl, <- !app_assoc. reflexivity. }
      destruct (recreate_log_recording drv _ _ l Hrec Hl') as (H1 & H2 & H3 & H4).
      repeat (split; [assumption|]). intros H0. unfold cb. fold frame. now rewrite H0.
  - intros H1 H2 H3. rewrite (draw_frame_unfold drv ans w Hfence).
    apply Z.eqb_neq in H1, H2, H3. rewrite H1, H2, H3. reflexivity.
  - intros Hacq. rewrite (draw_frame_unfold drv ans w Hfence).
    destruct Hacq as [Hacq|Hacq]; rewrite Hacq; reflexivity.
  - intros Hacq. rewrite !(draw_frame_unfold drv _ w Hfence), Hacq. reflexivity.
Qed.

Lemma acquire_result_handling_witness :
  exists w',
    draw_frame example_driver (example_answers VK_ERROR_OUT_OF_DATE_KHR VK_SUCCESS)
               (example_world true false 0)
    = Done (tt, w')
    /\ fence_at w' 0 = FenceSignaled.
Proof.
  destruct (draw_frame example_driver
              (example_answers VK_ERROR_OUT_OF_DATE_KHR VK_SUCCESS)
              (example_world true false 0))
    as [[[] w']| |] eqn:Hrun; [|vm_compute in Hrun; discriminate ..].
  destruct (acquire_result_handling example_driver
              (example_answers VK_ERROR_OUT_OF_DATE_KHR VK_SUCCESS)
              (example_world true false 0))
    as ((_ & Hskip) & _).
  - vm_compute. discriminate.
  - reflexivity.
  - exists w'. split; [reflexivity|]. apply Hskip. exact Hrun.
Defined.

(** C4, as stated, fails: a frame skipped at slot 0 after a stale acquire
    has nevertheless begun, ended and submitted that slot's own command
    buffer (number 11 here), inside the recreation. *)
Lemma stale_acquire_records_and_submits :
  exists w',
    draw_frame example_driver (example_answers VK_ERROR_OUT_OF_DATE_KHR VK_SUCCESS)
               (example_world false false 0)
    = Done (tt, w')
    /\ at_index (drv_command_buffers example_driver)
                (current_frame (example_world false false 0)) = 11
    /\ In (vkBeginCommandBuffer 11) (calls w')
    /\ In (vkEndCommandBuffer 11) (calls w')
    /\ In (vkQueueSubmit 11 None) (calls w')
    /\ presented (calls w') = [].
Proof.
  eexists. split; [vm_compute; reflexivity|].
  split; [reflexivity|]. simpl. intuition.
Qed.

(** C7. A swapchain creation that returns has logged its request first,
    and the image count of that request is the [uint32_t] sum
    [minImageCount + 1], lowered to [maxImageCount] when that is not zero;
    a zero [maxImageCount] applies no clamp. With [minImageCount] below
    [UINT32_MAX] the sum is the integer [minImageCount + 1]; min 2 / max 0
    requests 3, min 2 / max 2 requests 2. *)
Theorem requested_image_count
        (drv : Driver) (create_depth_image : bool) (w w' : World) :
  vkx_create_swap_chain drv create_depth_image w = Done (tt, w') ->
  let caps := capabilities (drv_swap_chain_support drv) in
  0 <= minImageCount caps <= UINT32_MAX ->
  0 <= maxImageCount caps <= UINT32_MAX ->
  exists info l,
    logged w w' (vkCreateSwapchainKHR info :: l)
    /\ let requested := ci_minImageCount info in
       requested
       = (if maxImageCount caps =? 0 then wrap32 (minImageCount caps + 1)
          else Z.min (wrap32 (minImageCount caps + 1)) (maxImageCount caps))
       /\ (minImageCount caps < UINT32_MAX ->
           requested
           = if maxImageCount caps =? 0 then minImageCount caps + 1
             else Z.min (minImageCount caps + 1) (maxImageCount caps))
       /\ (minImageCount caps = 2 -> maxImageCount caps = 0 -> requested = 3)
       /\ (minImageCount caps = 2 -> maxImageCount caps = 2 -> requested = 2).
Proof.
  intros H caps Hmin Hmax.
  destruct (create_logs_request drv _ _ _ H) as (_ & l & Hl & _).
  eexists. exists l. split; [exact Hl|].
  intros requested.
  assert (Hreq : requested = choose_image_count caps) by reflexivity.
  rewrite Hreq, choose_image_count_spec by lia.
  unfold UINT32_MAX in *.
  split; [reflexivity|]. split; [|split].
  - intros Hlt. rewrite wrap32_small by lia. reflexivity.
  - intros -> ->. reflexivity.
  - intros -> ->. reflexivity.
Qed.

Lemma requested_image_count_witness :
  exists w' info l,
    vkx_create_swap_chain example_driver false (example_world false false 0)
    = Done (tt, w')
    /\ logged (example_world false false 0) w' (vkCreateSwapchainKHR info :: l)
    /\ ci_minImageCount info = 3.
Proof.
  destruct (vkx_create_swap_chain example_driver false (example_world false false 0))
    as [[[] w']| |] eqn:Hrun; [|vm_compute in Hrun; discriminate ..].
  destruct (requested_image_count example_driver false
              (example_world false false 0) w' Hrun)
    as (info & l & Hl & _ & _ & H3 & _).
  - simpl. unfold UINT32_MAX. lia.
  - simpl. unfold UINT32_MAX. lia.
  - exists w', info, l. split; [reflexivity|]. split; [exact Hl|].
    apply H3; reflexivity.
Defined.
